(** * PDF viewer: document view and highlight synchronisation

    A shallow embedding of the [PdfPane] React component, with what [App]
    passes to it.  The repository has the component twice:
    src/components/PdfPane.jsx, and a later revision kept in
    src/components/Sidebar.jsx after the [Sidebar] component.  The two agree
    on [computeRectsFromChunk], [scheduleRecompute] and the effects, and
    differ in how a document is loaded ([Version]).

    The component is event driven.  It is embedded as a transition function
    [step] over an explicit [State]: the props, the React state and the refs
    of the component, the browser's queues of animation-frame callbacks and
    timers, and the runs of the load effect that are in flight.  A render and
    the effects it triggers are one step.  Every step returns the list of
    effects ([Action]) it issued, so that statements can talk about what was
    published, scrolled to or reported.

    JavaScript numbers enter only through [+], [-], [*], [/] and [Math.max];
    the embedding is written once over an interface [JsNumber] and used at
    two instances: exact rationals [Q], for general arithmetic facts, and the
    kernel's binary64 floats, for concrete runs as a browser computes them. *)

From Stdlib Require Import ZArith QArith Qminmax Floats.
From Stdlib Require Import Bool List String DecimalString Lia Lqa.
Import ListNotations.

Set Implicit Arguments.
Set Warnings "-inexact-float".

(* ------------------------------------------------------------------ *)
(** ** Numbers *)

Class JsNumber (num : Type) : Type := {
  nadd : num -> num -> num;
  nsub : num -> num -> num;
  nmul : num -> num -> num;
  ndiv : num -> num -> num;
  (** [Math.max(a, b)] *)
  Math_max : num -> num -> num;
  (** the literals [0] and [2] *)
  zero : num;
  two : num
}.

Declare Scope js_scope.
Delimit Scope js_scope with js.
Infix "+" := nadd : js_scope.
Infix "-" := nsub : js_scope.
Infix "*" := nmul : js_scope.
Infix "/" := ndiv : js_scope.

(** Exact arithmetic. *)
#[export] Instance Q_JsNumber : JsNumber Q := {
  nadd := Qplus;
  nsub := Qminus;
  nmul := Qmult;
  ndiv := Qdiv;
  Math_max := Qmax;
  zero := 0%Q;
  two := 2%Q
}.

(** [Math.max] on binary64: NaN if an argument is NaN, and [+0] is larger
    than [-0]. *)
Definition float_max (a b : float) : float :=
  if (PrimFloat.is_nan a || PrimFloat.is_nan b)%bool then PrimFloat.nan
  else if PrimFloat.ltb a b then b
  else if PrimFloat.ltb b a then a
  else if (PrimFloat.is_zero a && PrimFloat.get_sign a)%bool then b
  else a.

#[export] Instance float_JsNumber : JsNumber float := {
  nadd := PrimFloat.add;
  nsub := PrimFloat.sub;
  nmul := PrimFloat.mul;
  ndiv := PrimFloat.div;
  Math_max := float_max;
  zero := 0%float;
  two := 2%float
}.

(* ------------------------------------------------------------------ *)
(** ** Errors and completions *)

Inductive JsError : Type :=
| TypeError (message : string)
  (** what a rejected promise or a throwing library call carries, already
      in the form [String(err)] gives it *)
| OtherError (text : string).

(** [String(err)] *)
Definition String_ (err : JsError) : string :=
  match err with
  | TypeError message => ("TypeError: " ++ message)%string
  | OtherError text => text
  end.

(** The result of a call that may throw. *)
Inductive completion (A : Type) : Type :=
| Normal (a : A)
| Throw (err : JsError).

Arguments Normal {A} a.
Arguments Throw {A} err.

(* ------------------------------------------------------------------ *)
(** ** Data model *)

(** A DOM element is known by its handle. *)
Definition Element := nat.

Module DOMRect.
Record t (num : Type) : Type :=
  mk { left : num; top : num; width : num; height : num }.
End DOMRect.

(** What the browser answers to geometry queries at one moment: the queries
    are made live, at each recomputation. *)
Record Layout (num : Type) : Type := {
  getBoundingClientRect : Element -> DOMRect.t num;
  offsetTop : Element -> num;
  clientHeight : Element -> num
}.

Module Chunk.
Record t (num : Type) : Type :=
  mk { chunk_id : string; page : Z; bbox_normalized : num * num * num * num }.
End Chunk.

(** An entry of [pageViews]: [{ pageNumber: i, el: wrapper }]. *)
Record PageView : Type := { pageNumber : Z; el : Element }.

(** An entry of [highlights]. *)
Module Highlight.
Record t (num : Type) : Type :=
  mk { id : string; left : num; top : num; width : num; height : num; page : Z }.
End Highlight.

(* ------------------------------------------------------------------ *)
(** ** Coordinate mapper *)

Section Mapper.
Context {num : Type} `{JsNumber num}.

Local Open Scope js_scope.

(** [pageViews.find(v => v.pageNumber === p)] *)
Definition findView (pageViews : list PageView) (p : Z) : option PageView :=
  find (fun v => (pageNumber v =? p)%Z) pageViews.

(** [computeRectsFromChunk(chunk)], closed over [pageViews]; [containerRef]
    is the current value of the ref, [None] for [null]. *)
Definition computeRectsFromChunk
    (pageViews : list PageView) (containerRef : option Element)
    (layout : Layout num) (chunk : option (Chunk.t num))
  : completion (list (Highlight.t num)) :=
  match chunk with
  | None => Normal []
  | Some chunk =>
    if (List.length pageViews =? 0)%nat then Normal [] else
    match findView pageViews (Chunk.page chunk) with
    | None => Normal []
    | Some view =>
      let pageEl := el view in
      match containerRef with
      | None =>
        Throw (TypeError
          "Cannot read properties of null (reading 'getBoundingClientRect')")
      | Some container =>
        let containerRect := getBoundingClientRect layout container in
        let pageRect := getBoundingClientRect layout pageEl in
        let '(nx0, ny0, nx1, ny1) := Chunk.bbox_normalized chunk in
        let left :=
          DOMRect.left pageRect - DOMRect.left containerRect
          + nx0 * DOMRect.width pageRect in
        let top :=
          DOMRect.top pageRect - DOMRect.top containerRect
          + ny0 * DOMRect.height pageRect in
        let width := Math_max two ((nx1 - nx0) * DOMRect.width pageRect) in
        let height := Math_max two ((ny1 - ny0) * DOMRect.height pageRect) in
        Normal [Highlight.mk (Chunk.chunk_id chunk) left top width height
                             (Chunk.page chunk)]
      end
    end
  end.

(** The scroll position of the centering scroll:
    [Math.max(0, pageTop - container.clientHeight / 2 + pageEl.clientHeight / 2)]. *)
Definition centerScroll (layout : Layout num) (container pageEl : Element) : num :=
  let pageTop := offsetTop layout pageEl in
  Math_max zero
    (pageTop - clientHeight layout container / two
     + clientHeight layout pageEl / two).

End Mapper.

(* ------------------------------------------------------------------ *)
(** ** The component and its surroundings *)

(** The two copies of the component differ in the load effect only:
    [PdfPaneJsx] is src/components/PdfPane.jsx, [SidebarJsx] the later
    revision kept in src/components/Sidebar.jsx, with its [error] and
    [loading] state and its HEAD request.

    Assumption on [PdfPaneJsx].  PdfPane.jsx imports the library under the
    name [pdfjs] and calls [pdfjsLib.getDocument(fileUrl)]; nothing in the
    sources binds [pdfjsLib].  [PdfPaneJsx] is the component on a page that
    supplies [pdfjsLib] as a global (the pdf.js script): only then does the
    call return a loading task.  Without the global the call throws a
    ReferenceError inside the [try], before any await: the [catch] logs it,
    the load is over, and the registry stays empty for good.  The model has
    that case as the run in which the first promise of every load of
    [PdfPaneJsx] is rejected with that error: [catch] does the same there,
    one event later.  Every statement about [PdfPaneJsx] that lets a load get
    past its first promise is a statement under this assumption. *)
Inductive Version : Type :=
| PdfPaneJsx
| SidebarJsx.

(** Where an in-flight load is suspended.  PdfPane.jsx has no HEAD request
    and imports the library statically: its loads start at [AwaitDocument]. *)
Inductive Phase : Type :=
| AwaitHead       (** [await fetch(fileUrl, { method: "HEAD" })] *)
| AwaitImport     (** [await import("pdfjs-dist/build/pdf")] *)
| AwaitDocument   (** [await loadingTask.promise] *)
| AwaitPage (i numPages : Z) (container : Element) (views : list PageView)
                  (** [await doc.getPage(i)] *)
| AwaitRender (i numPages : Z) (container canvas : Element)
              (views : list PageView)
                  (** [await page.render(...).promise] *)
| Returned.

(** One run of the load effect: the [fileUrl] it closed over, its
    [cancelled] variable and the point it is suspended at. *)
Record LoadTask : Type := { url : string; cancelled : bool; phase : Phase }.

(** What a settled promise delivers. *)
Inductive Settled : Type :=
| HeadResponse (ok : bool) (status : Z)
| Document (numPages : Z)
| Fulfilled    (** the module, a page, the end of a render *)
| Rejected (err : JsError).

Section Component.
Context {num : Type} `{JsNumber num}.

(** A [scheduleRecompute] closure is determined by the [pageViews] of the
    render that created it ([computeRectsFromChunk] closes over the same
    array); the refs it reads are shared. *)
Definition Closure : Type := list PageView.

Record State : Type := {
  (* props *)
  fileUrl : string;
  selectedChunk : option (Chunk.t num);
  onReady : bool;                       (* whether the prop is given *)
  (* useState *)
  pageViews : list PageView;
  highlights : list (Highlight.t num);
  error : option string;
  loading : bool;
  (* useRef *)
  containerRef : option Element;
  rafPending : bool;
  latestSelected : option (Chunk.t num);
  (* React *)
  mounted : bool;
  (* browser *)
  layout : Layout num;
  rafQueue : list Closure;              (* requestAnimationFrame callbacks *)
  timers : list Closure;                (* setTimeout(scheduleRecompute, 50) *)
  loads : list LoadTask;                (* runs of the load effect, oldest first *)
  nextElement : Element                 (* next handle of document.createElement *)
}.

Inductive Event : Type :=
| SelectChunk (c : option (Chunk.t num))  (** the parent passes a new [selectedChunk] *)
| SetFileUrl (u : string)                 (** the parent passes a new [fileUrl] *)
| Scroll (l : Layout num)                 (** "scroll" on the container *)
| WindowResize (l : Layout num)           (** "resize" on the window *)
| ContainerResize (l : Layout num)        (** the ResizeObserver fires *)
| Mutation (l : Layout num)               (** the MutationObserver fires *)
| Timeout                                 (** the oldest timer fires *)
| AnimationFrame                          (** the next display frame *)
| Settle (task : nat) (r : Settled)       (** the promise a load awaits settles *)
| Unmount.

Inductive Action : Type :=
| SetHighlights (rects : list (Highlight.t num))   (** [setHighlights(rects)] *)
| CallComputeRects (chunk : Chunk.t num)           (** [computeRectsFromChunk(chunk)] is entered *)
| ScrollTo (top : num)      (** [container.scrollTo({ top, behavior: "smooth" })] *)
| OnReady (numPages : Z)                           (** [onReady({ numPages })] *)
| ConsoleError (label detail : string)
| Uncaught (err : JsError).                        (** an exception leaves a callback *)

(** *** Field updates *)

Definition set_fileUrl (v : string) (s : State) : State :=
  Build_State v (selectedChunk s) (onReady s) (pageViews s) (highlights s)
    (error s) (loading s) (containerRef s) (rafPending s) (latestSelected s)
    (mounted s) (layout s) (rafQueue s) (timers s) (loads s) (nextElement s).

Definition set_selectedChunk (v : option (Chunk.t num)) (s : State) : State :=
  Build_State (fileUrl s) v (onReady s) (pageViews s) (highlights s)
    (error s) (loading s) (containerRef s) (rafPending s) (latestSelected s)
    (mounted s) (layout s) (rafQueue s) (timers s) (loads s) (nextElement s).

Definition set_pageViews (v : list PageView) (s : State) : State :=
  Build_State (fileUrl s) (selectedChunk s) (onReady s) v (highlights s)
    (error s) (loading s) (containerRef s) (rafPending s) (latestSelected s)
    (mounted s) (layout s) (rafQueue s) (timers s) (loads s) (nextElement s).

Definition set_highlights (v : list (Highlight.t num)) (s : State) : State :=
  Build_State (fileUrl s) (selectedChunk s) (onReady s) (pageViews s) v
    (error s) (loading s) (containerRef s) (rafPending s) (latestSelected s)
    (mounted s) (layout s) (rafQueue s) (timers s) (loads s) (nextElement s).

Definition set_error (v : option string) (s : State) : State :=
  Build_State (fileUrl s) (selectedChunk s) (onReady s) (pageViews s)
    (highlights s) v (loading s) (containerRef s) (rafPending s)
    (latestSelected s) (mounted s) (layout s) (rafQueue s) (timers s)
    (loads s) (nextElement s).

Definition set_loading (v : bool) (s : State) : State :=
  Build_State (fileUrl s) (selectedChunk s) (onReady s) (pageViews s)
    (highlights s) (error s) v (containerRef s) (rafPending s)
    (latestSelected s) (mounted s) (layout s) (rafQueue s) (timers s)
    (loads s) (nextElement s).

Definition set_containerRef (v : option Element) (s : State) : State :=
  Build_State (fileUrl s) (selectedChunk s) (onReady s) (pageViews s)
    (highlights s) (error s) (loading s) v (rafPending s) (latestSelected s)
    (mounted s) (layout s) (rafQueue s) (timers s) (loads s) (nextElement s).

Definition set_rafPending (v : bool) (s : State) : State :=
  Build_State (fileUrl s) (selectedChunk s) (onReady s) (pageViews s)
    (highlights s) (error s) (loading s) (containerRef s) v (latestSelected s)
    (mounted s) (layout s) (rafQueue s) (timers s) (loads s) (nextElement s).

Definition set_latestSelected (v : option (Chunk.t num)) (s : State) : State :=
  Build_State (fileUrl s) (selectedChunk s) (onReady s) (pageViews s)
    (highlights s) (error s) (loading s) (containerRef s) (rafPending s) v
    (mounted s) (layout s) (rafQueue s) (timers s) (loads s) (nextElement s).

Definition set_mounted (v : bool) (s : State) : State :=
  Build_State (fileUrl s) (selectedChunk s) (onReady s) (pageViews s)
    (highlights s) (error s) (loading s) (containerRef s) (rafPending s)
    (latestSelected s) v (layout s) (rafQueue s) (timers s) (loads s)
    (nextElement s).

Definition set_layout (v : Layout num) (s : State) : State :=
  Build_State (fileUrl s) (selectedChunk s) (onReady s) (pageViews s)
    (highlights s) (error s) (loading s) (containerRef s) (rafPending s)
    (latestSelected s) (mounted s) v (rafQueue s) (timers s) (loads s)
    (nextElement s).

Definition set_rafQueue (v : list Closure) (s : State) : State :=
  Build_State (fileUrl s) (selectedChunk s) (onReady s) (pageViews s)
    (highlights s) (error s) (loading s) (containerRef s) (rafPending s)
    (latestSelected s) (mounted s) (layout s) v (timers s) (loads s)
    (nextElement s).

Definition set_timers (v : list Closure) (s : State) : State :=
  Build_State (fileUrl s) (selectedChunk s) (onReady s) (pageViews s)
    (highlights s) (error s) (loading s) (containerRef s) (rafPending s)
    (latestSelected s) (mounted s) (layout s) (rafQueue s) v (loads s)
    (nextElement s).

Definition set_loads (v : list LoadTask) (s : State) : State :=
  Build_State (fileUrl s) (selectedChunk s) (onReady s) (pageViews s)
    (highlights s) (error s) (loading s) (containerRef s) (rafPending s)
    (latestSelected s) (mounted s) (layout s) (rafQueue s) (timers s) v
    (nextElement s).

Definition set_nextElement (v : Element) (s : State) : State :=
  Build_State (fileUrl s) (selectedChunk s) (onReady s) (pageViews s)
    (highlights s) (error s) (loading s) (containerRef s) (rafPending s)
    (latestSelected s) (mounted s) (layout s) (rafQueue s) (timers s)
    (loads s) v.

(** A state setter of an unmounted component does nothing. *)
Definition setPageViews (v : list PageView) (s : State) : State :=
  if mounted s then set_pageViews v s else s.

Definition setHighlights (v : list (Highlight.t num)) (s : State) : State :=
  if mounted s then set_highlights v s else s.

Definition setError (v : option string) (s : State) : State :=
  if mounted s then set_error v s else s.

Definition setLoading (v : bool) (s : State) : State :=
  if mounted s then set_loading v s else s.

End Component.

Arguments State num : clear implicits.
Arguments Event num : clear implicits.
Arguments Action num : clear implicits.

(* ------------------------------------------------------------------ *)
(** ** Highlight synchroniser *)

Section Synchronizer.
Context {num : Type} `{JsNumber num}.

(** [scheduleRecompute()], for the closure created by a render whose
    [pageViews] was [pv]: a callback is queued unless one is pending. *)
Definition scheduleRecompute (pv : Closure) (s : State num) : State num :=
  if rafPending s then s
  else set_rafQueue (rafQueue s ++ [pv]) (set_rafPending true s).

(** The centering scroll that follows a published, non-empty [rects]. *)
Definition centeringScroll (pv : Closure) (s : State num)
    (rects : list (Highlight.t num)) : list (Action num) :=
  match rects with
  | [] => []
  | r :: _ =>
    match findView pv (Highlight.page r), containerRef s with
    | Some v, Some container =>
      [ScrollTo (centerScroll (layout s) container (el v))]
    | _, _ => []
    end
  end.

(** The callback [scheduleRecompute] hands to [requestAnimationFrame]. *)
Definition rafCallback (pv : Closure) (s : State num)
  : State num * list (Action num) :=
  let s := set_rafPending false s in
  match latestSelected s with
  | None => (setHighlights [] s, [SetHighlights []])
  | Some chunk =>
    match computeRectsFromChunk pv (containerRef s) (layout s) (Some chunk) with
    | Throw err => (s, [CallComputeRects chunk; Uncaught err])
    | Normal rects =>
      (setHighlights rects s,
       CallComputeRects chunk :: SetHighlights rects
         :: centeringScroll pv s rects)
    end
  end.

(** The callbacks of one frame, in the order they were queued. *)
Fixpoint runCallbacks (queue : list Closure) (s : State num)
  : State num * list (Action num) :=
  match queue with
  | [] => (s, [])
  | pv :: queue =>
    let '(s, acts) := rafCallback pv s in
    let '(s, acts') := runCallbacks queue s in
    (s, acts ++ acts')
  end.

(** The effect on [[selectedChunk, scheduleRecompute]]:
    [latestSelected.current = selectedChunk; scheduleRecompute()]. *)
Definition selectionEffect (s : State num) : State num :=
  scheduleRecompute (pageViews s) (set_latestSelected (selectedChunk s) s).

(** The scroll and resize listeners and the ResizeObserver callback. *)
Definition onPerturbation (s : State num) : State num :=
  match latestSelected s with
  | None => s
  | Some _ => scheduleRecompute (pageViews s) s
  end.

(** The MutationObserver callback: [setTimeout(scheduleRecompute, 50)]. *)
Definition onMutation (s : State num) : State num :=
  match latestSelected s with
  | None => s
  | Some _ => set_timers (timers s ++ [pageViews s]) s
  end.

End Synchronizer.

(* ------------------------------------------------------------------ *)
(** ** Loading a document *)

Section Loader.
Context {num : Type} `{JsNumber num}.

(** [head.status] inside the template string. *)
Definition showStatus (status : Z) : string :=
  NilZero.string_of_int (Z.to_int status).

Definition notFound (fileUrl : string) (status : Z) : string :=
  ("PDF not found at " ++ fileUrl ++ " (status " ++ showStatus status ++ ")")%string.

(** The [catch] block. *)
Definition catch (ver : Version) (err : JsError) (s : State num)
  : State num * list (Action num) :=
  match ver with
  | PdfPaneJsx => (s, [ConsoleError "PdfPane load error" (String_ err)])
  | SidebarJsx =>
    (setLoading false (setError (Some (String_ err)) s),
     [ConsoleError "[PdfPane] error while loading/rendering PDF:" (String_ err)])
  end.

(** After the loop: [setPageViews(views)], [setLoading(false)] in the later
    copy, [onReady]; the render that follows has a new [scheduleRecompute],
    so the effect on the selection runs again. *)
Definition complete (ver : Version) (numPages : Z) (views : list PageView)
    (s : State num) : State num * list (Action num) :=
  let s := setPageViews views s in
  let s := match ver with PdfPaneJsx => s | SidebarJsx => setLoading false s end in
  let acts := if onReady s then [OnReady numPages] else [] in
  ((if mounted s then selectionEffect s else s), acts).

(** The head of [for (let i = ...; i <= doc.numPages; i++)]. *)
Definition loopHead (ver : Version) (i numPages : Z) (container : Element)
    (views : list PageView) (s : State num)
  : Phase * State num * list (Action num) :=
  if (i <=? numPages)%Z
  then (AwaitPage i numPages container views, s, [])
  else let '(s, acts) := complete ver numPages views s in (Returned, s, acts).

Definition failed (ver : Version) (err : JsError) (s : State num)
  : Phase * State num * list (Action num) :=
  let '(s, acts) := catch ver err s in (Returned, s, acts).

(** A suspended load goes on with what its promise settled to. *)
Definition loadPdf_resume (ver : Version) (task : LoadTask) (r : Settled)
    (s : State num) : Phase * State num * list (Action num) :=
  match phase task, r with
  | Returned, _ => (Returned, s, [])
  | _, Rejected err => failed ver err s
  | AwaitHead, HeadResponse ok status =>
    if ok then (AwaitImport, s, [])
    else
      let msg := notFound (url task) status in
      (Returned, setLoading false (setError (Some msg) s),
       [ConsoleError "[PdfPane]" msg])
  | AwaitImport, Fulfilled => (AwaitDocument, s, [])
  | AwaitDocument, Document numPages =>
    if cancelled task then (Returned, s, [])
    else
      match containerRef s with
      | None =>
        failed ver
          (TypeError "Cannot set properties of null (setting 'innerHTML')") s
      | Some container => loopHead ver 1 numPages container [] s
      end
  | AwaitPage i numPages container views, Fulfilled =>
    let canvas := nextElement s in
    (AwaitRender i numPages container canvas views,
     set_nextElement (S canvas) s, [])
  | AwaitRender i numPages container canvas views, Fulfilled =>
    let wrapper := nextElement s in
    let s := set_nextElement (S wrapper) s in
    loopHead ver (i + 1) numPages container
      (views ++ [{| pageNumber := i; el := wrapper |}]) s
  | p, _ => (p, s, [])        (* not what this await can deliver *)
  end.

(** [loads] with the phase of entry [n] replaced. *)
Fixpoint setPhase (n : nat) (p : Phase) (tasks : list LoadTask) : list LoadTask :=
  match tasks, n with
  | [], _ => []
  | t :: tasks, O => {| url := url t; cancelled := cancelled t; phase := p |} :: tasks
  | t :: tasks, S n => t :: setPhase n p tasks
  end.

Definition settle (ver : Version) (n : nat) (r : Settled) (s : State num)
  : State num * list (Action num) :=
  match nth_error (loads s) n with
  | None => (s, [])
  | Some task =>
    let '(p, s, acts) := loadPdf_resume ver task r s in
    (set_loads (setPhase n p (loads s)) s, acts)
  end.

(** The body of the load effect up to its first [await].  For
    [PdfPaneJsx] this takes [pdfjsLib] to be bound (see [Version]): the load
    is suspended at [await loadingTask.promise]. *)
Definition loadPdf_start (ver : Version) (s : State num) : State num :=
  match ver with
  | PdfPaneJsx =>
    set_loads (loads s ++ [{| url := fileUrl s; cancelled := false;
                              phase := AwaitDocument |}]) s
  | SidebarJsx =>
    let s := setLoading true (setError None s) in
    set_loads (loads s ++ [{| url := fileUrl s; cancelled := false;
                              phase := AwaitHead |}]) s
  end.

(** The cleanup of the load effect: [cancelled = true] in the latest run. *)
Fixpoint cancelLast (tasks : list LoadTask) : list LoadTask :=
  match tasks with
  | [] => []
  | [t] => [{| url := url t; cancelled := true; phase := phase t |}]
  | t :: tasks => t :: cancelLast tasks
  end.

End Loader.

(* ------------------------------------------------------------------ *)
(** ** The event loop *)

Section EventLoop.
Context {num : Type} `{JsNumber num}.

(** The state after the first render and its effects: the container is
    element 0, the load has started, and the effect on the selection has
    scheduled a first recomputation. *)
Definition mount (ver : Version) (fileUrl : string)
    (selectedChunk : option (Chunk.t num)) (onReady : bool)
    (layout : Layout num) : State num :=
  let s :=
    {| fileUrl := fileUrl; selectedChunk := selectedChunk; onReady := onReady;
       pageViews := []; highlights := []; error := None; loading := false;
       containerRef := Some 0%nat; rafPending := false;
       latestSelected := selectedChunk; mounted := true; layout := layout;
       rafQueue := []; timers := []; loads := []; nextElement := 1%nat |} in
  selectionEffect (loadPdf_start ver s).

Definition step (ver : Version) (s : State num) (e : Event num)
  : State num * list (Action num) :=
  match e with
  | SelectChunk c =>
    if mounted s then (selectionEffect (set_selectedChunk c s), []) else (s, [])
  | SetFileUrl u =>
    if mounted s
    then (loadPdf_start ver (set_fileUrl u (set_loads (cancelLast (loads s)) s)), [])
    else (s, [])
  | Scroll l | WindowResize l | ContainerResize l =>
    let s := set_layout l s in
    if mounted s then (onPerturbation s, []) else (s, [])
  | Mutation l =>
    let s := set_layout l s in
    if mounted s then (onMutation s, []) else (s, [])
  | Timeout =>
    match timers s with
    | [] => (s, [])
    | pv :: rest => (scheduleRecompute pv (set_timers rest s), [])
    end
  | AnimationFrame => runCallbacks (rafQueue s) (set_rafQueue [] s)
  | Settle n r => settle ver n r s
  | Unmount =>
    if mounted s
    then (set_containerRef None
            (set_mounted false (set_loads (cancelLast (loads s)) s)), [])
    else (s, [])
  end.

(** A run: the final state and everything that was issued, in order. *)
Fixpoint run (ver : Version) (s : State num) (es : list (Event num))
  : State num * list (Action num) :=
  match es with
  | [] => (s, [])
  | e :: es =>
    let '(s, acts) := step ver s e in
    let '(s, acts') := run ver s es in
    (s, acts ++ acts')
  end.

End EventLoop.


(* ------------------------------------------------------------------ *)
(** ** App and Sidebar

    [App] (src/App.jsx) owns the document's URL, the list of chunks and the
    selected chunk; it renders [PdfPane] with the URL and the selection, and
    [Sidebar] (src/components/Sidebar.jsx) with the list.  [Sidebar] owns the
    text of the search box.  [fetchMetadata] and [extractMock] are outside
    the sources: what they deliver arrives as an event. *)

(** A chunk as [App] and [Sidebar] hold it: what [PdfPane] reads of it
    ([data]), its [text], and [oid], which stands for the identity of the
    JavaScript object.  React compares identities when a state is set and
    when the deps of an effect are compared. *)
Module AppChunk.
Record t (num : Type) : Type :=
  mk { oid : nat; text : string; data : Chunk.t num }.
End AppChunk.

(** [text.includes(q)]: [q] occurs in [text]. *)
Fixpoint includes (text q : string) : bool :=
  (String.prefix q text
   || match text with
      | EmptyString => false
      | String _ rest => includes rest q
      end)%bool.

(** The awaits of [App] that can be in flight. *)
Inductive Await : Type :=
| InitialMetadata   (** [await fetchMetadata()] in the effect of the first render *)
| SearchMetadata    (** [await fetchMetadata()] in [handleSearch] *)
| Extraction.       (** [await extractMock(file)] in [handleFileUpload] *)

Section App.
Context {num : Type} `{JsNumber num}.

(** [String.prototype.toLowerCase], left open: it is used through this
    parameter only. *)
Variable toLowerCase : string -> string.

Record App : Type := {
  app_fileUrl : string;
  chunks : list (AppChunk.t num);
  app_selectedChunk : option (AppChunk.t num);
  query : string;                 (* the state of Sidebar *)
  awaits : list Await;            (* oldest first *)
  pane : State num                (* the PdfPane it renders *)
}.

Inductive AppEvent : Type :=
| Upload (file : option string) (blobUrl : string)
    (** "change" on the file input: the first file if any, and what
        [URL.createObjectURL] gives for it *)
| TypeQuery (q : string)          (** "change" on the search box *)
| SubmitSearch                    (** "submit" of the search form *)
| ClickRow (idx : nat)            (** "click" on a row of the sidebar *)
| AwaitSettled (k : nat) (r : option (list (AppChunk.t num)))
    (** await [k] settles: the [chunks] of what was delivered, or a rejection *)
| Browser (e : Event num).        (** an event of the browser for the pane *)

Inductive AppAction : Type :=
| PaneDid (a : Action num)
| ConsoleWarn (label : string)
| UnhandledRejection.

(** [Object.is] on two values of the [selectedChunk] state. *)
Definition sameSelection (a b : option (AppChunk.t num)) : bool :=
  match a, b with
  | None, None => true
  | Some x, Some y => (AppChunk.oid x =? AppChunk.oid y)%nat
  | _, _ => false
  end.

(** The events the browser can have for the pane: its props are [App]'s to
    change, and [App] always renders it. *)
Definition fromBrowser (e : Event num) : bool :=
  match e with
  | SelectChunk _ | SetFileUrl _ | Unmount => false
  | _ => true
  end.

(** A render of [App] after its state went from [(url, sel)] to
    [(url', sel')]: [PdfPane] gets the props that changed. *)
Definition passProps (ver : Version) (url url' : string)
    (sel sel' : option (AppChunk.t num)) (p : State num)
  : State num * list (Action num) :=
  let '(p, acts) :=
    if (url =? url')%string then (p, []) else step ver p (SetFileUrl url') in
  let '(p, acts') :=
    if sameSelection sel sel' then (p, [])
    else step ver p (SelectChunk (option_map (@AppChunk.data num) sel')) in
  (p, acts ++ acts').

(** [App]'s state setters followed by the render. *)
Definition update (ver : Version) (a : App) (url' : string)
    (chunks' : list (AppChunk.t num)) (sel' : option (AppChunk.t num))
    (awaits' : list Await) : App * list AppAction :=
  let '(p, acts) :=
    passProps ver (app_fileUrl a) url' (app_selectedChunk a) sel' (pane a) in
  ({| app_fileUrl := url';
      chunks := chunks';
      (* setting the state to the object it holds changes nothing *)
      app_selectedChunk :=
        if sameSelection (app_selectedChunk a) sel' then app_selectedChunk a
        else sel';
      query := query a;
      awaits := awaits';
      pane := p |},
   map PaneDid acts).

(** [c.text.toLowerCase().includes(q)] *)
Definition matches (q : string) (c : AppChunk.t num) : bool :=
  includes (toLowerCase (AppChunk.text c)) q.

(** [handleSearch(query)] up to its first await. *)
Definition handleSearch (ver : Version) (a : App) (query : string)
  : App * list AppAction :=
  if (query =? "")%string
  then update ver a (app_fileUrl a) (chunks a) (app_selectedChunk a)
         (awaits a ++ [SearchMetadata])
  else
    let q := toLowerCase query in
    update ver a (app_fileUrl a) (filter (matches q) (chunks a))
      (app_selectedChunk a) (awaits a).

(** [handleFileUpload(e)] up to its await. *)
Definition handleFileUpload (ver : Version) (a : App) (file : option string)
    (blobUrl : string) : App * list AppAction :=
  match file with
  | None => (a, [])
  | Some _ =>
    update ver a blobUrl (chunks a) (app_selectedChunk a)
      (awaits a ++ [Extraction])
  end.

(** [awaits] without entry [k]. *)
Fixpoint dropAwait (k : nat) (l : list Await) : list Await :=
  match l, k with
  | [], _ => []
  | _ :: l, O => l
  | x :: l, S k => x :: dropAwait k l
  end.

(** What follows an await of [App] once it has settled. *)
Definition afterAwait (ver : Version) (a : App) (k : nat)
    (r : option (list (AppChunk.t num))) : App * list AppAction :=
  match nth_error (awaits a) k with
  | None => (a, [])
  | Some w =>
    let rest := dropAwait k (awaits a) in
    match w, r with
    | InitialMetadata, Some cs | SearchMetadata, Some cs =>
      update ver a (app_fileUrl a) cs (app_selectedChunk a) rest
    | Extraction, Some cs =>
      update ver a (app_fileUrl a) cs None rest
    | InitialMetadata, None =>
      let '(a, acts) :=
        update ver a (app_fileUrl a) (chunks a) (app_selectedChunk a) rest in
      (a, acts ++ [ConsoleWarn "fetchMetadata failed"])
    | _, None =>
      let '(a, acts) :=
        update ver a (app_fileUrl a) (chunks a) (app_selectedChunk a) rest in
      (a, acts ++ [UnhandledRejection])
    end
  end.

Definition set_query (q : string) (a : App) : App :=
  {| app_fileUrl := app_fileUrl a; chunks := chunks a;
     app_selectedChunk := app_selectedChunk a; query := q;
     awaits := awaits a; pane := pane a |}.

Definition set_pane (p : State num) (a : App) : App :=
  {| app_fileUrl := app_fileUrl a; chunks := chunks a;
     app_selectedChunk := app_selectedChunk a; query := query a;
     awaits := awaits a; pane := p |}.

(** The first render of [App] and its effects: the pane is mounted on the
    default document with no selection and no [onReady], and the metadata
    is asked for. *)
Definition appStart (ver : Version) (layout : Layout num) : App :=
  {| app_fileUrl := "/detailed_extraction_layer_report.pdf";
     chunks := [];
     app_selectedChunk := None;
     query := "";
     awaits := [InitialMetadata];
     pane := mount ver "/detailed_extraction_layer_report.pdf" None false layout |}.

Definition appStep (ver : Version) (a : App) (e : AppEvent)
  : App * list AppAction :=
  match e with
  | Upload file blobUrl => handleFileUpload ver a file blobUrl
  | TypeQuery q => (set_query q a, [])
  | SubmitSearch => handleSearch ver a (query a)
  | ClickRow idx =>
    match nth_error (chunks a) idx with
    | None => (a, [])
    | Some c => update ver a (app_fileUrl a) (chunks a) (Some c) (awaits a)
    end
  | AwaitSettled k r => afterAwait ver a k r
  | Browser e =>
    if fromBrowser e
    then let '(p, acts) := step ver (pane a) e in (set_pane p a, map PaneDid acts)
    else (a, [])
  end.

Fixpoint appRun (ver : Version) (a : App) (es : list AppEvent)
  : App * list AppAction :=
  match es with
  | [] => (a, [])
  | e :: es =>
    let '(a, acts) := appStep ver a e in
    let '(a, acts') := appRun ver a es in
    (a, acts ++ acts')
  end.

(** What [Sidebar] renders for the list: a row per chunk with its position
    from 1, its text and its page. *)
Definition sidebarRows (cs : list (AppChunk.t num))
  : list (nat * string * Z) :=
  map (fun ic => (S (fst ic), AppChunk.text (snd ic),
                  Chunk.page (AppChunk.data (snd ic))))
      (combine (seq 0 (List.length cs)) cs).

End App.

Arguments App num : clear implicits.
Arguments AppEvent num : clear implicits.
Arguments AppAction num : clear implicits.
(* ================================================================== *)
(** * Definitions used by the statements *)

Arguments computeRectsFromChunk : simpl never.
Arguments centerScroll : simpl never.
Arguments findView : simpl never.

(** The spec's scenario: pages 1..3, the container's box at the top-left
    corner of page 2, page 2 of 600 by 800 pixels. *)
Definition scenarioRegistry : list PageView :=
  [ {| pageNumber := 1; el := 1%nat |};
    {| pageNumber := 2; el := 2%nat |};
    {| pageNumber := 3; el := 3%nat |} ].

(** Its geometry as a browser has it, in binary64. *)
Definition scenarioBoxes64 (e : Element) : DOMRect.t float :=
  match e with
  | 1%nat => DOMRect.mk 12 (-712) 600 800
  | 2%nat => DOMRect.mk 12 100 600 800
  | 3%nat => DOMRect.mk 12 912 600 800
  | _ => DOMRect.mk 12 100 624 500
  end%float.

Definition scenarioLayout64 : Layout float :=
  {| getBoundingClientRect := scenarioBoxes64;
     offsetTop := fun e =>
       match e with 1%nat => 12 | 2%nat => 824 | 3%nat => 1636 | _ => 0 end%float;
     clientHeight := fun e => match e with 0%nat => 500 | _ => 800 end%float |}.

(** The same layout in exact arithmetic. *)
Definition scenarioBoxes (e : Element) : DOMRect.t Q :=
  match e with
  | 1%nat => DOMRect.mk 12 (-712) 600 800
  | 2%nat => DOMRect.mk 12 100 600 800
  | 3%nat => DOMRect.mk 12 912 600 800
  | _ => DOMRect.mk 12 100 624 500
  end%Q.

Definition scenarioLayout : Layout Q :=
  {| getBoundingClientRect := scenarioBoxes;
     offsetTop := fun e =>
       match e with 1%nat => 12 | 2%nat => 824 | 3%nat => 1636 | _ => 0 end%Q;
     clientHeight := fun e => match e with 0%nat => 500 | _ => 800 end%Q |}.

Definition scenarioChunk : Chunk.t Q := Chunk.mk "c1" 2 (0.1, 0.2, 0.5, 0.6)%Q.


Section Invariant.
Context {num : Type} `{JsNumber num}.

(** What holds of every state the component can be in. *)
Record wf (s : State num) : Prop := {
  (** [rafPending] says whether a callback is queued, and at most one is *)
  wf_raf : List.length (rafQueue s) = if rafPending s then 1%nat else 0%nat;
  (** a mounted component has its container *)
  wf_container : mounted s = true -> containerRef s <> None;
  (** the holder has the selection of the latest render *)
  wf_selected : latestSelected s = selectedChunk s;
  (** at most one highlight is shown *)
  wf_highlights : (List.length (highlights s) <= 1)%nat
}.

End Invariant.

Section Observations.
Context {num : Type}.

(** The events that ask for a recomputation: a selection change, scroll,
    resize, mutation, and the timer a mutation has set. *)
Definition isTrigger (e : Event num) : bool :=
  match e with
  | SelectChunk _ | Scroll _ | WindowResize _ | ContainerResize _
  | Mutation _ | Timeout => true
  | _ => false
  end.

(** The triggers that leave the selection alone. *)
Definition isPerturbation (e : Event num) : bool :=
  match e with
  | Scroll _ | WindowResize _ | ContainerResize _ | Mutation _ | Timeout => true
  | _ => false
  end.

Definition isSetHighlights (a : Action num) : bool :=
  match a with SetHighlights _ => true | _ => false end.

Definition isCallComputeRects (a : Action num) : bool :=
  match a with CallComputeRects _ => true | _ => false end.

Definition isScrollTo (a : Action num) : bool :=
  match a with ScrollTo _ => true | _ => false end.

(** How many of the issued actions are of one kind. *)
Definition count (p : Action num -> bool) (acts : list (Action num)) : nat :=
  List.length (filter p acts).

End Observations.

(** A concrete session in exact arithmetic.  The later copy of the component
    is mounted on "/doc.pdf"; the document has three pages of 600 by 800,
    whose wrappers get the handles 2, 4 and 6 (the canvases 1, 3 and 5), 12
    pixels apart; the container shows 500 pixels and is scrolled so that
    page 2 starts at its top-left corner. *)
Definition docBoxes (e : Element) : DOMRect.t Q :=
  match e with
  | 2%nat => DOMRect.mk 12 (-712) 600 800
  | 4%nat => DOMRect.mk 12 100 600 800
  | 6%nat => DOMRect.mk 12 912 600 800
  | _ => DOMRect.mk 12 100 624 500
  end%Q.

Definition docLayout : Layout Q :=
  {| getBoundingClientRect := docBoxes;
     offsetTop := fun e =>
       match e with 2%nat => 12 | 4%nat => 824 | 6%nat => 1636 | _ => 0 end%Q;
     clientHeight := fun e => match e with 0%nat => 500 | _ => 800 end%Q |}.

(** The promises of load [n] settle one after the other, for [pages] pages. *)
Definition loadsFine (n : nat) (pages : nat) : list (Event Q) :=
  [Settle n (HeadResponse true 200); Settle n Fulfilled;
   Settle n (Document (Z.of_nat pages))]
  ++ repeat (Settle n Fulfilled) (2 * pages).

(** Mounted with nothing selected, the document loaded and a first frame
    gone by. *)
Definition docReady : State Q :=
  fst (run SidebarJsx (mount SidebarJsx "/doc.pdf" None false docLayout)
         (loadsFine 0 3 ++ [AnimationFrame])).

(** The scenario's chunk is selected and shown, and a scroll event has asked
    for a recomputation that has not run yet. *)
Definition docScrolled : State Q :=
  fst (run SidebarJsx docReady
         [SelectChunk (Some scenarioChunk); AnimationFrame; Scroll docLayout]).

Definition otherChunk : Chunk.t Q := Chunk.mk "c7" 3 (0.25, 0.5, 0.75, 1)%Q.

Section Loading.
Context {num : Type}.

(** The error box of the later copy, [{error && (...{error}...)}]: absent
    for [null] and for the empty string.  PdfPane.jsx renders none. *)
Definition errorIndicator (ver : Version) (s : State num) : option string :=
  match ver, error s with
  | SidebarJsx, Some msg => if (msg =? "")%string then None else Some msg
  | _, _ => None
  end.

(** When what a load is handed is a failure, and the reason it carries: a
    rejection at any await, or, in the later copy (PdfPane.jsx sends no HEAD
    request), a HEAD response that is not ok. *)
Definition failureReason (ver : Version) (task : LoadTask) (r : Settled)
  : option string :=
  match phase task, r with
  | Returned, _ => None
  | _, Rejected err => Some (String_ err)
  | AwaitHead, HeadResponse false status =>
    match ver with
    | SidebarJsx => Some (notFound (url task) status)
    | PdfPaneJsx => None
    end
  | _, _ => None
  end.

(** The load has not got its document yet. *)
Definition beforeDocument (p : Phase) : bool :=
  match p with
  | AwaitHead | AwaitImport | AwaitDocument => true
  | _ => false
  end.

Definition isOnReady (a : Action num) : bool :=
  match a with OnReady _ => true | _ => false end.

(** Two states agree on what the synchroniser reads and writes. *)
Definition sameSync (s1 s : State num) : Prop :=
  pageViews s1 = pageViews s /\ highlights s1 = highlights s /\
  rafQueue s1 = rafQueue s /\ rafPending s1 = rafPending s /\
  timers s1 = timers s /\ latestSelected s1 = latestSelected s /\
  loads s1 = loads s.

End Loading.

(* ------------------------------------------------------------------ *)
(** ** Further definitions: loads that run to their end *)

(** The views a load pushes for [k] pages from page [i] on, when the next
    handle of [document.createElement] is [e]: each page takes a canvas and
    then its wrapper. *)
Fixpoint registryFrom (i : Z) (e : Element) (k : nat) : list PageView :=
  match k with
  | O => []
  | S k => {| pageNumber := i; el := S e |} :: registryFrom (i + 1) (S (S e)) k
  end.

Section LoadRuns.
Context {num : Type}.

(** What the promises of load [n] deliver, in order, when nothing fails and
    the document has [numPages] pages: in the later copy the HEAD response
    and the module first, then the document, then a page and the end of its
    render for every page. *)
Definition documentLoads (ver : Version) (n : nat) (numPages : Z)
  : list (Event num) :=
  match ver with
  | PdfPaneJsx => []
  | SidebarJsx => [Settle n (HeadResponse true 200); Settle n Fulfilled]
  end
  ++ Settle n (Document numPages)
  :: repeat (Settle n Fulfilled) (2 * Z.to_nat numPages).

(** The phase a load starts in. *)
Definition firstPhase (ver : Version) : Phase :=
  match ver with PdfPaneJsx => AwaitDocument | SidebarJsx => AwaitHead end.

(** The registry is what one load built: pages 1, 2, ... in order, each with
    a wrapper of its own that is not the container (handle 0) and was
    created before [bound]. *)
Definition goodViews (views : list PageView) (bound : Element) : Prop :=
  map pageNumber views = map Z.of_nat (seq 1 (List.length views)) /\
  NoDup (map el views) /\
  Forall (fun v => (0 < el v < bound)%nat) views.

(** The views a load has collected so far fit the page it is at. *)
Definition goodTask (bound : Element) (t : LoadTask) : Prop :=
  match phase t with
  | AwaitPage i _ _ views | AwaitRender i _ _ _ views =>
    goodViews views bound /\ i = (Z.of_nat (List.length views) + 1)%Z
  | _ => True
  end.

(** The toolbar's text in the later copy:
    [loading ? "Loading…" : error ? "Error" : "Ready"]. *)
Definition statusText (s : State num) : string :=
  if loading s then "Loading…"
  else match error s with
       | Some msg => if (msg =? "")%string then "Ready" else "Error"
       | None => "Ready"
       end.

(** The latest run of the load effect. *)
Definition currentLoad (s : State num) : option LoadTask := last (map Some (loads s)) None.

End LoadRuns.

Section MoreInvariants.
Context {num : Type}.

(** Two states differ at most in the highlights on screen and in
    [rafPending]. *)
Definition sameButHighlights (s' s : State num) : Prop :=
  fileUrl s' = fileUrl s /\ selectedChunk s' = selectedChunk s /\
  onReady s' = onReady s /\ pageViews s' = pageViews s /\
  error s' = error s /\ loading s' = loading s /\
  containerRef s' = containerRef s /\ latestSelected s' = latestSelected s /\
  mounted s' = mounted s /\ layout s' = layout s /\
  rafQueue s' = rafQueue s /\ timers s' = timers s /\ loads s' = loads s /\
  nextElement s' = nextElement s.

(** Every registry in sight is what one load built: the one in the state,
    those the queued callbacks and the timers closed over, and the views the
    loads in flight have collected. *)
Definition goodRegistries (s : State num) : Prop :=
  (0 < nextElement s)%nat /\
  goodViews (pageViews s) (nextElement s) /\
  Forall (fun pv => goodViews pv (nextElement s)) (rafQueue s ++ timers s) /\
  Forall (goodTask (nextElement s)) (loads s).

(** The events that neither change the selection nor concern a load. *)
Definition isIdle (e : Event num) : bool :=
  match e with
  | Scroll _ | WindowResize _ | ContainerResize _ | Mutation _ | Timeout
  | AnimationFrame => true
  | _ => false
  end.

(** Nothing is selected and nothing is scheduled. *)
Definition quiet (s : State num) : Prop :=
  latestSelected s = None /\ rafPending s = false /\ rafQueue s = [] /\
  timers s = [].

(** While mounted, the latest run of the load effect is not cancelled, and
    it has not returned if [loading] is set. *)
Definition loadingTracksCurrent (s : State num) : Prop :=
  mounted s = true ->
  exists older cur,
    loads s = older ++ [cur] /\ cancelled cur = false /\
    (loading s = true -> phase cur <> Returned).



End MoreInvariants.

Section FastLoad.
Context {num : Type} `{JsNumber num}.



End FastLoad.

(* ------------------------------------------------------------------ *)
(** ** Further definitions: App *)

(** What [toLowerCase] does to text in ASCII, for concrete runs. *)
Fixpoint asciiLower (s : string) : string :=
  match s with
  | EmptyString => EmptyString
  | String c rest =>
    let n := Ascii.nat_of_ascii c in
    String
      (if ((65 <=? n) && (n <=? 90))%nat then Ascii.ascii_of_nat (n + 32) else c)
      (asciiLower rest)
  end.

Section AppRuns.
Context {num : Type}.

(** Typing a query and submitting it, for each query in turn. *)
Definition searches (qs : list string) : list (AppEvent num) :=
  flat_map (fun q => [TypeQuery q; SubmitSearch]) qs.

(** Neither a call of [onReady] nor an exception that leaves a callback. *)
Definition safeAction (a : AppAction num) : Prop :=
  match a with
  | PaneDid (OnReady _) | PaneDid (Uncaught _) => False
  | _ => True
  end.

Definition safePaneAction (a : Action num) : Prop :=
  match a with
  | OnReady _ | Uncaught _ => False
  | _ => True
  end.

End AppRuns.

(** A concrete list of chunks (exact arithmetic). *)
Definition sampleChunks : list (AppChunk.t Q) :=
  [ AppChunk.mk 1 "Executive Summary"%string (Chunk.mk "c1"%string 2%Z (0.1, 0.2, 0.5, 0.6)%Q);
    AppChunk.mk 2 "Extraction layer: summary of fields"%string
      (Chunk.mk "c2"%string 1%Z (0.1, 0.1, 0.9, 0.3)%Q);
    AppChunk.mk 3 "Appendix"%string (Chunk.mk "c3"%string 3%Z (0.25, 0.5, 0.75, 1)%Q) ].

(** [App] after the metadata has arrived and the document has loaded, with
    nothing selected and no frame pending. *)
Definition appListed : App Q :=
  fst (appRun asciiLower SidebarJsx (appStart SidebarJsx docLayout)
         ([AwaitSettled 0 (Some sampleChunks)]
          ++ map (@Browser Q) (loadsFine 0 3) ++ [Browser AnimationFrame])).

(** The first row has been clicked and its highlight is shown. *)
Definition appSelected : App Q :=
  fst (appRun asciiLower SidebarJsx appListed
         [ClickRow 0; Browser AnimationFrame]).

(** What an extraction delivers. *)
Definition extractedChunks : list (AppChunk.t Q) :=
  [ AppChunk.mk 4 "Title page"%string (Chunk.mk "e1"%string 1%Z (0, 0, 1, 0.5)%Q) ].

Section AppInvariant.
Context {num : Type}.

(** The pane as [App] keeps it: mounted, without [onReady], well formed, and
    with the props [App]'s state gives it. *)
Definition paneFollowsApp (a : App num) : Prop :=
  mounted (pane a) = true /\ onReady (pane a) = false /\ wf (pane a) /\
  fileUrl (pane a) = app_fileUrl a /\
  selectedChunk (pane a)
  = option_map (@AppChunk.data num) (app_selectedChunk a).

End AppInvariant.

(** The document's layout after the content has been scrolled by 300 pixels
    more: every page's box is 300 pixels higher. *)
Definition docBoxesScrolled (e : Element) : DOMRect.t Q :=
  match e with
  | 2%nat => DOMRect.mk 12 (-1012) 600 800
  | 4%nat => DOMRect.mk 12 (-200) 600 800
  | 6%nat => DOMRect.mk 12 612 600 800
  | _ => DOMRect.mk 12 100 624 500
  end%Q.

Definition docLayoutScrolled : Layout Q :=
  {| getBoundingClientRect := docBoxesScrolled;
     offsetTop := offsetTop docLayout;
     clientHeight := clientHeight docLayout |}.

(** The scenario's chunk is selected and shown; no frame is pending. *)
Definition docShown : State Q :=
  fst (run SidebarJsx docReady [SelectChunk (Some scenarioChunk); AnimationFrame]).



(* ================================================================== *)
(** * Properties *)

(* ------------------------------------------------------------------ *)
(** ** The coordinate mapper *)

Section MapperFacts.
Context {num : Type} `{JsNumber num}.

Local Open Scope js_scope.

Lemma findView_pageNumber (pv : list PageView) (p : Z) (v : PageView) :
  findView pv p = Some v -> pageNumber v = p /\ In v pv.
Proof.
  unfold findView. intros Hfind.
  apply find_some in Hfind. destruct Hfind as [Hin Heq].
  split; [now apply Z.eqb_eq | exact Hin].
Qed.

Lemma findView_nonempty (pv : list PageView) (p : Z) (v : PageView) :
  findView pv p = Some v -> (List.length pv =? 0)%nat = false.
Proof.
  destruct pv as [|w pv]; [discriminate | reflexivity].
Qed.

(** The rectangle of a chunk whose page is in the registry, over any
    arithmetic. *)
Lemma computeRects_found (pv : list PageView) (container : Element)
    (layout : Layout num) (chunk : Chunk.t num) (view : PageView)
    (x0 y0 x1 y1 : num) :
  findView pv (Chunk.page chunk) = Some view ->
  Chunk.bbox_normalized chunk = (x0, y0, x1, y1) ->
  let pageBox := getBoundingClientRect layout (el view) in
  let viewportBox := getBoundingClientRect layout container in
  computeRectsFromChunk pv (Some container) layout (Some chunk)
  = Normal
      [Highlight.mk (Chunk.chunk_id chunk)
         (DOMRect.left pageBox - DOMRect.left viewportBox
          + x0 * DOMRect.width pageBox)
         (DOMRect.top pageBox - DOMRect.top viewportBox
          + y0 * DOMRect.height pageBox)
         (Math_max two ((x1 - x0) * DOMRect.width pageBox))
         (Math_max two ((y1 - y0) * DOMRect.height pageBox))
         (Chunk.page chunk)].
Proof.
  intros Hfind Hbox. unfold computeRectsFromChunk.
  rewrite (findView_nonempty _ _ Hfind), Hfind, Hbox. reflexivity.
Qed.

(** The mapper publishes nothing or one rectangle, and a rectangle carries
    the chunk's id and page. *)
Lemma computeRects_shape (pv : list PageView) (cref : option Element)
    (layout : Layout num) (chunk : Chunk.t num) (rects : list (Highlight.t num)) :
  computeRectsFromChunk pv cref layout (Some chunk) = Normal rects ->
  rects = [] \/
  exists r view container,
    rects = [r] /\ findView pv (Chunk.page chunk) = Some view /\
    cref = Some container /\
    Highlight.id r = Chunk.chunk_id chunk /\
    Highlight.page r = Chunk.page chunk.
Proof.
  unfold computeRectsFromChunk.
  destruct (List.length pv =? 0)%nat; [intros [= <-]; now left|].
  destruct (findView pv (Chunk.page chunk)) as [view|]; [|intros [= <-]; now left].
  destruct cref as [container|]; [|discriminate].
  destruct (Chunk.bbox_normalized chunk) as [[[x0 y0] x1] y1].
  intros [= <-]. right. eexists _, view, container. repeat split; reflexivity.
Qed.

End MapperFacts.

(** The scenario's numbers are exact in binary64 as well. *)
Lemma scenario_binary64 :
  computeRectsFromChunk scenarioRegistry (Some 0%nat) scenarioLayout64
    (Some (Chunk.mk "c1" 2 (0.1, 0.2, 0.5, 0.6)%float))
  = Normal [Highlight.mk "c1" 60%float 160%float 240%float 320%float 2].
Proof. vm_compute. reflexivity. Qed.

Lemma centerScroll_binary64 :
  centerScroll scenarioLayout64 0%nat 2%nat = 974%float.
Proof. vm_compute. reflexivity. Qed.

Lemma zero_area_binary64 :
  computeRectsFromChunk scenarioRegistry (Some 0%nat) scenarioLayout64
    (Some (Chunk.mk "c2" 2 (0.3, 0.3, 0.3, 0.3)%float))
  = Normal [Highlight.mk "c2" 180%float 240%float 2%float 2%float 2].
Proof. vm_compute. reflexivity. Qed.


(** C1.  For a selected chunk whose page has an entry in the registry (and
    a mounted container to measure against), the mapper returns exactly one
    rectangle, with
    left = pageBox.left - viewportBox.left + x0 * pageBox.width,
    top = pageBox.top - viewportBox.top + y0 * pageBox.height,
    width = max(2, (x1 - x0) * pageBox.width),
    height = max(2, (y1 - y0) * pageBox.height),
    and the chunk's id and page.  With the viewport's origin at the page's
    top-left corner, a page of 600 by 800 and the box (0.1, 0.2, 0.5, 0.6)
    this is left 60, top 160, width 240, height 320; and a box of no width
    (no height) gets width (height) 2. *)
Theorem computeRects_single_rect
    (pv : list PageView) (container : Element) (layout : Layout Q)
    (chunk : Chunk.t Q) (view : PageView) (x0 y0 x1 y1 : Q) :
  findView pv (Chunk.page chunk) = Some view ->
  Chunk.bbox_normalized chunk = (x0, y0, x1, y1) ->
  let pageBox := getBoundingClientRect layout (el view) in
  let viewportBox := getBoundingClientRect layout container in
  exists r,
    computeRectsFromChunk pv (Some container) layout (Some chunk) = Normal [r]
    /\ Highlight.id r = Chunk.chunk_id chunk
    /\ Highlight.page r = Chunk.page chunk
    /\ Highlight.left r
       = (DOMRect.left pageBox - DOMRect.left viewportBox
          + x0 * DOMRect.width pageBox)%Q
    /\ Highlight.top r
       = (DOMRect.top pageBox - DOMRect.top viewportBox
          + y0 * DOMRect.height pageBox)%Q
    /\ Highlight.width r = Qmax 2 ((x1 - x0) * DOMRect.width pageBox)
    /\ Highlight.height r = Qmax 2 ((y1 - y0) * DOMRect.height pageBox)
    /\ (DOMRect.left pageBox == DOMRect.left viewportBox ->
        DOMRect.top pageBox == DOMRect.top viewportBox ->
        DOMRect.width pageBox == 600 -> DOMRect.height pageBox == 800 ->
        x0 == 0.1 -> y0 == 0.2 -> x1 == 0.5 -> y1 == 0.6 ->
        Highlight.left r == 60 /\ Highlight.top r == 160 /\
        Highlight.width r == 240 /\ Highlight.height r == 320)
    /\ (x0 == x1 -> Highlight.width r == 2)
    /\ (y0 == y1 -> Highlight.height r == 2).
Proof.
  intros Hfind Hbox pageBox viewportBox.
  eexists. split.
  { eapply computeRects_found; eassumption. }
  cbn [Highlight.id Highlight.page Highlight.left Highlight.top
       Highlight.width Highlight.height nadd nsub nmul Math_max two Q_JsNumber].
  repeat (split; [reflexivity|]).
  fold pageBox viewportBox.
  split; [|split].
  - intros Hl Ht Hw Hh Hx0 Hy0 Hx1 Hy1.
    rewrite Hl, Ht, Hw, Hh, Hx0, Hy0, Hx1, Hy1.
    split; [ring|]. split; [ring|].
    split; (rewrite Q.max_r; [ring | lra]).
  - intros Hx. apply Q.max_l. rewrite Hx. lra.
  - intros Hy. apply Q.max_l. rewrite Hy. lra.
Qed.

Lemma computeRects_single_rect_scenario :
  exists r,
    computeRectsFromChunk scenarioRegistry (Some 0%nat) scenarioLayout
      (Some scenarioChunk) = Normal [r]
    /\ Highlight.id r = "c1"%string
    /\ Highlight.page r = 2%Z
    /\ Highlight.left r == 60 /\ Highlight.top r == 160
    /\ Highlight.width r == 240 /\ Highlight.height r == 320.
Proof.
  destruct (@computeRects_single_rect scenarioRegistry 0%nat scenarioLayout
              scenarioChunk {| pageNumber := 2; el := 2%nat |}
              0.1 0.2 0.5 0.6 eq_refl eq_refl)
    as (r & Hr & Hid & Hpage & _ & _ & _ & _ & Hscn & _).
  exists r. split; [exact Hr|]. split; [exact Hid|]. split; [exact Hpage|].
  apply Hscn; reflexivity.
Defined.

(** C5.  A selected chunk whose page has no entry in the registry gets the
    empty rectangle set, and nothing is thrown, whatever the container ref
    and the layout are. *)
Theorem computeRects_page_not_in_registry
    (num : Type) (JN : JsNumber num)
    (pv : list PageView) (cref : option Element) (layout : Layout num)
    (chunk : Chunk.t num) :
  findView pv (Chunk.page chunk) = None ->
  computeRectsFromChunk pv cref layout (Some chunk) = Normal [].
Proof.
  intros Hfind. unfold computeRectsFromChunk. rewrite Hfind.
  now destruct (List.length pv =? 0)%nat.
Qed.

(** The spec's scenario: the chunk is on page 5, the registry has pages 1..3. *)
Lemma computeRects_page_not_in_registry_scenario :
  computeRectsFromChunk scenarioRegistry (Some 0%nat) scenarioLayout
    (Some (Chunk.mk "c5" 5 (0.1, 0.2, 0.5, 0.6)%Q)) = Normal [].
Proof.
  apply (@computeRects_page_not_in_registry Q Q_JsNumber scenarioRegistry
           (Some 0%nat) scenarioLayout (Chunk.mk "c5" 5 (0.1, 0.2, 0.5, 0.6)%Q)).
  reflexivity.
Defined.


(* ------------------------------------------------------------------ *)
(** ** Invariants of the event loop *)

Section Invariants.
Context {num : Type} `{JsNumber num}.

Lemma scheduleRecompute_wf (pv : Closure) (s : State num) :
  wf s -> wf (scheduleRecompute pv s).
Proof.
  intros [Hraf Hc Hs Hh]. unfold scheduleRecompute.
  destruct (rafPending s) eqn:Hp; constructor; simpl; rewrite ?Hp; auto.
  destruct (rafQueue s); [reflexivity | discriminate].
Qed.

(** The effect on the selection restores [wf_selected] by itself. *)
Lemma selectionEffect_wf (s : State num) :
  List.length (rafQueue s) = (if rafPending s then 1%nat else 0%nat) ->
  (mounted s = true -> containerRef s <> None) ->
  (List.length (highlights s) <= 1)%nat ->
  wf (selectionEffect s).
Proof.
  intros Hraf Hc Hh. unfold selectionEffect.
  apply scheduleRecompute_wf. constructor; simpl; auto.
Qed.

Lemma onPerturbation_wf (s : State num) : wf s -> wf (onPerturbation s).
Proof.
  intros Hwf. unfold onPerturbation.
  destruct (latestSelected s); [now apply scheduleRecompute_wf | exact Hwf].
Qed.

Lemma onMutation_wf (s : State num) : wf s -> wf (onMutation s).
Proof.
  intros [Hraf Hc Hs Hh]. unfold onMutation.
  destruct (latestSelected s) eqn:Hl; constructor; simpl; rewrite ?Hl; auto.
Qed.

Lemma set_layout_wf (l : Layout num) (s : State num) : wf s -> wf (set_layout l s).
Proof. intros [Hraf Hc Hs Hh]. constructor; simpl; auto. Qed.

Lemma set_loads_wf (ts : list LoadTask) (s : State num) : wf s -> wf (set_loads ts s).
Proof. intros [Hraf Hc Hs Hh]. constructor; simpl; auto. Qed.

Lemma set_nextElement_wf (e : Element) (s : State num) :
  wf s -> wf (set_nextElement e s).
Proof. intros [Hraf Hc Hs Hh]. constructor; simpl; auto. Qed.

Lemma setError_wf (v : option string) (s : State num) : wf s -> wf (setError v s).
Proof.
  intros [Hraf Hc Hs Hh]. unfold setError.
  destruct (mounted s) eqn:Hm; constructor; simpl; rewrite ?Hm; auto.
Qed.

Lemma setLoading_wf (v : bool) (s : State num) : wf s -> wf (setLoading v s).
Proof.
  intros [Hraf Hc Hs Hh]. unfold setLoading.
  destruct (mounted s) eqn:Hm; constructor; simpl; rewrite ?Hm; auto.
Qed.

Lemma setPageViews_wf (v : list PageView) (s : State num) :
  wf s -> wf (setPageViews v s).
Proof.
  intros [Hraf Hc Hs Hh]. unfold setPageViews.
  destruct (mounted s) eqn:Hm; constructor; simpl; rewrite ?Hm; auto.
Qed.

Lemma computeRects_length (pv : list PageView) (cref : option Element)
    (l : Layout num) (chunk : option (Chunk.t num))
    (rects : list (Highlight.t num)) :
  computeRectsFromChunk pv cref l chunk = Normal rects ->
  (List.length rects <= 1)%nat.
Proof.
  destruct chunk as [chunk|]; [|intros [= <-]; simpl; lia].
  intros Hc. destruct (computeRects_shape _ _ _ _ Hc) as [-> | (r & _ & _ & -> & _)];
    simpl; lia.
Qed.

(** One recomputation: the flag is lowered, the queue is not touched. *)
Lemma rafCallback_wf (pv : Closure) (s : State num) :
  rafQueue s = [] ->
  (mounted s = true -> containerRef s <> None) ->
  latestSelected s = selectedChunk s ->
  (List.length (highlights s) <= 1)%nat ->
  wf (fst (rafCallback pv s)).
Proof.
  intros Hq Hc Hs Hh. unfold rafCallback, setHighlights. simpl.
  destruct (latestSelected s) as [chunk|] eqn:Hl.
  - destruct (computeRectsFromChunk pv (containerRef s) (layout s) (Some chunk))
      as [rects|err] eqn:Hrects; simpl.
    + pose proof (computeRects_length _ _ _ _ Hrects) as Hlen.
      destruct (mounted s) eqn:Hm; constructor; simpl;
        rewrite ?Hq, ?Hm, ?Hl; auto.
    + constructor; simpl; rewrite ?Hq, ?Hl; auto.
  - destruct (mounted s) eqn:Hm; constructor; simpl;
      rewrite ?Hq, ?Hm, ?Hl; auto.
Qed.

Lemma runCallbacks_wf (s : State num) :
  wf s -> wf (fst (runCallbacks (rafQueue s) (set_rafQueue [] s))).
Proof.
  intros [Hraf Hc Hs Hh].
  destruct (rafQueue s) as [|pv [|pv' q]] eqn:Hq.
  - simpl. destruct (rafPending s) eqn:Hp; [discriminate|].
    constructor; simpl; rewrite ?Hp; auto.
  - cbn [runCallbacks].
    destruct (rafCallback pv (set_rafQueue [] s)) as [s1 acts] eqn:Hcb.
    simpl. change s1 with (fst (s1, acts)). rewrite <- Hcb.
    apply rafCallback_wf; simpl; auto.
  - simpl in Hraf. destruct (rafPending s); discriminate.
Qed.

Lemma catch_wf (ver : Version) (err : JsError) (s : State num) :
  wf s -> wf (fst (catch ver err s)).
Proof.
  intros Hwf. destruct ver; simpl; [exact Hwf|].
  now apply setLoading_wf, setError_wf.
Qed.

Lemma complete_wf (ver : Version) (numPages : Z) (views : list PageView)
    (s : State num) :
  wf s -> wf (fst (complete ver numPages views s)).
Proof.
  intros Hwf. unfold complete. cbn [fst].
  set (s1 := match ver with
             | PdfPaneJsx => setPageViews views s
             | SidebarJsx => setLoading false (setPageViews views s)
             end).
  assert (Hwf1 : wf s1).
  { subst s1. destruct ver; [|apply setLoading_wf]; now apply setPageViews_wf. }
  destruct (mounted s1); [|exact Hwf1].
  destruct Hwf1 as [Hraf Hc Hs Hh]. now apply selectionEffect_wf.
Qed.

Lemma loopHead_wf (ver : Version) (i numPages : Z) (container : Element)
    (views : list PageView) (s : State num) :
  wf s -> wf (snd (fst (loopHead ver i numPages container views s))).
Proof.
  intros Hwf. unfold loopHead. destruct (i <=? numPages)%Z; [exact Hwf|].
  pose proof (complete_wf ver numPages views Hwf) as Hc.
  destruct (complete ver numPages views s) as [s1 acts]. exact Hc.
Qed.

Lemma failed_wf (ver : Version) (err : JsError) (s : State num) :
  wf s -> wf (snd (fst (failed ver err s))).
Proof.
  intros Hwf. unfold failed.
  pose proof (catch_wf ver err Hwf) as Hc.
  destruct (catch ver err s) as [s1 acts]. exact Hc.
Qed.

Lemma resume_wf (ver : Version) (task : LoadTask) (r : Settled) (s : State num) :
  wf s -> wf (snd (fst (loadPdf_resume ver task r s))).
Proof.
  intros Hwf. unfold loadPdf_resume.
  destruct (phase task) as [ | | |i n c vs|i n c cv vs| ], r as [ok status|np| |err];
    try exact Hwf; try (now apply failed_wf); cbn [fst snd].
  - destruct ok; [exact Hwf|]. now apply setLoading_wf, setError_wf.
  - destruct (cancelled task); [exact Hwf|].
    destruct (containerRef s); [now apply loopHead_wf | now apply failed_wf].
  - now apply set_nextElement_wf.
  - now apply loopHead_wf, set_nextElement_wf.
Qed.

Lemma settle_wf (ver : Version) (n : nat) (r : Settled) (s : State num) :
  wf s -> wf (fst (settle ver n r s)).
Proof.
  intros Hwf. unfold settle.
  destruct (nth_error (loads s) n) as [task|]; [|exact Hwf].
  pose proof (resume_wf ver task r Hwf) as Hr.
  destruct (loadPdf_resume ver task r s) as [[p s1] acts]. cbn [fst snd] in *.
  now apply set_loads_wf.
Qed.

Lemma startLoad_wf (ver : Version) (s : State num) : wf s -> wf (loadPdf_start ver s).
Proof.
  intros Hwf. destruct ver; simpl; apply set_loads_wf; [exact Hwf|].
  now apply setLoading_wf, setError_wf.
Qed.

Lemma mount_wf (ver : Version) (url : string) (sel : option (Chunk.t num))
    (onR : bool) (l : Layout num) :
  wf (mount ver url sel onR l).
Proof.
  unfold mount.
  match goal with |- wf (selectionEffect (loadPdf_start ver ?s0)) =>
    assert (Hwf : wf (loadPdf_start ver s0))
  end.
  { apply startLoad_wf. constructor; simpl; auto. discriminate. }
  destruct Hwf as [Hraf Hc Hs Hh]. now apply selectionEffect_wf.
Qed.

Lemma step_wf (ver : Version) (s : State num) (e : Event num) :
  wf s -> wf (fst (step ver s e)).
Proof.
  intros Hwf. destruct e as [c|u|l|l|l|l| | |n r| ]; cbn [step].
  - destruct (mounted s) eqn:Hm; [|exact Hwf]. cbn [fst].
    destruct Hwf as [Hraf Hc Hs Hh]. now apply selectionEffect_wf.
  - destruct (mounted s) eqn:Hm; [|exact Hwf]. cbn [fst].
    apply startLoad_wf.
    destruct Hwf as [Hraf Hc Hs Hh]. constructor; simpl; auto.
  - destruct (mounted (set_layout l s));
      [apply onPerturbation_wf|]; now apply set_layout_wf.
  - destruct (mounted (set_layout l s));
      [apply onPerturbation_wf|]; now apply set_layout_wf.
  - destruct (mounted (set_layout l s));
      [apply onPerturbation_wf|]; now apply set_layout_wf.
  - destruct (mounted (set_layout l s));
      [apply onMutation_wf|]; now apply set_layout_wf.
  - destruct (timers s) as [|pv rest] eqn:Ht; [exact Hwf|]. cbn [fst].
    apply scheduleRecompute_wf.
    destruct Hwf as [Hraf Hc Hs Hh]. constructor; simpl; auto.
  - now apply runCallbacks_wf.
  - now apply settle_wf.
  - destruct (mounted s) eqn:Hm; [|exact Hwf]. cbn [fst].
    destruct Hwf as [Hraf Hc Hs Hh]. constructor; simpl; auto. discriminate.
Qed.

Lemma run_wf (ver : Version) (es : list (Event num)) (s : State num) :
  wf s -> wf (fst (run ver s es)).
Proof.
  revert s. induction es as [|e es IH]; intros s Hwf; [exact Hwf|].
  cbn [run].
  pose proof (step_wf ver e Hwf) as Hstep.
  destruct (step ver s e) as [s1 acts].
  specialize (IH s1 Hstep).
  destruct (run ver s1 es) as [s2 acts']. exact IH.
Qed.

End Invariants.

(* ------------------------------------------------------------------ *)
(** ** The highlight synchroniser *)

Section SynchronizerFacts.
Context {num : Type} `{JsNumber num}.

(** With a container to measure against the mapper does not throw. *)
Lemma computeRects_no_throw (pv : list PageView) (container : Element)
    (l : Layout num) (chunk : option (Chunk.t num)) :
  exists rects, computeRectsFromChunk pv (Some container) l chunk = Normal rects.
Proof.
  unfold computeRectsFromChunk.
  destruct chunk as [chunk|]; [|now eexists].
  destruct (List.length pv =? 0)%nat; [now eexists|].
  destruct (findView pv (Chunk.page chunk)); [|now eexists].
  destruct (Chunk.bbox_normalized chunk) as [[[x0 y0] x1] y1]. now eexists.
Qed.

(** A frame with one queued callback runs that callback. *)
Lemma frame_single (ver : Version) (s : State num) (pv : Closure) :
  rafQueue s = [pv] ->
  step ver s AnimationFrame = rafCallback pv (set_rafQueue [] s).
Proof.
  intros Hq. cbn [step]. rewrite Hq. cbn [runCallbacks].
  destruct (rafCallback pv (set_rafQueue [] s)) as [s1 acts].
  now rewrite app_nil_r.
Qed.

Lemma frame_idle (ver : Version) (s : State num) :
  rafQueue s = [] -> step ver s AnimationFrame = (set_rafQueue [] s, []).
Proof. intros Hq. cbn [step]. now rewrite Hq. Qed.

Lemma rafCallback_none (pv : Closure) (s : State num) :
  latestSelected s = None ->
  rafCallback pv s
  = (setHighlights [] (set_rafPending false s), [SetHighlights []]).
Proof.
  intros Hl. unfold rafCallback.
  change (latestSelected (set_rafPending false s)) with (latestSelected s).
  now rewrite Hl.
Qed.

Lemma rafCallback_some (pv : Closure) (s : State num) (chunk : Chunk.t num)
    (rects : list (Highlight.t num)) :
  latestSelected s = Some chunk ->
  computeRectsFromChunk pv (containerRef s) (layout s) (Some chunk) = Normal rects ->
  rafCallback pv s
  = (setHighlights rects (set_rafPending false s),
     CallComputeRects chunk :: SetHighlights rects
       :: centeringScroll pv (set_rafPending false s) rects).
Proof.
  intros Hl Hc. unfold rafCallback.
  change (latestSelected (set_rafPending false s)) with (latestSelected s).
  change (containerRef (set_rafPending false s)) with (containerRef s).
  change (layout (set_rafPending false s)) with (layout s).
  now rewrite Hl, Hc.
Qed.

Lemma rafCallback_throw (pv : Closure) (s : State num) (chunk : Chunk.t num)
    (err : JsError) :
  latestSelected s = Some chunk ->
  computeRectsFromChunk pv (containerRef s) (layout s) (Some chunk) = Throw err ->
  rafCallback pv s
  = (set_rafPending false s, [CallComputeRects chunk; Uncaught err]).
Proof.
  intros Hl Hc. unfold rafCallback.
  change (latestSelected (set_rafPending false s)) with (latestSelected s).
  change (containerRef (set_rafPending false s)) with (containerRef s).
  change (layout (set_rafPending false s)) with (layout s).
  now rewrite Hl, Hc.
Qed.

(** The centering scroll is no [setHighlights] and no mapper call. *)
Lemma centeringScroll_count (pv : Closure) (s : State num)
    (rects : list (Highlight.t num)) :
  count isSetHighlights (centeringScroll pv s rects) = 0%nat /\
  count isCallComputeRects (centeringScroll pv s rects) = 0%nat.
Proof.
  unfold centeringScroll. destruct rects as [|r rects]; [now split|].
  destruct (findView pv (Highlight.page r)); [|now split].
  destruct (containerRef s); now split.
Qed.

Lemma centeringScroll_publishes_nothing (pv : Closure) (s : State num)
    (rects rs : list (Highlight.t num)) :
  ~ In (SetHighlights rs) (centeringScroll pv s rects).
Proof.
  unfold centeringScroll. destruct rects as [|r rects]; [now intros []|].
  destruct (findView pv (Highlight.page r)); [|now intros []].
  destruct (containerRef s); [|now intros []].
  intros [Habs|[]]. discriminate.
Qed.

(** While a recomputation is pending, a trigger issues nothing and leaves
    the queue alone. *)
Lemma trigger_while_pending (ver : Version) (s : State num) (e : Event num) :
  isTrigger e = true -> mounted s = true -> rafPending s = true ->
  snd (step ver s e) = [] /\
  rafQueue (fst (step ver s e)) = rafQueue s /\
  rafPending (fst (step ver s e)) = true /\
  mounted (fst (step ver s e)) = true /\
  containerRef (fst (step ver s e)) = containerRef s.
Proof.
  intros He Hm Hp.
  destruct e as [c|u|l|l|l|l| | |n r| ]; try discriminate He; cbn [step].
  - rewrite Hm. unfold selectionEffect, scheduleRecompute. simpl.
    rewrite Hp. simpl. auto.
  - change (mounted (set_layout l s)) with (mounted s). rewrite Hm.
    unfold onPerturbation, scheduleRecompute. simpl.
    destruct (latestSelected s); rewrite ?Hp; simpl; auto.
  - change (mounted (set_layout l s)) with (mounted s). rewrite Hm.
    unfold onPerturbation, scheduleRecompute. simpl.
    destruct (latestSelected s); rewrite ?Hp; simpl; auto.
  - change (mounted (set_layout l s)) with (mounted s). rewrite Hm.
    unfold onPerturbation, scheduleRecompute. simpl.
    destruct (latestSelected s); rewrite ?Hp; simpl; auto.
  - change (mounted (set_layout l s)) with (mounted s). rewrite Hm.
    unfold onMutation. simpl.
    destruct (latestSelected s); simpl; auto.
  - destruct (timers s) as [|pv rest]; [simpl; auto|].
    unfold scheduleRecompute. simpl. rewrite Hp. simpl. auto.
Qed.

Lemma triggers_while_pending (ver : Version) (es : list (Event num))
    (s : State num) :
  forallb isTrigger es = true -> mounted s = true -> rafPending s = true ->
  snd (run ver s es) = [] /\
  rafQueue (fst (run ver s es)) = rafQueue s /\
  rafPending (fst (run ver s es)) = true /\
  mounted (fst (run ver s es)) = true /\
  containerRef (fst (run ver s es)) = containerRef s.
Proof.
  revert s. induction es as [|e es IH]; intros s Hes Hm Hp; [simpl; auto|].
  cbn [forallb] in Hes. apply andb_prop in Hes. destruct Hes as [He Hes].
  destruct (trigger_while_pending ver s e He Hm Hp) as (Ha & Hq & Hp1 & Hm1 & Hc1).
  cbn [run]. destruct (step ver s e) as [s1 acts]. cbn [fst snd] in *.
  destruct (IH s1 Hes Hm1 Hp1) as (Ha' & Hq' & Hp' & Hm' & Hc').
  destruct (run ver s1 es) as [s2 acts']. cbn [fst snd] in *.
  subst acts acts'. rewrite Hq', Hc'. auto.
Qed.

(** A perturbation leaves the holder of the selection alone. *)
Lemma perturbation_keeps_selection (ver : Version) (s : State num) (e : Event num) :
  isPerturbation e = true ->
  latestSelected (fst (step ver s e)) = latestSelected s.
Proof.
  intros He.
  destruct e as [c|u|l|l|l|l| | |n r| ]; try discriminate He; cbn [step].
  - destruct (mounted (set_layout l s)); [|reflexivity].
    unfold onPerturbation, scheduleRecompute. simpl.
    destruct (latestSelected s) eqn:Hl; [|now rewrite ?Hl].
    now destruct (rafPending s).
  - destruct (mounted (set_layout l s)); [|reflexivity].
    unfold onPerturbation, scheduleRecompute. simpl.
    destruct (latestSelected s) eqn:Hl; [|now rewrite ?Hl].
    now destruct (rafPending s).
  - destruct (mounted (set_layout l s)); [|reflexivity].
    unfold onPerturbation, scheduleRecompute. simpl.
    destruct (latestSelected s) eqn:Hl; [|now rewrite ?Hl].
    now destruct (rafPending s).
  - destruct (mounted (set_layout l s)); [|reflexivity].
    unfold onMutation. simpl.
    now destruct (latestSelected s) eqn:Hl.
  - destruct (timers s) as [|pv rest]; [reflexivity|].
    unfold scheduleRecompute. simpl. now destruct (rafPending s).
Qed.

Lemma perturbations_keep_selection (ver : Version) (es : list (Event num))
    (s : State num) :
  forallb isPerturbation es = true ->
  latestSelected (fst (run ver s es)) = latestSelected s.
Proof.
  revert s. induction es as [|e es IH]; intros s Hes; [reflexivity|].
  cbn [forallb] in Hes. apply andb_prop in Hes. destruct Hes as [He Hes].
  pose proof (perturbation_keeps_selection ver s e He) as H1.
  cbn [run]. destruct (step ver s e) as [s1 acts]. cbn [fst] in H1.
  specialize (IH s1 Hes).
  destruct (run ver s1 es) as [s2 acts']. cbn [fst] in *. congruence.
Qed.

Lemma perturbation_is_trigger (e : Event num) :
  isPerturbation e = true -> isTrigger e = true.
Proof. now destruct e. Qed.

Lemma run_app (ver : Version) (es1 es2 : list (Event num)) (s : State num) :
  run ver s (es1 ++ es2)
  = (fst (run ver (fst (run ver s es1)) es2),
     snd (run ver s es1) ++ snd (run ver (fst (run ver s es1)) es2)).
Proof.
  revert s. induction es1 as [|e es1 IH]; intros s.
  - simpl. now destruct (run ver s es2).
  - cbn [app run]. destruct (step ver s e) as [s1 acts].
    rewrite IH. destruct (run ver s1 es1) as [s2 acts2]. cbn [fst snd].
    now rewrite app_assoc.
Qed.

End SynchronizerFacts.

Section SynchronizerClaims.
Context {num : Type} `{JsNumber num}.

(** After a selection change exactly one callback is queued: the one that
    was pending, or else a new one over the current registry. *)
Lemma select_queues_one (ver : Version) (s : State num)
    (c : option (Chunk.t num)) :
  wf s -> mounted s = true ->
  let s1 := fst (step ver s (SelectChunk c)) in
  snd (step ver s (SelectChunk c)) = [] /\
  (exists pv, rafQueue s1 = [pv] /\
              (if rafPending s then rafQueue s = [pv] else pv = pageViews s)) /\
  rafPending s1 = true /\ mounted s1 = true /\
  latestSelected s1 = c /\ selectedChunk s1 = c /\
  containerRef s1 = containerRef s /\ layout s1 = layout s /\
  pageViews s1 = pageViews s.
Proof.
  intros [Hraf Hc Hs Hh] Hm. cbn [step]. rewrite Hm. cbn [fst snd].
  unfold selectionEffect, scheduleRecompute. simpl.
  destruct (rafPending s) eqn:Hp; simpl.
  - destruct (rafQueue s) as [|pv [|pv' q]] eqn:Hq; try discriminate Hraf.
    repeat split; auto. now exists pv.
  - destruct (rafQueue s) as [|pv q] eqn:Hq; try discriminate Hraf.
    repeat split; auto. now exists (pageViews s).
Qed.

Lemma select_sets_holder (ver : Version) (s : State num)
    (c : option (Chunk.t num)) :
  mounted s = true -> latestSelected (fst (step ver s (SelectChunk c))) = c.
Proof.
  intros Hm. cbn [step]. rewrite Hm. cbn [fst].
  unfold selectionEffect, scheduleRecompute. simpl. now destruct (rafPending s).
Qed.

(** C7.  Selecting no chunk clears the published rectangle set at the next
    recomputation, and that cycle issues nothing but the empty
    [setHighlights]: no mapper call and no centering scroll. *)
Theorem select_none_clears (ver : Version) (s : State num) :
  wf s -> mounted s = true ->
  let s1 := fst (step ver s (SelectChunk None)) in
  snd (step ver s (SelectChunk None)) = [] /\
  snd (step ver s1 AnimationFrame) = [SetHighlights []] /\
  count isScrollTo (snd (step ver s1 AnimationFrame)) = 0%nat /\
  highlights (fst (step ver s1 AnimationFrame)) = [].
Proof.
  intros Hwf Hm s1.
  destruct (select_queues_one ver None Hwf Hm)
    as (Ha & (pv & Hq & _) & Hp & Hm1 & Hl & _).
  fold s1 in Hq, Hp, Hm1, Hl.
  rewrite (frame_single ver s1 Hq), rafCallback_none by exact Hl.
  cbn [fst snd]. unfold setHighlights. simpl. rewrite Hm1. auto.
Qed.

(** C4.  When the selection changes twice before the pending recomputation
    runs (other perturbations may come in between and after), nothing is
    published in between, and the frame publishes once: what the mapper gives
    for the second selection.  The first selection has no part in it. *)
Theorem latest_selection_published (ver : Version) (s : State num)
    (c1 c2 : Chunk.t num) (mid post : list (Event num)) :
  wf s -> mounted s = true ->
  forallb isPerturbation mid = true -> forallb isPerturbation post = true ->
  let es := SelectChunk (Some c1) :: mid ++ SelectChunk (Some c2) :: post in
  let s1 := fst (run ver s es) in
  let acts := snd (run ver s es) ++ snd (step ver s1 AnimationFrame) in
  exists pv rects,
    rafQueue s1 = [pv] /\
    (if rafPending s then rafQueue s = [pv] else pv = pageViews s) /\
    computeRectsFromChunk pv (containerRef s1) (layout s1) (Some c2) = Normal rects /\
    snd (run ver s es) = [] /\
    count isSetHighlights acts = 1%nat /\
    (forall rs, In (SetHighlights rs) acts -> rs = rects) /\
    highlights (fst (step ver s1 AnimationFrame)) = rects.
Proof.
  intros Hwf Hm Hmid Hpost es s1 acts.
  destruct (select_queues_one ver (Some c1) Hwf Hm)
    as (Ha0 & (pv & Hq0 & Hpv) & Hp0 & Hm0 & _ & _ & Hc0 & _).
  set (s0 := fst (step ver s (SelectChunk (Some c1)))) in *.
  assert (Hrest : forallb isTrigger (mid ++ SelectChunk (Some c2) :: post) = true).
  { rewrite forallb_app. cbn [forallb isTrigger]. apply andb_true_intro. split.
    - apply forallb_forall. intros e He. apply perturbation_is_trigger.
      now apply (proj1 (forallb_forall _ _) Hmid).
    - apply forallb_forall. intros e He. apply perturbation_is_trigger.
      now apply (proj1 (forallb_forall _ _) Hpost). }
  destruct (triggers_while_pending ver _ s0 Hrest Hm0 Hp0)
    as (Ha1 & Hq1 & Hp1 & Hm1 & Hc1).
  assert (Hrun : run ver s es
                 = (fst (run ver s0 (mid ++ SelectChunk (Some c2) :: post)),
                    snd (run ver s0 (mid ++ SelectChunk (Some c2) :: post)))).
  { subst es s0. cbn [run]. destruct (step ver s (SelectChunk (Some c1))) as [s' a'].
    cbn [fst snd] in *. subst a'.
    now destruct (run ver s' (mid ++ SelectChunk (Some c2) :: post)). }
  assert (Hs1 : s1 = fst (run ver s0 (mid ++ SelectChunk (Some c2) :: post))).
  { subst s1. now rewrite Hrun. }
  assert (Hacts0 : snd (run ver s es) = []).
  { now rewrite Hrun. }
  assert (Hl1 : latestSelected s1 = Some c2).
  { rewrite Hs1, run_app. cbn [fst].
    destruct (triggers_while_pending ver mid s0) as (_ & _ & _ & Hmm & _); auto.
    { apply forallb_forall. intros e He. apply perturbation_is_trigger.
      now apply (proj1 (forallb_forall _ _) Hmid). }
    set (sm := fst (run ver s0 mid)) in *.
    cbn [run].
    pose proof (select_sets_holder ver sm (Some c2) Hmm) as Hsel.
    destruct (step ver sm (SelectChunk (Some c2))) as [sa aa].
    pose proof (perturbations_keep_selection ver post sa Hpost) as Hkeep.
    destruct (run ver sa post) as [sb ab]. cbn [fst] in *. congruence. }
  rewrite <- Hs1 in Hq1, Hp1, Hm1, Hc1.
  assert (Hcont : exists container, containerRef s1 = Some container).
  { destruct (containerRef s) as [container|] eqn:Hcs.
    - exists container. congruence.
    - exfalso. now apply (wf_container Hwf Hm). }
  destruct Hcont as [container Hcont].
  destruct (computeRects_no_throw pv container (layout s1) (Some c2))
    as [rects Hrects].
  exists pv, rects. rewrite Hcont.
  assert (Hq : rafQueue s1 = [pv]) by congruence.
  assert (Hframe : step ver s1 AnimationFrame
                   = (setHighlights rects (set_rafPending false (set_rafQueue [] s1)),
                      CallComputeRects c2 :: SetHighlights rects
                        :: centeringScroll pv
                             (set_rafPending false (set_rafQueue [] s1)) rects)).
  { rewrite (frame_single ver s1 Hq). apply rafCallback_some; [exact Hl1|].
    simpl. now rewrite Hcont. }
  subst acts. rewrite Hacts0, Hframe. cbn [fst snd app].
  repeat split; auto.
  - unfold count. cbn [filter isSetHighlights List.length].
    f_equal. apply centeringScroll_count.
  - intros rs [Habs|[Heq|Hin]].
    + discriminate.
    + now injection Heq.
    + exfalso. eapply centeringScroll_publishes_nothing, Hin.
  - unfold setHighlights. simpl. now rewrite Hm1.
Qed.

(** C2, as the code has it.  In a mounted component, while a recomputation
    is pending, any number of triggers (selection changes, scroll, resize,
    mutation, the timer of a mutation) issue nothing and leave the one queued
    callback in place; the next frame runs it, publishes once, and enters the
    mapper once if a chunk is selected then and not at all if none is. *)
Theorem coalesced_recompute (ver : Version) (s : State num)
    (es : list (Event num)) :
  wf s -> mounted s = true -> rafPending s = true ->
  forallb isTrigger es = true ->
  let s1 := fst (run ver s es) in
  let frame := snd (step ver s1 AnimationFrame) in
  snd (run ver s es) = [] /\
  rafQueue s1 = rafQueue s /\
  List.length (rafQueue s1) = 1%nat /\
  count isSetHighlights frame = 1%nat /\
  count isCallComputeRects frame
  = (match latestSelected s1 with Some _ => 1 | None => 0 end)%nat /\
  rafQueue (fst (step ver s1 AnimationFrame)) = [] /\
  rafPending (fst (step ver s1 AnimationFrame)) = false.
Proof.
  intros Hwf Hm Hp Hes s1 frame.
  destruct (triggers_while_pending ver es s Hes Hm Hp)
    as (Ha & Hq & Hp1 & Hm1 & Hc1).
  fold s1 in Hq, Hp1, Hm1, Hc1.
  pose proof (wf_raf Hwf) as Hlen. rewrite Hp in Hlen.
  destruct (rafQueue s) as [|pv [|pv' q]] eqn:Hqs; try discriminate Hlen.
  split; [exact Ha|]. split; [exact Hq|]. split; [now rewrite Hq|].
  subst frame. rewrite (frame_single ver s1 Hq).
  destruct (latestSelected s1) as [chunk|] eqn:Hl.
  - destruct (containerRef s) as [container|] eqn:Hcs;
      [|exfalso; now apply (wf_container Hwf Hm)].
    destruct (computeRects_no_throw pv container (layout s1) (Some chunk))
      as [rects Hrects].
    rewrite (@rafCallback_some _ _ pv (set_rafQueue [] s1) chunk rects);
      [|exact Hl|simpl; now rewrite Hc1].
    cbn [fst snd]. unfold count, setHighlights.
    cbn [filter isSetHighlights isCallComputeRects List.length].
    destruct (centeringScroll_count pv (set_rafPending false (set_rafQueue [] s1)) rects)
      as [Hn1 Hn2].
    unfold count in Hn1, Hn2. rewrite Hn1, Hn2. simpl. rewrite Hm1. auto.
  - rewrite rafCallback_none by exact Hl.
    cbn [fst snd]. unfold count, setHighlights. simpl. rewrite Hm1. auto.
Qed.







(** The centering scroll of a frame that publishes a rectangle, over any
    arithmetic. *)
Lemma frame_scrolls (ver : Version) (s : State num) (pv : Closure)
    (rects : list (Highlight.t num)) :
  rafQueue s = [pv] ->
  In (SetHighlights rects) (snd (step ver s AnimationFrame)) ->
  rects <> [] ->
  exists r container view,
    rects = [r] /\ containerRef s = Some container /\
    findView pv (Highlight.page r) = Some view /\
    snd (step ver s AnimationFrame)
    = match latestSelected s with
      | Some chunk =>
        [CallComputeRects chunk; SetHighlights rects;
         ScrollTo (centerScroll (layout s) container (el view))]
      | None => []
      end.
Proof.
  intros Hq Hin Hne. rewrite (frame_single ver s Hq) in *.
  destruct (latestSelected s) as [chunk|] eqn:Hl.
  - destruct (computeRectsFromChunk pv (containerRef s) (layout s) (Some chunk))
      as [rs|err] eqn:Hrs.
    + rewrite (@rafCallback_some _ _ pv (set_rafQueue [] s) chunk rs) in *;
        try exact Hl; try exact Hrs.
      cbn [snd] in *. destruct Hin as [Habs|[Heq|Hin]].
      * discriminate.
      * injection Heq as <-.
        destruct (computeRects_shape _ _ _ _ Hrs)
          as [-> | (r & view & container & -> & Hfind & Hcont & Hid & Hpg)];
          [congruence|].
        exists r, container, view. repeat split; auto; [congruence|].
        unfold centeringScroll. simpl. now rewrite Hpg, Hfind, Hcont.
      * exfalso. eapply centeringScroll_publishes_nothing, Hin.
    + rewrite (@rafCallback_throw _ _ pv (set_rafQueue [] s) chunk err) in Hin;
        try exact Hl; try exact Hrs.
      cbn [snd] in Hin. destruct Hin as [Habs|[Habs|[]]]; discriminate.
  - rewrite rafCallback_none in Hin by exact Hl.
    cbn [snd] in Hin. destruct Hin as [Heq|[]]. injection Heq as <-. congruence.
Qed.

End SynchronizerClaims.

(* ------------------------------------------------------------------ *)
(** ** The synchroniser in exact arithmetic, and concrete sessions *)

Lemma docReady_registry :
  pageViews docReady
  = [ {| pageNumber := 1; el := 2%nat |}; {| pageNumber := 2; el := 4%nat |};
      {| pageNumber := 3; el := 6%nat |} ]
  /\ rafPending docReady = false /\ highlights docReady = [].
Proof. vm_compute. auto. Qed.

Lemma docReady_wf : wf docReady.
Proof.
  constructor.
  - vm_compute. reflexivity.
  - intros _. vm_compute. discriminate.
  - vm_compute. reflexivity.
  - vm_compute. lia.
Defined.

Lemma docScrolled_wf : wf docScrolled.
Proof.
  constructor.
  - vm_compute. reflexivity.
  - intros _. vm_compute. discriminate.
  - vm_compute. reflexivity.
  - vm_compute. lia.
Defined.

(** C10.  A frame that publishes a rectangle issues one centering scroll, to
    max(0, pageTop - container.clientHeight / 2 + pageEl.clientHeight / 2) for
    the rectangle's page.  That position is never negative, and whenever the
    clamp is inactive the page's vertical midpoint is at the viewport's: the
    scroll position plus half the container's height is the page's offset
    plus half its height. *)
Theorem centering_scroll_target (ver : Version) (s : State Q) (pv : Closure)
    (rects : list (Highlight.t Q)) :
  rafQueue s = [pv] ->
  In (SetHighlights rects) (snd (step ver s AnimationFrame)) ->
  rects <> [] ->
  exists r container view,
    rects = [r] /\ containerRef s = Some container /\
    findView pv (Highlight.page r) = Some view /\
    let pageTop := offsetTop (layout s) (el view) in
    let half_viewport := clientHeight (layout s) container / 2 in
    let half_page := clientHeight (layout s) (el view) / 2 in
    let target := Qmax 0 (pageTop - half_viewport + half_page) in
    In (ScrollTo target) (snd (step ver s AnimationFrame)) /\
    count isScrollTo (snd (step ver s AnimationFrame)) = 1%nat /\
    0 <= target /\
    (0 <= pageTop - half_viewport + half_page ->
     target + half_viewport == pageTop + half_page).
Proof.
  intros Hq Hin Hne.
  destruct (frame_scrolls ver s Hq Hin Hne)
    as (r & container & view & Hr & Hc & Hv & Hacts).
  exists r, container, view. split; [exact Hr|]. split; [exact Hc|].
  split; [exact Hv|]. intros pageTop half_viewport half_page target.
  rewrite Hacts in *.
  destruct (latestSelected s) as [chunk|]; [|destruct Hin].
  split; [right; right; left; reflexivity|]. split; [reflexivity|].
  split; [apply Q.le_max_l|].
  intros Hpos. subst target. rewrite Q.max_r by exact Hpos. ring.
Qed.

Lemma centering_scroll_target_scenario :
  let s := fst (step SidebarJsx docReady (SelectChunk (Some scenarioChunk))) in
  exists r container view,
    [Highlight.mk "c1" (12 - 12 + 0.1 * 600) (100 - 100 + 0.2 * 800)
       (Qmax 2 ((0.5 - 0.1) * 600)) (Qmax 2 ((0.6 - 0.2) * 800)) 2] = [r] /\
    containerRef s = Some container /\
    findView (pageViews docReady) (Highlight.page r) = Some view /\
    let pageTop := offsetTop (layout s) (el view) in
    let half_viewport := clientHeight (layout s) container / 2 in
    let half_page := clientHeight (layout s) (el view) / 2 in
    let target := Qmax 0 (pageTop - half_viewport + half_page) in
    In (ScrollTo target) (snd (step SidebarJsx s AnimationFrame)) /\
    count isScrollTo (snd (step SidebarJsx s AnimationFrame)) = 1%nat /\
    0 <= target /\
    (0 <= pageTop - half_viewport + half_page ->
     target + half_viewport == pageTop + half_page).
Proof.
  apply (@centering_scroll_target SidebarJsx
           (fst (step SidebarJsx docReady (SelectChunk (Some scenarioChunk))))
           (pageViews docReady)).
  - vm_compute. reflexivity.
  - vm_compute. right. left. reflexivity.
  - discriminate.
Defined.

(** C2 as stated fails when the last selection change is to no chunk: a
    recomputation is pending, two triggers arrive, and the frame publishes
    the empty set without entering the mapper. *)
Lemma coalesced_recompute_skips_mapper :
  let es := [SelectChunk None; Scroll docLayout] in
  let s1 := fst (run SidebarJsx docScrolled es) in
  rafPending docScrolled = true /\
  forallb isTrigger es = true /\
  snd (run SidebarJsx docScrolled es) = [] /\
  snd (step SidebarJsx s1 AnimationFrame) = [SetHighlights []] /\
  count isCallComputeRects (snd (step SidebarJsx s1 AnimationFrame)) <> 1%nat.
Proof. vm_compute. repeat split; try reflexivity. discriminate. Qed.

Lemma coalesced_recompute_scenario :
  let es := [Scroll docLayout; WindowResize docLayout; Mutation docLayout;
             SelectChunk (Some otherChunk); Timeout; ContainerResize docLayout] in
  let s1 := fst (run SidebarJsx docScrolled es) in
  let frame := snd (step SidebarJsx s1 AnimationFrame) in
  snd (run SidebarJsx docScrolled es) = [] /\
  rafQueue s1 = rafQueue docScrolled /\
  List.length (rafQueue s1) = 1%nat /\
  count isSetHighlights frame = 1%nat /\
  count isCallComputeRects frame
  = (match latestSelected s1 with Some _ => 1 | None => 0 end)%nat /\
  rafQueue (fst (step SidebarJsx s1 AnimationFrame)) = [] /\
  rafPending (fst (step SidebarJsx s1 AnimationFrame)) = false.
Proof.
  apply (@coalesced_recompute Q Q_JsNumber SidebarJsx docScrolled).
  - exact docScrolled_wf.
  - vm_compute. reflexivity.
  - vm_compute. reflexivity.
  - vm_compute. reflexivity.
Defined.

Lemma select_none_clears_scenario :
  let s1 := fst (step SidebarJsx docScrolled (SelectChunk None)) in
  snd (step SidebarJsx docScrolled (SelectChunk None)) = [] /\
  snd (step SidebarJsx s1 AnimationFrame) = [SetHighlights []] /\
  count isScrollTo (snd (step SidebarJsx s1 AnimationFrame)) = 0%nat /\
  highlights (fst (step SidebarJsx s1 AnimationFrame)) = [].
Proof.
  apply (@select_none_clears Q Q_JsNumber SidebarJsx docScrolled).
  - exact docScrolled_wf.
  - vm_compute. reflexivity.
Defined.

Lemma latest_selection_published_scenario :
  let es := SelectChunk (Some otherChunk)
            :: [Scroll docLayout] ++ SelectChunk (Some scenarioChunk) :: [Timeout] in
  let s1 := fst (run SidebarJsx docReady es) in
  let acts := snd (run SidebarJsx docReady es)
              ++ snd (step SidebarJsx s1 AnimationFrame) in
  exists pv rects,
    rafQueue s1 = [pv] /\
    (if rafPending docReady then rafQueue docReady = [pv]
     else pv = pageViews docReady) /\
    computeRectsFromChunk pv (containerRef s1) (layout s1) (Some scenarioChunk)
    = Normal rects /\
    snd (run SidebarJsx docReady es) = [] /\
    count isSetHighlights acts = 1%nat /\
    (forall rs, In (SetHighlights rs) acts -> rs = rects) /\
    highlights (fst (step SidebarJsx s1 AnimationFrame)) = rects.
Proof.
  apply (@latest_selection_published Q Q_JsNumber SidebarJsx docReady
           otherChunk scenarioChunk [Scroll docLayout] [Timeout]).
  - exact docReady_wf.
  - vm_compute. reflexivity.
  - vm_compute. reflexivity.
  - vm_compute. reflexivity.
Defined.


(* ------------------------------------------------------------------ *)
(** ** Loading *)

Section LoaderFacts.
Context {num : Type} `{JsNumber num}.

Lemma setPhase_length (n : nat) (p : Phase) (tasks : list LoadTask) :
  List.length (setPhase n p tasks) = List.length tasks.
Proof.
  revert n. induction tasks as [|t tasks IH]; intros [|n]; simpl; auto.
Qed.

Lemma setPhase_same (n : nat) (p : Phase) (tasks : list LoadTask) (t : LoadTask) :
  nth_error tasks n = Some t ->
  nth_error (setPhase n p tasks) n
  = Some {| url := url t; cancelled := cancelled t; phase := p |}.
Proof.
  revert n. induction tasks as [|t' tasks IH]; intros [|n] Hn; simpl in *.
  - discriminate.
  - discriminate.
  - now injection Hn as ->.
  - now apply IH.
Qed.

Lemma setPhase_other (n m : nat) (p : Phase) (tasks : list LoadTask) :
  m <> n -> nth_error (setPhase n p tasks) m = nth_error tasks m.
Proof.
  revert n m. induction tasks as [|t' tasks IH]; intros [|n] [|m] Hne; simpl;
    try reflexivity.
  - congruence.
  - apply IH. congruence.
Qed.

(** The mapper throws when a page is found and the container ref is null. *)
Lemma computeRects_without_container (pv : list PageView) (l : Layout num)
    (chunk : Chunk.t num) (view : PageView) :
  findView pv (Chunk.page chunk) = Some view ->
  computeRectsFromChunk pv None l (Some chunk)
  = Throw (TypeError
             "Cannot read properties of null (reading 'getBoundingClientRect')").
Proof.
  intros Hfind. unfold computeRectsFromChunk.
  now rewrite (findView_nonempty _ _ Hfind), Hfind.
Qed.

Lemma sameSync_refl (s : State num) : sameSync s s.
Proof. unfold sameSync. auto 10. Qed.

Lemma sameSync_error (v : option string) (b : bool) (s : State num) :
  sameSync (setLoading b (setError v s)) s.
Proof.
  unfold sameSync, setLoading, setError.
  destruct (mounted s) eqn:Hm; simpl; rewrite ?Hm; simpl; auto 10.
Qed.

Lemma resume_superseded (ver : Version) (task : LoadTask) (r : Settled)
    (s : State num) :
  cancelled task = true -> beforeDocument (phase task) = true ->
  exists p s1 acts,
    loadPdf_resume ver task r s = (p, s1, acts) /\
    (beforeDocument p = true \/ p = Returned) /\
    sameSync s1 s /\
    count isOnReady acts = 0%nat /\ count isSetHighlights acts = 0%nat.
Proof.
  intros Hc Hb. unfold loadPdf_resume, failed, catch. rewrite Hc.
  destruct (phase task) as [ | | |i np c vs|i np c cv vs| ];
    try discriminate Hb;
    destruct r as [ok status|np'| |err]; try destruct ok; try destruct ver;
    eexists _, _, _; (split; [reflexivity|]);
    (split; [cbn; auto|]);
    (split; [first [apply sameSync_refl | apply sameSync_error]|]);
    split; reflexivity.
Qed.

(** A load that was superseded before it got its document: whatever its
    promise settles to, the registry, the highlights, the queues and the
    refs stay as they are, [onReady] is not called, and the load stays
    superseded and short of its document. *)
Lemma superseded_settle (ver : Version) (s : State num) (n : nat)
    (task : LoadTask) (r : Settled) :
  nth_error (loads s) n = Some task ->
  cancelled task = true -> beforeDocument (phase task) = true ->
  let s' := fst (settle ver n r s) in
  pageViews s' = pageViews s /\ highlights s' = highlights s /\
  rafQueue s' = rafQueue s /\ rafPending s' = rafPending s /\
  timers s' = timers s /\ latestSelected s' = latestSelected s /\
  count isOnReady (snd (settle ver n r s)) = 0%nat /\
  count isSetHighlights (snd (settle ver n r s)) = 0%nat /\
  (exists task', nth_error (loads s') n = Some task' /\
                 cancelled task' = true /\
                 (beforeDocument (phase task') = true \/ phase task' = Returned)).
Proof.
  intros Hn Hc Hb. unfold settle. rewrite Hn.
  destruct (resume_superseded ver task r s Hc Hb)
    as (p & s1 & acts & -> & Hp & (Hpv & Hh & Hq & Hrp & Ht & Hl & Hlo) & Hr & Hp').
  cbn [fst snd pageViews highlights rafQueue rafPending timers latestSelected
       loads set_loads].
  repeat (split; [assumption|]).
  rewrite Hlo, (setPhase_same _ _ _ Hn). eexists. split; [reflexivity|].
  cbn [cancelled phase]. auto.
Qed.

End LoaderFacts.

Section LoaderClaims.
Context {num : Type} `{JsNumber num}.

(** C8, as the code has it.  When a load of a mounted component fails (a
    HEAD response that is not ok, a rejection at any await): the later copy
    sets [error] to the reason, which the error box shows unless it is the
    empty string, and [loading] to false; PdfPane.jsx only logs the reason
    and renders no indicator.  In both the load has returned, no load is
    added (nothing is retried), the other loads are as they were, and the
    registry, the highlights and the queue are untouched: with an empty
    registry the mapper gives the empty set for every chunk. *)
Theorem load_failure (ver : Version) (s : State num) (n : nat)
    (task : LoadTask) (r : Settled) (reason : string) :
  mounted s = true ->
  nth_error (loads s) n = Some task ->
  failureReason ver task r = Some reason ->
  let s' := fst (settle ver n r s) in
  match ver with
  | SidebarJsx =>
    error s' = Some reason /\ loading s' = false /\
    (reason <> ""%string -> errorIndicator SidebarJsx s' = Some reason)
  | PdfPaneJsx =>
    error s' = error s /\ loading s' = loading s /\
    errorIndicator PdfPaneJsx s' = None /\
    snd (settle ver n r s) = [ConsoleError "PdfPane load error" reason]
  end /\
  List.length (loads s') = List.length (loads s) /\
  option_map phase (nth_error (loads s') n) = Some Returned /\
  (forall m, m <> n -> nth_error (loads s') m = nth_error (loads s) m) /\
  pageViews s' = pageViews s /\ highlights s' = highlights s /\
  rafQueue s' = rafQueue s /\
  (pageViews s = [] ->
   forall cref (l : Layout num) chunk,
     computeRectsFromChunk (pageViews s') cref l chunk = Normal []).
Proof.
  intros Hm Hn Hfail s'.
  assert (Hs' : exists s1 acts,
             loadPdf_resume ver task r s = (Returned, s1, acts) /\
             loads s1 = loads s /\ pageViews s1 = pageViews s /\
             highlights s1 = highlights s /\ rafQueue s1 = rafQueue s /\
             match ver with
             | SidebarJsx => error s1 = Some reason /\ loading s1 = false
             | PdfPaneJsx => s1 = s /\
                             acts = [ConsoleError "PdfPane load error" reason]
             end).
  { unfold failureReason in Hfail. unfold loadPdf_resume, failed, catch.
    destruct (phase task) as [ | | |i np c vs|i np c cv vs| ];
      destruct r as [ok status|np'| |err]; try destruct ok;
      destruct ver; try discriminate Hfail; injection Hfail as <-;
      eexists _, _; (split; [reflexivity|]);
      unfold setLoading, setError; rewrite ?Hm; simpl; rewrite ?Hm; simpl;
      auto 10. }
  destruct Hs' as (s1 & acts & Heq & Hl & Hpv & Hh & Hq & Hver).
  subst s'. unfold settle. rewrite Hn, Heq. cbn [fst snd].
  cbn [error loading loads pageViews highlights rafQueue set_loads].
  rewrite Hl, setPhase_length, (setPhase_same _ _ _ Hn), Hpv, Hh, Hq.
  split.
  { destruct ver.
    - destruct Hver as [-> ->]. unfold errorIndicator. auto.
    - destruct Hver as [He Hlo]. repeat split; auto.
      intros Hne. unfold errorIndicator. cbn [error set_loads]. rewrite He.
      destruct (String.eqb_spec reason ""); [contradiction | reflexivity]. }
  repeat split; auto.
  - intros m Hmn. now apply setPhase_other.
  - intros Hempty cref l chunk. rewrite Hempty.
    unfold computeRectsFromChunk. now destruct chunk.
Qed.

End LoaderClaims.

Lemma load_failure_scenario :
  let s := fst (run SidebarJsx docReady [SetFileUrl "/missing.pdf"]) in
  let s' := fst (settle SidebarJsx 1 (HeadResponse false 404) s) in
  (error s' = Some "PDF not found at /missing.pdf (status 404)"%string /\
   loading s' = false /\
   ("PDF not found at /missing.pdf (status 404)"%string <> ""%string ->
    errorIndicator SidebarJsx s'
    = Some "PDF not found at /missing.pdf (status 404)"%string)) /\
  List.length (loads s') = List.length (loads s) /\
  option_map phase (nth_error (loads s') 1) = Some Returned /\
  (forall m, m <> 1%nat -> nth_error (loads s') m = nth_error (loads s) m) /\
  pageViews s' = pageViews s /\ highlights s' = highlights s /\
  rafQueue s' = rafQueue s /\
  (pageViews s = [] ->
   forall cref (l : Layout Q) chunk,
     computeRectsFromChunk (pageViews s') cref l chunk = Normal []).
Proof.
  apply (@load_failure Q Q_JsNumber SidebarJsx
           (fst (run SidebarJsx docReady [SetFileUrl "/missing.pdf"])) 1%nat
           {| url := "/missing.pdf"; cancelled := false; phase := AwaitHead |}
           (HeadResponse false 404)
           "PDF not found at /missing.pdf (status 404)").
  - vm_compute. reflexivity.
  - vm_compute. reflexivity.
  - vm_compute. reflexivity.
Defined.

(** C8 as stated fails twice.  In the later copy a failed load leaves the
    registry of the document loaded before, and the synchroniser goes on
    publishing rectangles over it; in PdfPane.jsx a failed load shows no
    indicator at all. *)
Lemma load_failure_keeps_old_registry :
  (let '(s, acts) :=
     run SidebarJsx docReady
       [SetFileUrl "/missing.pdf"; Settle 1 (HeadResponse false 404);
        SelectChunk (Some scenarioChunk); AnimationFrame] in
   error s = Some "PDF not found at /missing.pdf (status 404)"%string /\
   pageViews s = pageViews docReady /\ pageViews s <> [] /\
   List.length (highlights s) = 1%nat /\
   count isSetHighlights acts = 1%nat /\ count isScrollTo acts = 1%nat)
  /\
  (let '(s, acts) :=
     run PdfPaneJsx (mount PdfPaneJsx "/missing.pdf" None false docLayout)
       [Settle 0 (Rejected (OtherError "Error: Missing PDF"))] in
   error s = None /\ errorIndicator PdfPaneJsx s = None /\
   acts = [ConsoleError "PdfPane load error" "Error: Missing PDF"]).
Proof. vm_compute. repeat split; auto; discriminate. Qed.

(** C6 fails after an unmount: the callback that was queued is not
    cancelled, the container ref is null by then, and the mapper's
    [containerRef.current.getBoundingClientRect()] throws out of the
    callback; nothing is published. *)
Lemma recompute_after_unmount_throws :
  let '(s, acts) :=
    run SidebarJsx docReady
      [SelectChunk (Some scenarioChunk); Unmount; AnimationFrame] in
  containerRef s = None /\
  acts = [CallComputeRects scenarioChunk;
          Uncaught (TypeError
            "Cannot read properties of null (reading 'getBoundingClientRect')")] /\
  count isSetHighlights acts = 0%nat.
Proof. vm_compute. auto. Qed.

(** C3 fails in the later copy when the superseded load's result is a
    failure: the load of "/a.pdf" is superseded by that of "/b.pdf" while
    its HEAD request is out, the response is a 404, and the error box shows
    it although "/b.pdf" is still loading; it stays when "/b.pdf" has
    loaded. *)
Lemma superseded_load_failure_is_shown :
  let s0 := mount SidebarJsx "/a.pdf" None false docLayout in
  let s1 := fst (run SidebarJsx s0 [SetFileUrl "/b.pdf"]) in
  let s2 := fst (run SidebarJsx s1 [Settle 0 (HeadResponse false 404)]) in
  let s3 := fst (run SidebarJsx s2 (loadsFine 1 3)) in
  option_map cancelled (nth_error (loads s1) 0) = Some true /\
  option_map phase (nth_error (loads s1) 0) = Some AwaitHead /\
  errorIndicator SidebarJsx s1 = None /\ loading s1 = true /\
  errorIndicator SidebarJsx s2
  = Some "PDF not found at /a.pdf (status 404)"%string /\
  loading s2 = false /\
  option_map phase (nth_error (loads s2) 1) = Some AwaitHead /\
  List.length (pageViews s3) = 3%nat /\
  errorIndicator SidebarJsx s3
  = Some "PDF not found at /a.pdf (status 404)"%string.
Proof. vm_compute. repeat split; auto. Qed.

(** The [cancelled] flag is read once, after the document has arrived: a
    load superseded while its pages render goes on, replaces the registry
    and calls [onReady], in both copies. *)
Lemma superseded_while_rendering_rebuilds :
  forall ver,
  let s0 := mount ver "/a.pdf" None true docLayout in
  let pre := match ver with
             | PdfPaneJsx => [Settle 0 (Document 1)]
             | SidebarJsx => [Settle 0 (HeadResponse true 200); Settle 0 Fulfilled;
                              Settle 0 (Document 1)]
             end in
  let '(s, acts) :=
    run ver s0 (pre ++ [SetFileUrl "/b.pdf"; Settle 0 Fulfilled; Settle 0 Fulfilled]) in
  option_map cancelled (nth_error (loads s) 0) = Some true /\
  fileUrl s = "/b.pdf"%string /\
  pageViews s = [ {| pageNumber := 1; el := 2%nat |} ] /\
  acts = [OnReady 1].
Proof. intros [|]; vm_compute; auto. Qed.

(* ------------------------------------------------------------------ *)
(** ** Loads that run to their end *)

Section LoadRunFacts.
Context {num : Type} `{JsNumber num}.

Lemma run_cons_silent (ver : Version) (s s1 : State num) (e : Event num)
    (es : list (Event num)) :
  step ver s e = (s1, []) -> run ver s (e :: es) = run ver s1 es.
Proof.
  intros Hstep. cbn [run]. rewrite Hstep. now destruct (run ver s1 es).
Qed.

(** What the end of a load leaves, field by field. *)
Lemma complete_fields (ver : Version) (np : Z) (views : list PageView)
    (x : State num) :
  mounted x = true ->
  let s' := fst (complete ver np views x) in
  pageViews s' = views /\
  snd (complete ver np views x) = (if onReady x then [OnReady np] else []) /\
  latestSelected s' = selectedChunk x /\ selectedChunk s' = selectedChunk x /\
  rafPending s' = true /\
  rafQueue s' = (if rafPending x then rafQueue x else rafQueue x ++ [views]) /\
  highlights s' = highlights x /\ containerRef s' = containerRef x /\
  layout s' = layout x /\ mounted s' = true /\ timers s' = timers x /\
  loads s' = loads x /\ nextElement s' = nextElement x /\
  error s' = error x /\
  loading s' = match ver with PdfPaneJsx => loading x | SidebarJsx => false end.
Proof.
  intros Hm. unfold complete, setPageViews, setLoading, selectionEffect,
    scheduleRecompute.
  rewrite Hm. destruct (rafPending x) eqn:Hp, ver;
    repeat (simpl; rewrite ?Hm, ?Hp);
    repeat split; reflexivity.
Qed.

Lemma step_settle_silent (ver : Version) (s : State num) (n : nat)
    (t : LoadTask) (r : Settled) (p : Phase) :
  nth_error (loads s) n = Some t ->
  loadPdf_resume ver t r s = (p, s, []) ->
  step ver s (Settle n r) = (set_loads (setPhase n p (loads s)) s, []).
Proof.
  intros Hn Hr. cbn [step]. unfold settle. now rewrite Hn, Hr.
Qed.

Lemma step_page (ver : Version) (x : State num) (L : list LoadTask)
    (e : Element) (n : nat) (t : LoadTask) (i np : Z) (c : Element)
    (views : list PageView) :
  nth_error L n = Some t -> phase t = AwaitPage i np c views ->
  step ver (set_loads L (set_nextElement e x)) (Settle n Fulfilled)
  = (set_loads (setPhase n (AwaitRender i np c e views) L)
       (set_nextElement (S e) x), []).
Proof.
  intros Hn Hp. cbn [step]. unfold settle. cbn [loads set_loads].
  rewrite Hn. unfold loadPdf_resume. rewrite Hp. reflexivity.
Qed.

Lemma step_render_more (ver : Version) (x : State num) (L : list LoadTask)
    (e : Element) (n : nat) (t : LoadTask) (i np : Z) (c cv : Element)
    (views : list PageView) :
  nth_error L n = Some t -> phase t = AwaitRender i np c cv views ->
  (i + 1 <=? np)%Z = true ->
  step ver (set_loads L (set_nextElement e x)) (Settle n Fulfilled)
  = (set_loads
       (setPhase n (AwaitPage (i + 1) np c
                      (views ++ [{| pageNumber := i; el := e |}])) L)
       (set_nextElement (S e) x), []).
Proof.
  intros Hn Hp Hle. cbn [step]. unfold settle. cbn [loads set_loads].
  rewrite Hn. unfold loadPdf_resume. rewrite Hp. unfold loopHead.
  cbn [nextElement set_loads set_nextElement]. rewrite Hle. reflexivity.
Qed.

Lemma step_render_last (ver : Version) (x : State num) (L : list LoadTask)
    (e : Element) (n : nat) (t : LoadTask) (i np : Z) (c cv : Element)
    (views : list PageView) :
  nth_error L n = Some t -> phase t = AwaitRender i np c cv views ->
  (i + 1 <=? np)%Z = false ->
  step ver (set_loads L (set_nextElement e x)) (Settle n Fulfilled)
  = (let cs := complete ver np (views ++ [{| pageNumber := i; el := e |}])
                 (set_loads L (set_nextElement (S e) x)) in
     (set_loads (setPhase n Returned (loads (fst cs))) (fst cs), snd cs)).
Proof.
  intros Hn Hp Hle. cbn [step]. unfold settle. cbn [loads set_loads].
  rewrite Hn. unfold loadPdf_resume. rewrite Hp. unfold loopHead.
  cbn [nextElement set_loads set_nextElement]. rewrite Hle.
  match goal with |- context [complete ?a ?b ?c ?d] =>
    change d with (set_loads L (set_nextElement (S e) x));
    destruct (complete a b c (set_loads L (set_nextElement (S e) x))) as [s1 acts]
  end.
  reflexivity.
Qed.

(** The loop over the pages, from page [i] to the last one. *)
Lemma pages_loop (ver : Version) (n : nat) (x : State num) (np : Z)
    (c : Element) (k : nat) :
  forall (L : list LoadTask) (e : Element) (t : LoadTask) (i : Z)
         (views : list PageView),
  nth_error L n = Some t -> phase t = AwaitPage i np c views ->
  (np - i + 1 = Z.of_nat (S k))%Z ->
  exists L',
    run ver (set_loads L (set_nextElement e x))
      (repeat (Settle n Fulfilled) (2 * S k))
    = (let cs := complete ver np (views ++ registryFrom i e (S k))
                   (set_loads L' (set_nextElement (e + 2 * S k)%nat x)) in
       (set_loads (setPhase n Returned (loads (fst cs))) (fst cs), snd cs))
    /\ (exists t', nth_error L' n = Some t' /\ cancelled t' = cancelled t)
    /\ (forall m, m <> n -> nth_error L' m = nth_error L m).
Proof.
  induction k as [|k IH]; intros L e t i views Hn Hp Hk.
  - exists (setPhase n (AwaitRender i np c e views) L).
    split; [|split; [rewrite (setPhase_same _ _ _ Hn); now eexists
                    |intros m Hm; now apply setPhase_other]].
    change (2 * 1)%nat with 2%nat. cbn [repeat].
    pose proof (@step_page ver x L e n t i np c views Hn Hp) as Hs1.
    rewrite (@run_cons_silent ver _ _ _ _ Hs1).
    cbn [run].
    assert (Hle : (i + 1 <=? np)%Z = false) by (apply Z.leb_gt; lia).
    rewrite (@step_render_last ver x (setPhase n (AwaitRender i np c e views) L)
               (S e) n
               {| url := url t; cancelled := cancelled t;
                  phase := AwaitRender i np c e views |}
               i np c e views (setPhase_same _ _ _ Hn) eq_refl Hle).
    cbn [registryFrom]. replace (e + 2)%nat with (S (S e)) by lia.
    cbn zeta. now rewrite app_nil_r.
  - replace (2 * S (S k))%nat with (S (S (2 * S k))) by lia. cbn [repeat].
    pose proof (@step_page ver x L e n t i np c views Hn Hp) as Hs1.
    rewrite (@run_cons_silent ver _ _ _ _ Hs1).
    assert (Hle : (i + 1 <=? np)%Z = true) by (apply Z.leb_le; lia).
    pose proof (@step_render_more ver x
                  (setPhase n (AwaitRender i np c e views) L) (S e) n
                  {| url := url t; cancelled := cancelled t;
                     phase := AwaitRender i np c e views |}
                  i np c e views (setPhase_same _ _ _ Hn) eq_refl Hle) as Hs2.
    rewrite (@run_cons_silent ver _ _ _ _ Hs2).
    edestruct (IH (setPhase n (AwaitPage (i + 1) np c
                                 (views ++ [{| pageNumber := i; el := S e |}]))
                     (setPhase n (AwaitRender i np c e views) L))
                 (S (S e))
                 {| url := url t; cancelled := cancelled t;
                    phase := AwaitPage (i + 1) np c
                               (views ++ [{| pageNumber := i; el := S e |}]) |}
                 (i + 1)%Z
                 (views ++ [{| pageNumber := i; el := S e |}]))
      as (L' & HL' & (t' & Ht' & Hc') & Hother).
    + apply setPhase_same with (t := {| url := url t; cancelled := cancelled t;
                                        phase := AwaitRender i np c e views |}).
      apply setPhase_same. exact Hn.
    + reflexivity.
    + lia.
    + exists L'. split; [|split].
      * rewrite HL'.
        replace (S (S e) + 2 * S k)%nat with (e + S (S (2 * S k)))%nat by lia.
        cbn [registryFrom]. rewrite <- app_assoc. reflexivity.
      * exists t'. split; [exact Ht'|]. exact Hc'.
      * intros m Hm. rewrite (Hother m Hm).
        rewrite setPhase_other by exact Hm. now apply setPhase_other.
Qed.

(** From the arrival of the document to the end of the load. *)
Lemma document_arrives (ver : Version) (s x : State num) (L : list LoadTask)
    (n : nat) (t : LoadTask) (c : Element) (z : Z) :
  s = set_loads L x ->
  nth_error L n = Some t -> phase t = AwaitDocument -> cancelled t = false ->
  containerRef x = Some c ->
  exists L',
    run ver s (Settle n (Document z)
               :: repeat (Settle n Fulfilled) (2 * Z.to_nat z))
    = (let cs := complete ver z (registryFrom 1 (nextElement x) (Z.to_nat z))
                   (set_loads L'
                      (set_nextElement (nextElement x + 2 * Z.to_nat z)%nat x)) in
       (set_loads (setPhase n Returned (loads (fst cs))) (fst cs), snd cs))
    /\ (exists t', nth_error L' n = Some t')
    /\ (forall m, m <> n -> nth_error L' m = nth_error L m).
Proof.
  intros -> Hn Hp Hc Hcont.
  destruct (Z.to_nat z) as [|k] eqn:Hk.
  - exists L. split; [|split; [now exists t | reflexivity]].
    change (2 * 0)%nat with 0%nat. rewrite Nat.add_0_r.
    cbn [repeat registryFrom run step]. unfold settle. cbn [loads set_loads].
    rewrite Hn. unfold loadPdf_resume. rewrite Hp, Hc.
    cbn [containerRef set_loads]. rewrite Hcont. unfold loopHead.
    replace (1 <=? z)%Z with false by (symmetry; apply Z.leb_gt; lia).
    change (set_loads L (set_nextElement (nextElement x) x)) with (set_loads L x).
    destruct (complete ver z [] (set_loads L x)) as [s1 acts].
    cbn zeta. cbn [fst snd]. now rewrite app_nil_r.
  - assert (Hstep : step ver (set_loads L x) (Settle n (Document z))
                    = (set_loads (setPhase n (AwaitPage 1 z c []) L)
                         (set_nextElement (nextElement x) x), [])).
    { cbn [step]. unfold settle. cbn [loads set_loads].
      rewrite Hn. unfold loadPdf_resume. rewrite Hp, Hc.
      cbn [containerRef set_loads]. rewrite Hcont. unfold loopHead.
      replace (1 <=? z)%Z with true by (symmetry; apply Z.leb_le; lia).
      reflexivity. }
    rewrite (@run_cons_silent ver _ _ _ _ Hstep).
    assert (Hz : (z - 1 + 1 = Z.of_nat (S k))%Z) by lia.
    destruct (@pages_loop ver n x z c k
                (setPhase n (AwaitPage 1 z c []) L) (nextElement x)
                {| url := url t; cancelled := cancelled t;
                   phase := AwaitPage 1 z c [] |} 1%Z []
                (setPhase_same _ _ _ Hn) eq_refl Hz)
      as (L' & HL' & (t' & Ht' & _) & Hother).
    exists L'. split; [exact HL'|]. split; [now exists t'|].
    intros m Hm. rewrite (Hother m Hm). now apply setPhase_other.
Qed.

(** A whole load, from its first await on. *)
Lemma document_load (ver : Version) (s : State num) (n : nat) (t : LoadTask)
    (c : Element) (z : Z) :
  nth_error (loads s) n = Some t -> phase t = firstPhase ver ->
  cancelled t = false -> containerRef s = Some c ->
  exists L',
    run ver s (documentLoads ver n z)
    = (let cs := complete ver z (registryFrom 1 (nextElement s) (Z.to_nat z))
                   (set_loads L'
                      (set_nextElement (nextElement s + 2 * Z.to_nat z)%nat s)) in
       (set_loads (setPhase n Returned (loads (fst cs))) (fst cs), snd cs))
    /\ (exists t', nth_error L' n = Some t')
    /\ (forall m, m <> n -> nth_error L' m = nth_error (loads s) m).
Proof.
  intros Hn Hp Hc Hcont. unfold documentLoads. destruct ver; cbn [firstPhase] in Hp.
  - cbn [app]. eapply document_arrives; try eassumption.
    now destruct s.
  - cbn [app].
    assert (Hr1 : loadPdf_resume SidebarJsx t (HeadResponse true 200) s
                  = (AwaitImport, s, [])).
    { unfold loadPdf_resume. now rewrite Hp. }
    pose proof (@step_settle_silent SidebarJsx s n t (HeadResponse true 200)
                  AwaitImport Hn Hr1) as Hs1.
    rewrite (@run_cons_silent SidebarJsx _ _ _ _ Hs1).
    set (L1 := setPhase n AwaitImport (loads s)).
    set (t1 := {| url := url t; cancelled := cancelled t; phase := AwaitImport |}).
    assert (Hn1 : nth_error (loads (set_loads L1 s)) n = Some t1).
    { subst L1 t1. cbn [loads set_loads]. now apply setPhase_same. }
    pose proof (@step_settle_silent SidebarJsx (set_loads L1 s) n t1 Fulfilled
                  AwaitDocument Hn1 eq_refl) as Hs2.
    rewrite (@run_cons_silent SidebarJsx _ _ _ _ Hs2).
    cbn [loads set_loads] in *.
    set (t2 := {| url := url t1; cancelled := cancelled t1;
                  phase := AwaitDocument |}).
    destruct (@document_arrives SidebarJsx
                (set_loads (setPhase n AwaitDocument L1) (set_loads L1 s))
                s (setPhase n AwaitDocument L1) n t2 c z eq_refl
                (setPhase_same _ _ _ Hn1) eq_refl Hc Hcont)
      as (L' & HL' & Ht' & Hother).
    exists L'. split; [exact HL'|]. split; [exact Ht'|].
    intros m Hm. rewrite (Hother m Hm). subst L1.
    rewrite setPhase_other by exact Hm. now apply setPhase_other.
Qed.

(** What such a load leaves. *)
Lemma document_load_result (ver : Version) (s : State num) (n : nat)
    (t : LoadTask) (c : Element) (z : Z) :
  mounted s = true ->
  nth_error (loads s) n = Some t -> phase t = firstPhase ver ->
  cancelled t = false -> containerRef s = Some c ->
  let s' := fst (run ver s (documentLoads ver n z)) in
  pageViews s' = registryFrom 1 (nextElement s) (Z.to_nat z) /\
  snd (run ver s (documentLoads ver n z))
  = (if onReady s then [OnReady z] else []) /\
  latestSelected s' = selectedChunk s /\ selectedChunk s' = selectedChunk s /\
  rafPending s' = true /\
  rafQueue s' = (if rafPending s then rafQueue s
                 else rafQueue s
                      ++ [registryFrom 1 (nextElement s) (Z.to_nat z)]) /\
  highlights s' = highlights s /\ containerRef s' = containerRef s /\
  layout s' = layout s /\ mounted s' = true /\ timers s' = timers s /\
  nextElement s' = (nextElement s + 2 * Z.to_nat z)%nat /\
  error s' = error s /\
  loading s' = match ver with PdfPaneJsx => loading s | SidebarJsx => false end /\
  option_map phase (nth_error (loads s') n) = Some Returned /\
  (forall m, m <> n -> nth_error (loads s') m = nth_error (loads s) m).
Proof.
  intros Hm Hn Hp Hc Hcont s'.
  destruct (document_load ver s n z Hn Hp Hc Hcont)
    as (L' & Hrun & (t' & Ht') & Hother).
  subst s'. rewrite Hrun. cbn zeta. cbn [fst snd].
  match goal with |- context [complete ?a ?b ?v ?x] =>
    pose proof (@complete_fields a b v x Hm) as Hf; cbn zeta in Hf;
    set (cs := complete a b v x) in *
  end.
  destruct Hf as (Hpv & Hacts & Hl & Hsel & Hrp & Hq & Hh & Hcr & Hlay & Hmo
                  & Hti & Hlo & Hne & Her & Hld).
  cbn [pageViews latestSelected selectedChunk rafPending rafQueue highlights
       containerRef layout mounted timers nextElement error loading loads
       set_loads].
  rewrite Hpv, Hacts, Hl, Hsel, Hrp, Hq, Hh, Hcr, Hlay, Hmo, Hti, Hne, Her, Hld, Hlo.
  cbn [onReady selectedChunk rafPending rafQueue highlights containerRef
       layout timers nextElement error loading loads set_loads set_nextElement].
  repeat (split; [reflexivity|]).
  split.
  - now rewrite (setPhase_same _ _ _ Ht').
  - intros m Hmn. rewrite setPhase_other by exact Hmn. now apply Hother.
Qed.

(** Looking a page up in what a load built. *)
Lemma findView_registryFrom (k : nat) :
  forall (i : Z) (e : Element) (p : Z),
  findView (registryFrom i e k) p
  = if ((i <=? p) && (p <? i + Z.of_nat k))%Z
    then Some {| pageNumber := p; el := S (e + 2 * Z.to_nat (p - i)) |}
    else None.
Proof.
  unfold findView.
  induction k as [|k IH]; intros i e p.
  - cbn [registryFrom find].
    destruct (i <=? p)%Z eqn:H1, (p <? i + Z.of_nat 0)%Z eqn:H2;
      try reflexivity. apply Z.leb_le in H1. apply Z.ltb_lt in H2. lia.
  - cbn [registryFrom find pageNumber].
    destruct (i =? p)%Z eqn:Hip.
    + apply Z.eqb_eq in Hip. subst p.
      replace (i <=? i)%Z with true by (symmetry; apply Z.leb_le; lia).
      replace (i <? i + Z.of_nat (S k))%Z with true
        by (symmetry; apply Z.ltb_lt; lia).
      cbn [andb]. replace (i - i)%Z with 0%Z by lia.
      now rewrite Nat.add_0_r.
    + apply Z.eqb_neq in Hip. rewrite IH.
      destruct (i + 1 <=? p)%Z eqn:H1, (p <? i + 1 + Z.of_nat k)%Z eqn:H2;
        cbn [andb].
      * apply Z.leb_le in H1. apply Z.ltb_lt in H2.
        replace (i <=? p)%Z with true by (symmetry; apply Z.leb_le; lia).
        replace (p <? i + Z.of_nat (S k))%Z with true
          by (symmetry; apply Z.ltb_lt; lia).
        cbn [andb]. do 2 f_equal.
        replace (p - i)%Z with (Z.succ (p - (i + 1)))%Z by lia.
        rewrite Z2Nat.inj_succ by lia. lia.
      * apply Z.leb_le in H1. apply Z.ltb_ge in H2.
        replace (p <? i + Z.of_nat (S k))%Z with false
          by (symmetry; apply Z.ltb_ge; lia).
        now rewrite andb_false_r.
      * apply Z.leb_gt in H1.
        replace (i <=? p)%Z with false by (symmetry; apply Z.leb_gt; lia).
        reflexivity.
      * apply Z.leb_gt in H1.
        replace (i <=? p)%Z with false by (symmetry; apply Z.leb_gt; lia).
        reflexivity.
Qed.

Lemma registryFrom_pageNumbers (k : nat) :
  forall (i : Z) (e : Element),
  map pageNumber (registryFrom i e k)
  = map (fun j => (i + Z.of_nat j)%Z) (seq 0 k).
Proof.
  induction k as [|k IH]; intros i e; [reflexivity|].
  cbn [registryFrom map seq pageNumber]. rewrite IH. f_equal; [f_equal; lia|].
  rewrite <- seq_shift, map_map. apply map_ext. intros j. lia.
Qed.

End LoadRunFacts.

Section LoadRunTheorems.
Context {num : Type} `{JsNumber num}.

(** X3.  A load of a mounted component that is not superseded and whose
    promises all fulfil, for a document of [z] pages, ends with the registry
    holding the pages 1..z in ascending order, each with the wrapper created
    for it; looking up page [p] finds its view exactly when 1 <= p <= z.
    [onReady] is called once, with [z], if it was given; the load has
    returned, a recomputation is scheduled, and the highlights on screen are
    not touched by the load itself. *)
Theorem load_builds_registry (ver : Version) (s : State num) (n : nat)
    (t : LoadTask) (c : Element) (z : Z) :
  mounted s = true ->
  nth_error (loads s) n = Some t -> phase t = firstPhase ver ->
  cancelled t = false -> containerRef s = Some c ->
  let s' := fst (run ver s (documentLoads ver n z)) in
  map pageNumber (pageViews s') = map Z.of_nat (seq 1 (Z.to_nat z)) /\
  (forall p,
     findView (pageViews s') p
     = if ((1 <=? p) && (p <=? z))%Z
       then Some {| pageNumber := p;
                    el := S (nextElement s + 2 * Z.to_nat (p - 1)) |}
       else None) /\
  snd (run ver s (documentLoads ver n z))
  = (if onReady s then [OnReady z] else []) /\
  option_map phase (nth_error (loads s') n) = Some Returned /\
  rafPending s' = true /\ latestSelected s' = selectedChunk s /\
  highlights s' = highlights s.
Proof.
  intros Hm Hn Hp Hc Hcont s'.
  destruct (document_load_result ver s n z Hm Hn Hp Hc Hcont)
    as (Hpv & Hacts & Hl & _ & Hrp & _ & Hh & _ & _ & _ & _ & _ & _ & _ & Hph & _).
  fold s' in Hpv, Hl, Hrp, Hh, Hph.
  split.
  { rewrite Hpv, registryFrom_pageNumbers.
    rewrite <- seq_shift, map_map. apply map_ext. intros j. lia. }
  split.
  { intros p. rewrite Hpv, findView_registryFrom.
    destruct (1 <=? p)%Z eqn:H1; [|reflexivity]. cbn [andb].
    apply Z.leb_le in H1.
    destruct (p <=? z)%Z eqn:H2.
    - apply Z.leb_le in H2.
      now replace (p <? 1 + Z.of_nat (Z.to_nat z))%Z with true
        by (symmetry; apply Z.ltb_lt; lia).
    - apply Z.leb_gt in H2.
      now replace (p <? 1 + Z.of_nat (Z.to_nat z))%Z with false
        by (symmetry; apply Z.ltb_ge; lia). }
  auto.
Qed.

End LoadRunTheorems.

Lemma load_builds_registry_scenario :
  let s := mount SidebarJsx "/doc.pdf" (Some scenarioChunk) true docLayout in
  let s' := fst (run SidebarJsx s (documentLoads SidebarJsx 0 3)) in
  map pageNumber (pageViews s') = map Z.of_nat (seq 1 (Z.to_nat 3)) /\
  (forall p,
     findView (pageViews s') p
     = if ((1 <=? p) && (p <=? 3))%Z
       then Some {| pageNumber := p;
                    el := S (nextElement s + 2 * Z.to_nat (p - 1)) |}
       else None) /\
  snd (run SidebarJsx s (documentLoads SidebarJsx 0 3))
  = (if onReady s then [OnReady 3] else []) /\
  option_map phase (nth_error (loads s') 0) = Some Returned /\
  rafPending s' = true /\ latestSelected s' = selectedChunk s /\
  highlights s' = highlights s.
Proof.
  apply (@load_builds_registry Q Q_JsNumber SidebarJsx
           (mount SidebarJsx "/doc.pdf" (Some scenarioChunk) true docLayout)
           0%nat {| url := "/doc.pdf"; cancelled := false; phase := AwaitHead |}
           0%nat 3%Z); vm_compute; reflexivity.
Defined.

(* ------------------------------------------------------------------ *)
(** ** More invariants of the event loop *)

Section MoreInvariantFacts.
Context {num : Type} `{JsNumber num}.

Lemma sameButHighlights_refl (s : State num) : sameButHighlights s s.
Proof. unfold sameButHighlights. repeat split; reflexivity. Qed.

Lemma sameButHighlights_trans (s1 s2 s3 : State num) :
  sameButHighlights s1 s2 -> sameButHighlights s2 s3 -> sameButHighlights s1 s3.
Proof.
  unfold sameButHighlights. intros H1 H2.
  decompose [and] H1. decompose [and] H2. repeat split; congruence.
Qed.

Lemma rafCallback_same (pv : Closure) (s : State num) :
  sameButHighlights (fst (rafCallback pv s)) s /\
  rafPending (fst (rafCallback pv s)) = false.
Proof.
  unfold rafCallback, setHighlights, sameButHighlights.
  change (latestSelected (set_rafPending false s)) with (latestSelected s).
  change (containerRef (set_rafPending false s)) with (containerRef s).
  change (layout (set_rafPending false s)) with (layout s).
  change (mounted (set_rafPending false s)) with (mounted s).
  destruct (latestSelected s) as [chunk|] eqn:Hl.
  - destruct (computeRectsFromChunk pv (containerRef s) (layout s) (Some chunk));
      cbn [fst]; destruct (mounted s) eqn:Hm; simpl; rewrite ?Hl, ?Hm;
      repeat split; reflexivity.
  - cbn [fst]. destruct (mounted s) eqn:Hm; simpl; rewrite ?Hl, ?Hm;
      repeat split; reflexivity.
Qed.

Lemma runCallbacks_same (q : list Closure) :
  forall s : State num,
  sameButHighlights (fst (runCallbacks q s)) s /\
  (q <> [] -> rafPending (fst (runCallbacks q s)) = false).
Proof.
  induction q as [|pv q IH]; intros s.
  - cbn. split; [apply sameButHighlights_refl | congruence].
  - cbn [runCallbacks].
    destruct (rafCallback_same pv s) as [Hs Hp].
    destruct (rafCallback pv s) as [s1 a1]. cbn [fst] in *.
    destruct (IH s1) as [Hs' Hp'].
    destruct (runCallbacks q s1) as [s2 a2] eqn:Hrun. cbn [fst] in *.
    split; [eapply sameButHighlights_trans; eassumption|].
    intros _. destruct q as [|pv' q'].
    + cbn in Hrun. now injection Hrun as <- _.
    + apply Hp'. discriminate.
Qed.

(** A frame leaves everything but the highlights alone, and nothing queued. *)
Lemma frame_same (ver : Version) (s : State num) :
  let s' := fst (step ver s AnimationFrame) in
  sameButHighlights s' (set_rafQueue [] s) /\ rafQueue s' = [].
Proof.
  cbn [step]. destruct (runCallbacks_same (rafQueue s) (set_rafQueue [] s))
    as [Hs _].
  split; [exact Hs|]. unfold sameButHighlights in Hs. decompose [and] Hs.
  assumption.
Qed.

End MoreInvariantFacts.

Section FrameBound.
Context {num : Type} `{JsNumber num}.

Lemma centeringScroll_at_most_one (pv : Closure) (s : State num)
    (rects : list (Highlight.t num)) :
  (count isScrollTo (centeringScroll pv s rects) <= 1)%nat.
Proof.
  unfold centeringScroll. destruct rects as [|r rects]; [cbn; lia|].
  destruct (findView pv (Highlight.page r)); [|cbn; lia].
  destruct (containerRef s); cbn; lia.
Qed.

Lemma frame_bound (ver : Version) (s : State num) :
  wf s ->
  let acts := snd (step ver s AnimationFrame) in
  let s' := fst (step ver s AnimationFrame) in
  (count isSetHighlights acts <= 1)%nat /\
  (count isCallComputeRects acts <= 1)%nat /\
  (count isScrollTo acts <= count isSetHighlights acts)%nat /\
  rafQueue s' = [] /\ rafPending s' = false /\
  snd (step ver s' AnimationFrame) = [].
Proof.
  intros Hwf acts s'.
  assert (Hq' : rafQueue s' = []) by apply (frame_same ver s).
  assert (Hidle : snd (step ver s' AnimationFrame) = []).
  { now rewrite (frame_idle ver s' Hq'). }
  assert (Hp' : rafPending s' = false).
  { subst s'. cbn [step].
    destruct (rafQueue s) as [|pv q] eqn:Hq.
    - cbn. pose proof (wf_raf Hwf) as Hlen. rewrite Hq in Hlen.
      now destruct (rafPending s).
    - apply runCallbacks_same. discriminate. }
  pose proof (wf_raf Hwf) as Hlen.
  destruct (rafQueue s) as [|pv [|pv' q]] eqn:Hq.
  - subst acts. rewrite (frame_idle ver s Hq). cbn. auto 10.
  - subst acts. rewrite (frame_single ver s Hq).
    destruct (latestSelected s) as [chunk|] eqn:Hl.
    + destruct (computeRectsFromChunk pv (containerRef s) (layout s) (Some chunk))
        as [rects|err] eqn:Hrects.
      * rewrite (@rafCallback_some _ _ pv (set_rafQueue [] s) chunk rects Hl Hrects).
        cbn [snd]. unfold count.
        cbn [filter isSetHighlights isCallComputeRects isScrollTo List.length].
        destruct (centeringScroll_count pv
                    (set_rafPending false (set_rafQueue [] s)) rects) as [H1 H2].
        pose proof (centeringScroll_at_most_one pv
                      (set_rafPending false (set_rafQueue [] s)) rects) as H3.
        unfold count in H1, H2, H3. rewrite H1, H2. repeat split; auto; lia.
      * rewrite (@rafCallback_throw _ _ pv (set_rafQueue [] s) chunk err Hl Hrects).
        cbn. repeat split; auto; lia.
    + rewrite (@rafCallback_none _ _ pv (set_rafQueue [] s) Hl).
      cbn. repeat split; auto; lia.
  - cbn in Hlen. destruct (rafPending s); discriminate.
Qed.

(** X5.  In every state reached from mounting, a frame does a bounded
    amount of work: it calls [setHighlights] at most once, enters the mapper
    at most once, scrolls at most once and only when it publishes; it leaves
    no callback queued and [rafPending] lowered, and a frame that follows at
    once does nothing. *)
Theorem frame_work_is_bounded (ver : Version) (url : string)
    (sel : option (Chunk.t num)) (onR : bool) (l : Layout num)
    (es : list (Event num)) :
  let s := fst (run ver (mount ver url sel onR l) es) in
  let acts := snd (step ver s AnimationFrame) in
  let s' := fst (step ver s AnimationFrame) in
  (count isSetHighlights acts <= 1)%nat /\
  (count isCallComputeRects acts <= 1)%nat /\
  (count isScrollTo acts <= count isSetHighlights acts)%nat /\
  rafQueue s' = [] /\ rafPending s' = false /\
  snd (step ver s' AnimationFrame) = [].
Proof.
  intros s. apply frame_bound. apply run_wf, mount_wf.
Qed.

Lemma idle_step (ver : Version) (s : State num) (e : Event num) :
  quiet s -> isIdle e = true ->
  snd (step ver s e) = [] /\
  highlights (fst (step ver s e)) = highlights s /\
  pageViews (fst (step ver s e)) = pageViews s /\
  quiet (fst (step ver s e)).
Proof.
  unfold quiet. intros (Hl & Hp & Hq & Ht) He.
  destruct e as [c|u|l|l|l|l| | |n r| ]; try discriminate He; cbn [step].
  - destruct (mounted (set_layout l s)); unfold onPerturbation; simpl;
      rewrite ?Hl; simpl; auto 10.
  - destruct (mounted (set_layout l s)); unfold onPerturbation; simpl;
      rewrite ?Hl; simpl; auto 10.
  - destruct (mounted (set_layout l s)); unfold onPerturbation; simpl;
      rewrite ?Hl; simpl; auto 10.
  - destruct (mounted (set_layout l s)); unfold onMutation; simpl;
      rewrite ?Hl; simpl; auto 10.
  - rewrite Ht. simpl. auto 10.
  - rewrite Hq. simpl. auto 10.
Qed.

(** X6.  With nothing selected and nothing scheduled, scroll, resize and
    mutation events, timers and frames never publish, scroll or schedule
    anything: whatever their number and order, nothing is issued, the
    highlights and the registry stay as they are, and nothing is scheduled
    afterwards either. *)
Theorem idle_without_selection (ver : Version) (es : list (Event num))
    (s : State num) :
  quiet s -> forallb isIdle es = true ->
  snd (run ver s es) = [] /\
  highlights (fst (run ver s es)) = highlights s /\
  pageViews (fst (run ver s es)) = pageViews s /\
  quiet (fst (run ver s es)).
Proof.
  revert s. induction es as [|e es IH]; intros s Hs Hes; [cbn; auto|].
  cbn [forallb] in Hes. apply andb_prop in Hes. destruct Hes as [He Hes].
  destruct (idle_step ver e Hs He) as (Ha & Hh & Hpv & Hq1).
  cbn [run]. destruct (step ver s e) as [s1 acts]. cbn [fst snd] in *.
  destruct (IH s1 Hq1 Hes) as (Ha' & Hh' & Hpv' & Hq2).
  destruct (run ver s1 es) as [s2 acts']. cbn [fst snd] in *.
  subst acts acts'. repeat split; try congruence; apply Hq2.
Qed.

End FrameBound.

Lemma idle_without_selection_scenario :
  let es := [Scroll docLayout; Mutation docLayout; Timeout; AnimationFrame;
             WindowResize docLayout; ContainerResize docLayout; AnimationFrame] in
  snd (run SidebarJsx docReady es) = [] /\
  highlights (fst (run SidebarJsx docReady es)) = highlights docReady /\
  pageViews (fst (run SidebarJsx docReady es)) = pageViews docReady /\
  quiet (fst (run SidebarJsx docReady es)).
Proof.
  apply (@idle_without_selection Q Q_JsNumber SidebarJsx).
  - vm_compute. auto.
  - vm_compute. reflexivity.
Defined.

Section RegistryInvariant.
Context {num : Type} `{JsNumber num}.

Lemma goodViews_nil (b : Element) : goodViews [] b.
Proof. repeat split; constructor. Qed.

Lemma goodViews_mono (vs : list PageView) (b b' : Element) :
  (b <= b')%nat -> goodViews vs b -> goodViews vs b'.
Proof.
  intros Hb (Hp & Hn & Hf). repeat split; auto.
  eapply Forall_impl; [|exact Hf]. cbn. intros v Hv. lia.
Qed.

Lemma goodViews_snoc (vs : list PageView) (b : Element) :
  (0 < b)%nat -> goodViews vs b ->
  goodViews (vs ++ [{| pageNumber := Z.of_nat (List.length vs) + 1; el := b |}])
    (S b).
Proof.
  intros Hb (Hp & Hn & Hf). repeat split.
  - rewrite map_app, Hp, length_app. cbn [List.length map pageNumber].
    rewrite Nat.add_1_r, seq_S, map_app. cbn [map]. do 3 f_equal. lia.
  - rewrite map_app. cbn [map el].
    assert (Hnot : ~ In b (map el vs)).
    { intros Hin. apply in_map_iff in Hin. destruct Hin as (v & Hv & Hin).
      rewrite Forall_forall in Hf. specialize (Hf v Hin). lia. }
    clear Hp Hf. induction (map el vs) as [|x xs IH].
    + cbn. constructor; [intros []|constructor].
    + cbn. inversion Hn as [|? ? Hx Hxs]; subst. constructor.
      * intros Hin. apply in_app_or in Hin. destruct Hin as [Hin|[<-|[]]].
        -- contradiction.
        -- apply Hnot. now left.
      * apply IH; [exact Hxs|]. intros Hin. apply Hnot. now right.
  - apply Forall_app. split.
    + eapply Forall_impl; [|exact Hf]. cbn. intros v Hv. lia.
    + constructor; [cbn; lia|constructor].
Qed.

Lemma goodTask_mono (b b' : Element) (t : LoadTask) :
  (b <= b')%nat -> goodTask b t -> goodTask b' t.
Proof.
  unfold goodTask. intros Hb.
  destruct (phase t); auto; intros [Hg Hi]; split; auto;
    eapply goodViews_mono; eassumption.
Qed.

Lemma Forall_setPhase (P : LoadTask -> Prop) (n : nat) (p : Phase) :
  forall tasks : list LoadTask,
  Forall P tasks ->
  (forall t, P {| url := url t; cancelled := cancelled t; phase := p |}) ->
  Forall P (setPhase n p tasks).
Proof.
  intros tasks Hf Hp. revert n.
  induction Hf as [|t tasks Ht Hf IH]; intros [|n]; cbn; constructor; auto.
Qed.

Lemma Forall_cancelLast (P : LoadTask -> Prop) :
  forall tasks : list LoadTask,
  Forall P tasks ->
  (forall t, P t -> P {| url := url t; cancelled := true; phase := phase t |}) ->
  Forall P (cancelLast tasks).
Proof.
  intros tasks Hf Hp.
  induction Hf as [|t tasks Ht Hf IH]; [constructor|].
  cbn [cancelLast]. destruct tasks as [|t' tasks].
  - constructor; [now apply Hp | constructor].
  - constructor; assumption.
Qed.

(** [goodRegistries] reads five fields only. *)
Lemma good_ext (s s' : State num) :
  nextElement s' = nextElement s -> pageViews s' = pageViews s ->
  rafQueue s' = rafQueue s -> timers s' = timers s -> loads s' = loads s ->
  goodRegistries s -> goodRegistries s'.
Proof.
  unfold goodRegistries. intros -> -> -> -> ->. auto.
Qed.

Lemma good_bump (s : State num) :
  goodRegistries s -> goodRegistries (set_nextElement (S (nextElement s)) s).
Proof.
  unfold goodRegistries. cbn. intros (Hb & Hp & Hq & Hl).
  split; [lia|]. split; [eapply goodViews_mono; [|exact Hp]; lia|].
  split.
  - eapply Forall_impl; [|exact Hq]. intros pv. apply goodViews_mono. lia.
  - eapply Forall_impl; [|exact Hl]. intros t. apply goodTask_mono. lia.
Qed.

Lemma scheduleRecompute_good (pv : Closure) (s : State num) :
  goodRegistries s -> goodViews pv (nextElement s) ->
  goodRegistries (scheduleRecompute pv s).
Proof.
  unfold scheduleRecompute, goodRegistries. intros (Hb & Hp & Hq & Hl) Hpv.
  destruct (rafPending s); cbn; auto.
  split; [exact Hb|]. split; [exact Hp|]. split; [|exact Hl].
  apply Forall_app in Hq. destruct Hq as [Hq Ht].
  apply Forall_app. split; [|exact Ht].
  apply Forall_app. split; [exact Hq|]. constructor; [exact Hpv|constructor].
Qed.

Lemma selectionEffect_good (s : State num) :
  goodRegistries s -> goodRegistries (selectionEffect s).
Proof.
  intros Hg. unfold selectionEffect.
  apply scheduleRecompute_good; [|apply Hg].
  eapply good_ext; [| | | | |exact Hg]; reflexivity.
Qed.

Lemma setError_good (v : option string) (s : State num) :
  goodRegistries s -> goodRegistries (setError v s).
Proof.
  intros Hg. unfold setError. destruct (mounted s); [|exact Hg].
  eapply good_ext; [| | | | |exact Hg]; reflexivity.
Qed.

Lemma setLoading_good (v : bool) (s : State num) :
  goodRegistries s -> goodRegistries (setLoading v s).
Proof.
  intros Hg. unfold setLoading. destruct (mounted s); [|exact Hg].
  eapply good_ext; [| | | | |exact Hg]; reflexivity.
Qed.

Lemma setPageViews_good (views : list PageView) (s : State num) :
  goodRegistries s -> goodViews views (nextElement s) ->
  goodRegistries (setPageViews views s).
Proof.
  intros Hg Hv. unfold setPageViews. destruct (mounted s); [|exact Hg].
  destruct Hg as (Hb & Hp & Hq & Hl).
  split; [exact Hb|]. split; [exact Hv|]. split; [exact Hq | exact Hl].
Qed.

Lemma complete_good (ver : Version) (np : Z) (views : list PageView)
    (s : State num) :
  goodRegistries s -> goodViews views (nextElement s) ->
  goodRegistries (fst (complete ver np views s)).
Proof.
  intros Hg Hv. unfold complete. cbn [fst].
  set (s1 := match ver with
             | PdfPaneJsx => setPageViews views s
             | SidebarJsx => setLoading false (setPageViews views s)
             end).
  assert (Hg1 : goodRegistries s1).
  { subst s1. destruct ver; [|apply setLoading_good];
      now apply setPageViews_good. }
  destruct (mounted s1); [now apply selectionEffect_good | exact Hg1].
Qed.

Lemma failed_good (ver : Version) (err : JsError) (s : State num) :
  goodRegistries s -> goodRegistries (snd (fst (failed ver err s))).
Proof.
  intros Hg. unfold failed, catch. destruct ver; cbn [fst snd]; [exact Hg|].
  now apply setLoading_good, setError_good.
Qed.

Lemma loopHead_good (ver : Version) (i np : Z) (c : Element)
    (views : list PageView) (s : State num) (u : string) (cn : bool) :
  goodRegistries s -> goodViews views (nextElement s) ->
  i = (Z.of_nat (List.length views) + 1)%Z ->
  goodRegistries (snd (fst (loopHead ver i np c views s))) /\
  goodTask (nextElement (snd (fst (loopHead ver i np c views s))))
    {| url := u; cancelled := cn;
       phase := fst (fst (loopHead ver i np c views s)) |}.
Proof.
  intros Hg Hv Hi. unfold loopHead. destruct (i <=? np)%Z.
  - cbn [fst snd]. split; [exact Hg|]. unfold goodTask. cbn. auto.
  - pose proof (complete_good ver np Hg Hv) as Hc.
    destruct (complete ver np views s) as [s1 acts]. cbn [fst snd] in *.
    split; [exact Hc|]. exact I.
Qed.

Lemma resume_good (ver : Version) (task : LoadTask) (r : Settled)
    (s : State num) :
  goodRegistries s -> goodTask (nextElement s) task ->
  goodRegistries (snd (fst (loadPdf_resume ver task r s))) /\
  goodTask (nextElement (snd (fst (loadPdf_resume ver task r s))))
    {| url := url task; cancelled := cancelled task;
       phase := fst (fst (loadPdf_resume ver task r s)) |}.
Proof.
  intros Hg Ht.
  assert (Hfail : forall err,
             goodRegistries (snd (fst (failed ver err s))) /\
             goodTask (nextElement (snd (fst (failed ver err s))))
               {| url := url task; cancelled := cancelled task;
                  phase := fst (fst (failed ver err s)) |}).
  { intros err. split; [now apply failed_good|].
    unfold failed, catch. destruct ver; exact I. }
  assert (Hkeep : goodTask (nextElement s)
                    {| url := url task; cancelled := cancelled task;
                       phase := phase task |}).
  { exact Ht. }
  unfold loadPdf_resume. unfold goodTask in Ht.
  destruct (phase task) as [ | | |i np c vs|i np c cv vs| ] eqn:Hp,
           r as [ok status|np'| |err];
    try (cbn [fst snd]; split; [exact Hg | exact Hkeep]);
    try apply Hfail;
    try (cbn [fst snd]; split; [exact Hg | exact I]).
  - destruct ok; cbn [fst snd].
    + split; [exact Hg | exact I].
    + split; [now apply setLoading_good, setError_good | exact I].
  - destruct (cancelled task); [cbn [fst snd]; split; [exact Hg | exact I]|].
    destruct (containerRef s); [|apply Hfail].
    apply loopHead_good; [exact Hg | apply goodViews_nil | reflexivity].
  - destruct Ht as [Hv Hi]. cbn [fst snd]. split; [now apply good_bump|].
    unfold goodTask. cbn. split; [|exact Hi].
    eapply goodViews_mono; [|exact Hv]. lia.
  - destruct Ht as [Hv Hi].
    apply loopHead_good.
    + now apply good_bump.
    + subst i. cbn. apply goodViews_snoc; [apply Hg | exact Hv].
    + rewrite length_app. cbn. lia.
Qed.

Lemma settle_good (ver : Version) (n : nat) (r : Settled) (s : State num) :
  goodRegistries s -> goodRegistries (fst (settle ver n r s)).
Proof.
  intros Hg. unfold settle.
  destruct (nth_error (loads s) n) as [task|] eqn:Hn; [|exact Hg].
  assert (Ht : goodTask (nextElement s) task).
  { destruct Hg as (_ & _ & _ & Hl). rewrite Forall_forall in Hl.
    apply Hl. eapply nth_error_In. exact Hn. }
  destruct (resume_good ver task r Hg Ht) as [Hg1 Ht1].
  destruct (loadPdf_resume ver task r s) as [[p s1] acts]. cbn [fst snd] in *.
  destruct Hg1 as (Hb & Hp & Hq & Hl).
  split; [exact Hb|]. split; [exact Hp|]. split; [exact Hq|].
  cbn [loads set_loads nextElement].
  apply Forall_setPhase; [exact Hl|].
  intros t0. unfold goodTask in *. cbn [phase] in *. exact Ht1.
Qed.

Lemma loadPdf_start_good (ver : Version) (s : State num) :
  goodRegistries s -> goodRegistries (loadPdf_start ver s).
Proof.
  intros Hg. unfold loadPdf_start.
  assert (Hadd : forall (s0 : State num) (t : LoadTask),
             goodRegistries s0 -> goodTask (nextElement s0) t ->
             goodRegistries (set_loads (loads s0 ++ [t]) s0)).
  { intros s0 t (Hb & Hp & Hq & Hl) Ht.
    split; [exact Hb|]. split; [exact Hp|]. split; [exact Hq|].
    cbn. apply Forall_app. split; [exact Hl|]. constructor; [exact Ht|constructor]. }
  destruct ver; apply Hadd; try exact I; try exact Hg.
  now apply setLoading_good, setError_good.
Qed.

Lemma cancelLast_good (s : State num) :
  goodRegistries s -> goodRegistries (set_loads (cancelLast (loads s)) s).
Proof.
  intros (Hb & Hp & Hq & Hl).
  split; [exact Hb|]. split; [exact Hp|]. split; [exact Hq|].
  cbn. apply Forall_cancelLast; [exact Hl|]. intros t Ht. exact Ht.
Qed.

Lemma mount_good (ver : Version) (url : string) (sel : option (Chunk.t num))
    (onR : bool) (l : Layout num) :
  goodRegistries (mount ver url sel onR l).
Proof.
  unfold mount. apply selectionEffect_good, loadPdf_start_good.
  split; [cbn; lia|]. split; [apply goodViews_nil|]. split; constructor.
Qed.

Lemma step_good (ver : Version) (s : State num) (e : Event num) :
  goodRegistries s -> goodRegistries (fst (step ver s e)).
Proof.
  intros Hg. destruct e as [c|u|l|l|l|l| | |n r| ]; cbn [step].
  - destruct (mounted s); [|exact Hg]. cbn [fst].
    apply selectionEffect_good.
    eapply good_ext; [| | | | |exact Hg]; reflexivity.
  - destruct (mounted s); [|exact Hg]. cbn [fst].
    apply loadPdf_start_good.
    eapply good_ext; [| | | | |exact (cancelLast_good Hg)]; reflexivity.
  - assert (Hl : goodRegistries (set_layout l s))
      by (eapply good_ext; [| | | | |exact Hg]; reflexivity).
    destruct (mounted (set_layout l s)); [|exact Hl]. cbn [fst].
    unfold onPerturbation. destruct (latestSelected (set_layout l s)); [|exact Hl].
    apply scheduleRecompute_good; [exact Hl | apply Hl].
  - assert (Hl : goodRegistries (set_layout l s))
      by (eapply good_ext; [| | | | |exact Hg]; reflexivity).
    destruct (mounted (set_layout l s)); [|exact Hl]. cbn [fst].
    unfold onPerturbation. destruct (latestSelected (set_layout l s)); [|exact Hl].
    apply scheduleRecompute_good; [exact Hl | apply Hl].
  - assert (Hl : goodRegistries (set_layout l s))
      by (eapply good_ext; [| | | | |exact Hg]; reflexivity).
    destruct (mounted (set_layout l s)); [|exact Hl]. cbn [fst].
    unfold onPerturbation. destruct (latestSelected (set_layout l s)); [|exact Hl].
    apply scheduleRecompute_good; [exact Hl | apply Hl].
  - assert (Hl : goodRegistries (set_layout l s))
      by (eapply good_ext; [| | | | |exact Hg]; reflexivity).
    destruct (mounted (set_layout l s)); [|exact Hl]. cbn [fst].
    unfold onMutation. destruct (latestSelected (set_layout l s)); [|exact Hl].
    destruct Hl as (Hb & Hp & Hq & Hlo).
    split; [exact Hb|]. split; [exact Hp|]. split; [|exact Hlo].
    cbn. cbn in Hq. rewrite app_assoc. apply Forall_app. split; [exact Hq|].
    constructor; [exact Hp|constructor].
  - destruct (timers s) as [|pv rest] eqn:Ht; [exact Hg|]. cbn [fst].
    destruct Hg as (Hb & Hp & Hq & Hlo). rewrite Ht in Hq.
    apply Forall_app in Hq. destruct Hq as [Hq Hti].
    inversion Hti as [|? ? Hpv Hrest]; subst.
    apply scheduleRecompute_good; [|exact Hpv].
    split; [exact Hb|]. split; [exact Hp|]. split; [|exact Hlo].
    cbn. apply Forall_app. split; assumption.
  - destruct (frame_same ver s) as [Hsame Hq'].
    cbn [step] in Hsame, Hq'.
    unfold sameButHighlights in Hsame. cbn in Hsame.
    decompose [and] Hsame.
    destruct Hg as (Hb & Hp & Hq & Hlo).
    apply Forall_app in Hq. destruct Hq as [_ Hti].
    unfold goodRegistries.
    repeat match goal with Heq : _ = _ |- _ => rewrite Heq; clear Heq end.
    split; [exact Hb|]. split; [exact Hp|]. split; [exact Hti | exact Hlo].
  - now apply settle_good.
  - destruct (mounted s); [|exact Hg]. cbn [fst].
    eapply good_ext; [| | | | |exact (cancelLast_good Hg)]; reflexivity.
Qed.

Lemma run_good (ver : Version) (es : list (Event num)) (s : State num) :
  goodRegistries s -> goodRegistries (fst (run ver s es)).
Proof.
  revert s. induction es as [|e es IH]; intros s Hg; [exact Hg|].
  cbn [run]. pose proof (step_good ver e Hg) as Hs.
  destruct (step ver s e) as [s1 acts]. cbn [fst] in Hs.
  specialize (IH s1 Hs). now destruct (run ver s1 es).
Qed.

(** With the pages numbered from [a] on, [find] is a lookup by position. *)
Lemma findView_consecutive (vs : list PageView) :
  forall (a : nat) (p : Z),
  map pageNumber vs = map Z.of_nat (seq a (List.length vs)) ->
  findView vs p
  = if ((Z.of_nat a <=? p) && (p <? Z.of_nat a + Z.of_nat (List.length vs)))%Z
    then nth_error vs (Z.to_nat (p - Z.of_nat a))
    else None.
Proof.
  unfold findView. induction vs as [|v vs IH]; intros a p Hmap.
  - cbn [find List.length].
    destruct (Z.of_nat a <=? p)%Z eqn:H1,
             (p <? Z.of_nat a + Z.of_nat 0)%Z eqn:H2; try reflexivity.
    apply Z.leb_le in H1. apply Z.ltb_lt in H2. lia.
  - cbn [map List.length seq] in Hmap. injection Hmap as Hv Hrest.
    cbn [find]. rewrite Hv.
    destruct (Z.of_nat a =? p)%Z eqn:Hap.
    + apply Z.eqb_eq in Hap. subst p.
      replace (Z.of_nat a <=? Z.of_nat a)%Z with true
        by (symmetry; apply Z.leb_le; lia).
      replace (Z.of_nat a <? Z.of_nat a + Z.of_nat (List.length (v :: vs)))%Z
        with true by (symmetry; apply Z.ltb_lt; cbn [List.length]; lia).
      cbn [andb]. now replace (Z.of_nat a - Z.of_nat a)%Z with 0%Z by lia.
    + apply Z.eqb_neq in Hap. rewrite (IH (S a) p Hrest).
      cbn [List.length].
      destruct (Z.of_nat (S a) <=? p)%Z eqn:H1,
               (p <? Z.of_nat (S a) + Z.of_nat (List.length vs))%Z eqn:H2;
        cbn [andb].
      * apply Z.leb_le in H1. apply Z.ltb_lt in H2.
        replace (Z.of_nat a <=? p)%Z with true by (symmetry; apply Z.leb_le; lia).
        replace (p <? Z.of_nat a + Z.of_nat (S (List.length vs)))%Z with true
          by (symmetry; apply Z.ltb_lt; lia).
        cbn [andb].
        replace (Z.to_nat (p - Z.of_nat a))
          with (S (Z.to_nat (p - Z.of_nat (S a)))) by lia.
        reflexivity.
      * apply Z.leb_le in H1. apply Z.ltb_ge in H2.
        replace (p <? Z.of_nat a + Z.of_nat (S (List.length vs)))%Z with false
          by (symmetry; apply Z.ltb_ge; lia).
        now rewrite andb_false_r.
      * apply Z.leb_gt in H1.
        replace (Z.of_nat a <=? p)%Z with false by (symmetry; apply Z.leb_gt; lia).
        reflexivity.
      * apply Z.leb_gt in H1.
        replace (Z.of_nat a <=? p)%Z with false by (symmetry; apply Z.leb_gt; lia).
        reflexivity.
Qed.

(** X4.  In every state reached from mounting, by any events, the registry
    is what one load built: its pages are 1, 2, ... in this order, the
    wrappers are pairwise distinct and none is the container (handle 0), so
    looking a page up is taking the entry at its position and finds nothing
    for a page out of range.  The registries the queued callbacks and the
    timers closed over have the same shape. *)
Theorem registry_is_well_formed (ver : Version) (url : string)
    (sel : option (Chunk.t num)) (onR : bool) (l : Layout num)
    (es : list (Event num)) :
  let s := fst (run ver (mount ver url sel onR l) es) in
  let n := List.length (pageViews s) in
  map pageNumber (pageViews s) = map Z.of_nat (seq 1 n) /\
  NoDup (map el (pageViews s)) /\
  ~ In 0%nat (map el (pageViews s)) /\
  (forall p,
     findView (pageViews s) p
     = if ((1 <=? p) && (p <=? Z.of_nat n))%Z
       then nth_error (pageViews s) (Z.to_nat (p - 1))
       else None) /\
  Forall (fun pv => map pageNumber pv = map Z.of_nat (seq 1 (List.length pv)))
    (rafQueue s ++ timers s).
Proof.
  intros s n.
  pose proof (run_good ver es (mount_good ver url sel onR l)) as Hg.
  fold s in Hg. destruct Hg as (Hb & (Hp & Hn & Hf) & Hq & _).
  split; [exact Hp|]. split; [exact Hn|]. split.
  { intros Hin. apply in_map_iff in Hin. destruct Hin as (v & Hv & Hin).
    rewrite Forall_forall in Hf. specialize (Hf v Hin). lia. }
  split.
  { intros p. rewrite (findView_consecutive (pageViews s) 1 p Hp). fold n.
    change (Z.of_nat 1) with 1%Z.
    destruct (1 <=? p)%Z eqn:H1; cbn [andb]; [|reflexivity].
    destruct (p <=? Z.of_nat n)%Z eqn:H2.
    - apply Z.leb_le in H2.
      now replace (p <? 1 + Z.of_nat n)%Z with true
        by (symmetry; apply Z.ltb_lt; lia).
    - apply Z.leb_gt in H2.
      now replace (p <? 1 + Z.of_nat n)%Z with false
        by (symmetry; apply Z.ltb_ge; lia). }
  eapply Forall_impl; [|exact Hq]. intros pv Hpv. apply Hpv.
Qed.

End RegistryInvariant.

Section LoadingIndicator.
Context {num : Type} `{JsNumber num}.

Lemma setPhase_app_l (n : nat) (p : Phase) (cur : LoadTask) :
  forall older : list LoadTask,
  (n < List.length older)%nat ->
  setPhase n p (older ++ [cur]) = setPhase n p older ++ [cur].
Proof.
  revert n. intros n older. revert n.
  induction older as [|t older IH]; intros [|n] Hn; cbn in *; try lia;
    [reflexivity|]. f_equal. apply IH. lia.
Qed.

Lemma setPhase_app_last (p : Phase) (cur : LoadTask) :
  forall older : list LoadTask,
  setPhase (List.length older) p (older ++ [cur])
  = older ++ [{| url := url cur; cancelled := cancelled cur; phase := p |}].
Proof.
  induction older as [|t older IH]; cbn; [reflexivity|]. now rewrite IH.
Qed.

Lemma cancelLast_app (cur : LoadTask) :
  forall older : list LoadTask,
  cancelLast (older ++ [cur])
  = older ++ [{| url := url cur; cancelled := true; phase := phase cur |}].
Proof.
  induction older as [|t older IH]; [reflexivity|].
  cbn [app cancelLast]. rewrite IH.
  destruct (older ++ [cur]) eqn:Happ; [|reflexivity].
  now destruct older.
Qed.

Lemma currentLoad_last (s : State num) (older : list LoadTask) (cur : LoadTask) :
  loads s = older ++ [cur] -> currentLoad s = Some cur.
Proof.
  intros Hl. unfold currentLoad. rewrite Hl, map_app. cbn [map].
  apply last_last.
Qed.

(** A load that goes on changes neither [mounted] nor [loads]. *)
Lemma resume_keeps (ver : Version) (task : LoadTask) (r : Settled)
    (s : State num) :
  let s1 := snd (fst (loadPdf_resume ver task r s)) in
  mounted s1 = mounted s /\ loads s1 = loads s.
Proof.
  assert (Hset : forall v b, mounted (setLoading b (setError v s)) = mounted s /\
                             loads (setLoading b (setError v s)) = loads s).
  { intros v b. unfold setLoading, setError.
    destruct (mounted s) eqn:Hm; repeat (simpl; rewrite ?Hm); auto. }
  assert (Hfailed : forall err,
             mounted (snd (fst (failed ver err s))) = mounted s /\
             loads (snd (fst (failed ver err s))) = loads s).
  { intros err. unfold failed, catch. destruct ver; cbn [fst snd]; auto. }
  assert (Hcomplete : forall np vs (x : State num),
             mounted (fst (complete ver np vs x)) = mounted x /\
             loads (fst (complete ver np vs x)) = loads x).
  { intros np vs x. unfold complete, setPageViews, setLoading, selectionEffect,
      scheduleRecompute. cbn [fst].
    destruct ver, (mounted x) eqn:Hm, (rafPending x) eqn:Hp;
      repeat (simpl; rewrite ?Hm, ?Hp); auto. }
  assert (Hloop : forall i np c vs (x : State num),
             mounted (snd (fst (loopHead ver i np c vs x))) = mounted x /\
             loads (snd (fst (loopHead ver i np c vs x))) = loads x).
  { intros i np c vs x. unfold loopHead. destruct (i <=? np)%Z; [cbn; auto|].
    pose proof (Hcomplete np vs x) as Hc.
    destruct (complete ver np vs x) as [x1 acts]. exact Hc. }
  cbn zeta. unfold loadPdf_resume.
  destruct (phase task) as [ | | |i np c vs|i np c cv vs| ],
           r as [ok status|np'| |err];
    try (cbn [fst snd]; auto; fail); try apply Hfailed.
  - destruct ok; cbn [fst snd]; auto.
  - destruct (cancelled task); [cbn; auto|].
    destruct (containerRef s); [apply Hloop | apply Hfailed].
  - apply (Hloop (i + 1)%Z np c _ (set_nextElement (S (nextElement s)) s)).
Qed.

(** In the later copy a load that goes on never raises [loading], and the
    current load of a mounted component lowers it when it returns. *)
Lemma resume_loading (task : LoadTask) (r : Settled) (s : State num) :
  mounted s = true ->
  let p := fst (fst (loadPdf_resume SidebarJsx task r s)) in
  let s1 := snd (fst (loadPdf_resume SidebarJsx task r s)) in
  (loading s1 = true -> loading s = true) /\
  (cancelled task = false -> (loading s = true -> phase task <> Returned) ->
   loading s1 = true -> p <> Returned).
Proof.
  intros Hm.
  assert (Hset : forall v, loading (setLoading false (setError v s)) = false).
  { intros v. unfold setLoading, setError. repeat (simpl; rewrite ?Hm).
    reflexivity. }
  assert (Hfailed : forall err,
             loading (snd (fst (failed SidebarJsx err s))) = false /\
             fst (fst (failed SidebarJsx err s)) = Returned).
  { intros err. unfold failed, catch. cbn [fst snd]. auto. }
  assert (Hloop : forall i np c vs (x : State num),
             mounted x = true -> loading x = loading s ->
             let q := fst (fst (loopHead SidebarJsx i np c vs x)) in
             let x1 := snd (fst (loopHead SidebarJsx i np c vs x)) in
             (loading x1 = true -> loading s = true) /\
             (loading x1 = true -> q <> Returned)).
  { intros i np c vs x Hmx Hlx. unfold loopHead. destruct (i <=? np)%Z.
    - cbn. split; [congruence | discriminate].
    - destruct (complete_fields SidebarJsx np vs x Hmx)
        as (_ & _ & _ & _ & _ & _ & _ & _ & _ & _ & _ & _ & _ & _ & Hld).
      destruct (complete SidebarJsx np vs x) as [x1 acts]. cbn [fst snd] in *.
      rewrite Hld. split; discriminate. }
  cbn zeta. unfold loadPdf_resume.
  destruct (phase task) as [ | | |i np c vs|i np c cv vs| ] eqn:Hp,
           r as [ok status|np'| |err];
    try (cbn [fst snd]; split; [auto | intros _ Hkeep Hl; auto; discriminate]; fail);
    try (destruct (Hfailed err) as [Hf1 Hf2]; rewrite Hf1;
         split; discriminate).
  - destruct ok; cbn [fst snd].
    + split; [auto | discriminate].
    + rewrite Hset. split; discriminate.
  - destruct (cancelled task) eqn:Hc.
    + cbn [fst snd]. split; [auto | discriminate].
    + destruct (containerRef s).
      * destruct (Hloop 1%Z np' e [] s Hm eq_refl) as [H1 H2]. split; auto.
      * destruct (Hfailed (TypeError
                    "Cannot set properties of null (setting 'innerHTML')"))
          as [Hf1 Hf2]. rewrite Hf1. split; discriminate.
  - destruct (Hloop (i + 1)%Z np c
                (vs ++ [{| pageNumber := i; el := nextElement s |}])
                (set_nextElement (S (nextElement s)) s) Hm eq_refl) as [H1 H2].
    split; auto.
Qed.

Lemma tracks_ext (s s' : State num) :
  mounted s' = mounted s -> loads s' = loads s -> loading s' = loading s ->
  loadingTracksCurrent s -> loadingTracksCurrent s'.
Proof.
  unfold loadingTracksCurrent. intros -> -> ->. auto.
Qed.

Lemma settle_tracks (n : nat) (r : Settled) (s : State num) :
  loadingTracksCurrent s -> loadingTracksCurrent (fst (settle SidebarJsx n r s)).
Proof.
  intros Hj. unfold settle.
  destruct (nth_error (loads s) n) as [task|] eqn:Hn; [|exact Hj].
  destruct (resume_keeps SidebarJsx task r s) as [Hm1 Hl1].
  pose proof (resume_loading task r s) as Hload.
  destruct (loadPdf_resume SidebarJsx task r s) as [[p s1] acts].
  cbn [fst snd] in *.
  intros Hm'. cbn [mounted set_loads] in Hm'. rewrite Hm1 in Hm'.
  destruct (Hj Hm') as (older & cur & Hl & Hc & Hkeep).
  destruct (Hload Hm') as [Hdown Hcur].
  cbn [loads loading set_loads]. rewrite Hl1, Hl.
  destruct (Nat.lt_trichotomy n (List.length older)) as [Hlt|[Heq|Hgt]].
  - exists (setPhase n p older), cur.
    split; [now apply setPhase_app_l|]. split; [exact Hc|].
    intros Hld. apply Hkeep. now apply Hdown.
  - subst n. rewrite Hl, nth_error_app2, Nat.sub_diag in Hn by lia.
    injection Hn as <-.
    exists older, {| url := url cur; cancelled := cancelled cur; phase := p |}.
    split; [apply setPhase_app_last|]. split; [exact Hc|].
    cbn [phase]. intros Hld. now apply Hcur.
  - exfalso. rewrite Hl in Hn.
    assert (Hlen : (List.length (older ++ [cur]) <= n)%nat)
      by (rewrite length_app; cbn; lia).
    apply nth_error_None in Hlen. congruence.
Qed.

Lemma step_tracks (s : State num) (e : Event num) :
  loadingTracksCurrent s -> loadingTracksCurrent (fst (step SidebarJsx s e)).
Proof.
  intros Hj. destruct e as [c|u|l|l|l|l| | |n r| ]; cbn [step].
  - destruct (mounted s) eqn:Hm; [|exact Hj]. cbn [fst].
    eapply tracks_ext; [| | |exact Hj];
      unfold selectionEffect, scheduleRecompute; simpl;
      destruct (rafPending s); reflexivity.
  - destruct (mounted s) eqn:Hm; [|exact Hj]. cbn [fst].
    intros _. destruct (Hj Hm) as (older & cur & Hl & _ & _).
    unfold loadPdf_start, setLoading, setError.
    repeat (simpl; rewrite ?Hm).
    eexists _, _. split; [reflexivity|]. split; [reflexivity|].
    discriminate.
  - destruct (mounted (set_layout l s)); cbn [fst];
      (eapply tracks_ext; [| | |exact Hj]);
      unfold onPerturbation, scheduleRecompute; simpl;
      destruct (latestSelected s), (rafPending s); reflexivity.
  - destruct (mounted (set_layout l s)); cbn [fst];
      (eapply tracks_ext; [| | |exact Hj]);
      unfold onPerturbation, scheduleRecompute; simpl;
      destruct (latestSelected s), (rafPending s); reflexivity.
  - destruct (mounted (set_layout l s)); cbn [fst];
      (eapply tracks_ext; [| | |exact Hj]);
      unfold onPerturbation, scheduleRecompute; simpl;
      destruct (latestSelected s), (rafPending s); reflexivity.
  - destruct (mounted (set_layout l s)); cbn [fst];
      (eapply tracks_ext; [| | |exact Hj]);
      unfold onMutation; simpl; destruct (latestSelected s); reflexivity.
  - destruct (timers s) as [|pv rest]; [exact Hj|]. cbn [fst].
    eapply tracks_ext; [| | |exact Hj];
      unfold scheduleRecompute; simpl; destruct (rafPending s); reflexivity.
  - destruct (frame_same SidebarJsx s) as [Hsame _]. cbn [step] in Hsame.
    unfold sameButHighlights in Hsame. cbn in Hsame. decompose [and] Hsame.
    eapply tracks_ext; [| | |exact Hj]; assumption.
  - now apply settle_tracks.
  - destruct (mounted s); [|exact Hj]. cbn [fst]. intros Habs. discriminate Habs.
Qed.

Lemma run_tracks (es : list (Event num)) (s : State num) :
  loadingTracksCurrent s -> loadingTracksCurrent (fst (run SidebarJsx s es)).
Proof.
  revert s. induction es as [|e es IH]; intros s Hj; [exact Hj|].
  cbn [run]. pose proof (step_tracks e Hj) as Hs.
  destruct (step SidebarJsx s e) as [s1 acts]. cbn [fst] in Hs.
  specialize (IH s1 Hs). now destruct (run SidebarJsx s1 es).
Qed.

Lemma mount_tracks (url : string) (sel : option (Chunk.t num)) (onR : bool)
    (l : Layout num) :
  loadingTracksCurrent (mount SidebarJsx url sel onR l).
Proof.
  intros _. cbn. eexists [], _. split; [reflexivity|]. split; [reflexivity|].
  discriminate.
Qed.

(** X8.  In the later copy, whenever the toolbar of the mounted component
    says "Loading…", the latest run of the load effect has not been
    cancelled and has not returned: the text is never left behind by a load
    that is over. *)
Theorem loading_text_means_load_in_flight (url : string)
    (sel : option (Chunk.t num)) (onR : bool) (l : Layout num)
    (es : list (Event num)) :
  let s := fst (run SidebarJsx (mount SidebarJsx url sel onR l) es) in
  mounted s = true -> statusText s = "Loading…"%string ->
  exists cur,
    currentLoad s = Some cur /\ cancelled cur = false /\ phase cur <> Returned.
Proof.
  intros s Hm Htext.
  destruct (run_tracks es (@mount_tracks url sel onR l) Hm)
    as (older & cur & Hl & Hc & Hkeep).
  fold s in Hl, Hkeep.
  exists cur. split; [now apply (currentLoad_last s older)|]. split; [exact Hc|].
  apply Hkeep. unfold statusText in Htext.
  destruct (loading s); [reflexivity|].
  destruct (error s) as [msg|]; [destruct (msg =? "")%string|]; discriminate.
Qed.

End LoadingIndicator.

Lemma loading_text_means_load_in_flight_scenario :
  let s := fst (run SidebarJsx (mount SidebarJsx "/a.pdf" None false docLayout)
                  [Settle 0 (HeadResponse false 404); SetFileUrl "/b.pdf";
                   Settle 1 (HeadResponse true 200)]) in
  exists cur,
    currentLoad s = Some cur /\ cancelled cur = false /\ phase cur <> Returned.
Proof.
  apply (@loading_text_means_load_in_flight Q Q_JsNumber "/a.pdf" None false
           docLayout
           [Settle 0 (HeadResponse false 404); SetFileUrl "/b.pdf";
            Settle 1 (HeadResponse true 200)]).
  - vm_compute. reflexivity.
  - vm_compute. reflexivity.
Defined.

(* ------------------------------------------------------------------ *)
(** ** A load that ends before the first frame *)

Section FastLoadFacts.
Context {num : Type} `{JsNumber num}.











End FastLoadFacts.


(* ------------------------------------------------------------------ *)
(** ** App and Sidebar *)

Section AppFacts.
Context {num : Type} `{JsNumber num}.
Variable toLowerCase : string -> string.

Lemma sameSelection_refl (sel : option (AppChunk.t num)) :
  sameSelection sel sel = true.
Proof. destruct sel; cbn; [apply Nat.eqb_refl | reflexivity]. Qed.

(** A render that changes neither prop leaves the pane alone. *)
Lemma update_same_props (ver : Version) (a : App num)
    (cs : list (AppChunk.t num)) (aw : list Await) :
  update ver a (app_fileUrl a) cs (app_selectedChunk a) aw
  = ({| app_fileUrl := app_fileUrl a; chunks := cs;
        app_selectedChunk := app_selectedChunk a; query := query a;
        awaits := aw; pane := pane a |}, []).
Proof.
  unfold update, passProps.
  now rewrite String.eqb_refl, sameSelection_refl.
Qed.

Lemma filter_filter_and {A : Type} (f g : A -> bool) (l : list A) :
  filter g (filter f l) = filter (fun x => f x && g x) l.
Proof.
  induction l as [|x l IH]; [reflexivity|].
  cbn [filter]. destruct (f x); cbn [filter andb]; [|exact IH].
  destruct (g x); now rewrite IH.
Qed.

Lemma search_once (ver : Version) (a : App num) (q : string) :
  q <> ""%string ->
  appRun toLowerCase ver a [TypeQuery q; SubmitSearch]
  = ({| app_fileUrl := app_fileUrl a;
        chunks := filter (matches toLowerCase (toLowerCase q)) (chunks a);
        app_selectedChunk := app_selectedChunk a; query := q;
        awaits := awaits a; pane := pane a |}, []).
Proof.
  intros Hq. cbn [appRun appStep]. unfold handleSearch. cbn [query set_query].
  destruct (String.eqb_spec q ""); [contradiction|].
  change (app_fileUrl (set_query q a)) with (app_fileUrl a).
  change (app_selectedChunk (set_query q a)) with (app_selectedChunk a).
  change (awaits (set_query q a)) with (awaits a).
  change (chunks (set_query q a)) with (chunks a).
  pose proof (update_same_props ver (set_query q a)
                (filter (matches toLowerCase (toLowerCase q)) (chunks a))
                (awaits a)) as Hu.
  cbn [app_fileUrl app_selectedChunk set_query query pane] in Hu.
  rewrite Hu. reflexivity.
Qed.

Lemma last_cons_default {A : Type} (l : list A) :
  forall x d : A, last (x :: l) d = last l x.
Proof.
  induction l as [|y l IH]; intros x d; [reflexivity|].
  change (last (x :: y :: l) d) with (last (y :: l) d).
  now rewrite !IH.
Qed.

Lemma searches_filter (ver : Version) (qs : list string) :
  forall a : App num,
  Forall (fun q => q <> ""%string) qs ->
  appRun toLowerCase ver a (searches qs)
  = ({| app_fileUrl := app_fileUrl a;
        chunks :=
          filter
            (fun c => forallb (fun q => matches toLowerCase (toLowerCase q) c) qs)
            (chunks a);
        app_selectedChunk := app_selectedChunk a;
        query := last qs (query a);
        awaits := awaits a; pane := pane a |}, []).
Proof.
  induction qs as [|q qs IH]; intros a Hqs.
  - cbn. f_equal. destruct a as [u cs sel qy aw p]. cbn. f_equal.
    induction cs as [|c cs IHc]; [reflexivity|]. cbn. now f_equal.
  - inversion Hqs as [|? ? Hq Hrest]; subst.
    pose proof (search_once ver a Hq) as H1.
    cbn [searches flat_map app]. fold (@searches num qs).
    cbn [appRun] in H1 |- *.
    destruct (appStep toLowerCase ver a (TypeQuery q)) as [a1 acts1].
    destruct (appStep toLowerCase ver a1 SubmitSearch) as [a2 acts2].
    cbn [app] in H1. injection H1 as Ha2 Hacts.
    rewrite (IH a2 Hrest). subst a2. cbn [app_fileUrl chunks app_selectedChunk
      query awaits pane].
    rewrite filter_filter_and.
    apply app_eq_nil in Hacts. destruct Hacts as [-> Hacts2].
    rewrite app_nil_r in Hacts2. rewrite Hacts2. cbn [app forallb].
    now rewrite last_cons_default.
Qed.

Lemma appRun_app (ver : Version) (es1 es2 : list (AppEvent num)) :
  forall a : App num,
  appRun toLowerCase ver a (es1 ++ es2)
  = let '(a1, acts1) := appRun toLowerCase ver a es1 in
    let '(a2, acts2) := appRun toLowerCase ver a1 es2 in
    (a2, acts1 ++ acts2).
Proof.
  induction es1 as [|e es1 IH]; intros a.
  - cbn. now destruct (appRun toLowerCase ver a es2).
  - cbn [app appRun]. destruct (appStep toLowerCase ver a e) as [a1 acts1].
    rewrite IH. destruct (appRun toLowerCase ver a1 es1) as [a2 acts2].
    destruct (appRun toLowerCase ver a2 es2) as [a3 acts3].
    now rewrite app_assoc.
Qed.

(** X9.  Searches narrow the list that is shown.  After any number of
    searches with non-empty queries the list holds, in their order, the
    chunks of the list before whose lowered text contains every lowered
    query: a search never brings a chunk back, the order of the searches
    does not matter, and a repeated query changes nothing.  The searches
    leave the document, the selection and the pane untouched, even when the
    selected chunk is no longer in the list. *)
Theorem searches_narrow (ver : Version) (qs : list string) (a : App num) :
  Forall (fun q => q <> ""%string) qs ->
  let a' := fst (appRun toLowerCase ver a (searches qs)) in
  chunks a'
  = filter (fun c => forallb (fun q => matches toLowerCase (toLowerCase q) c) qs)
      (chunks a) /\
  app_selectedChunk a' = app_selectedChunk a /\
  app_fileUrl a' = app_fileUrl a /\ awaits a' = awaits a /\
  pane a' = pane a /\
  snd (appRun toLowerCase ver a (searches qs)) = [].
Proof.
  intros Hqs. rewrite (searches_filter ver a Hqs). cbn. repeat split.
Qed.

(** X13.  Metadata that arrives late overrides the searches.  While a
    [fetchMetadata] is awaited (the one of the first render, or one an empty
    search asked for), any searches with non-empty queries filter the list
    at hand; when the metadata then arrives, the list is what was delivered,
    unfiltered, although the search box still holds the last query.  The
    selection, the document and the pane are untouched throughout. *)
Theorem late_metadata_overrides_searches (ver : Version) (a : App num)
    (k : nat) (w : Await) (qs : list string) (cs : list (AppChunk.t num)) :
  nth_error (awaits a) k = Some w -> w <> Extraction ->
  Forall (fun q => q <> ""%string) qs ->
  let r := appRun toLowerCase ver a (searches qs ++ [AwaitSettled k (Some cs)]) in
  chunks (fst r) = cs /\ query (fst r) = last qs (query a) /\
  app_selectedChunk (fst r) = app_selectedChunk a /\
  app_fileUrl (fst r) = app_fileUrl a /\ pane (fst r) = pane a /\
  awaits (fst r) = dropAwait k (awaits a) /\ snd r = [].
Proof.
  intros Hk Hw Hqs. cbn zeta.
  rewrite appRun_app, (searches_filter ver a Hqs).
  cbn [appRun appStep]. unfold afterAwait.
  cbn [awaits app_fileUrl app_selectedChunk chunks]. rewrite Hk.
  match goal with
  | |- context [update ver ?x _ cs _ _] =>
    pose proof (update_same_props ver x cs (dropAwait k (awaits a))) as Hu
  end.
  cbn [app_fileUrl app_selectedChunk query pane awaits chunks] in Hu.
  destruct w; [| |congruence]; rewrite Hu; cbn; repeat split.
Qed.

End AppFacts.

(* ------------------------------------------------------------------ *)
(** ** The pane inside App *)

Section PaneUnderApp.
Context {num : Type} `{JsNumber num}.

Lemma rafCallback_safe (pv : Closure) (s : State num) (c : Element) :
  containerRef s = Some c ->
  Forall safePaneAction (snd (rafCallback pv s)).
Proof.
  intros Hc. unfold rafCallback.
  change (latestSelected (set_rafPending false s)) with (latestSelected s).
  change (containerRef (set_rafPending false s)) with (containerRef s).
  change (layout (set_rafPending false s)) with (layout s).
  destruct (latestSelected s) as [chunk|]; cbn [snd].
  - destruct (computeRects_no_throw pv c (layout s) (Some chunk)) as [rects Hr].
    rewrite Hc, Hr. cbn [snd].
    constructor; [exact I|]. constructor; [exact I|].
    unfold centeringScroll. destruct rects as [|r rects]; [constructor|].
    destruct (findView pv (Highlight.page r)); [|constructor].
    change (containerRef (set_rafPending false s)) with (containerRef s).
    rewrite Hc. constructor; [exact I|constructor].
  - constructor; [exact I|constructor].
Qed.

Lemma runCallbacks_safe (q : list Closure) :
  forall (s : State num) (c : Element),
  containerRef s = Some c ->
  Forall safePaneAction (snd (runCallbacks q s)).
Proof.
  induction q as [|pv q IH]; intros s c Hc; [constructor|].
  cbn [runCallbacks].
  pose proof (rafCallback_safe pv s Hc) as Hsafe.
  destruct (rafCallback_same pv s) as [Hsame _].
  destruct (rafCallback pv s) as [s1 a1]. cbn [fst snd] in *.
  assert (Hc1 : containerRef s1 = Some c).
  { unfold sameButHighlights in Hsame. decompose [and] Hsame. congruence. }
  specialize (IH s1 c Hc1).
  destruct (runCallbacks q s1) as [s2 a2]. cbn [snd] in *.
  apply Forall_app. now split.
Qed.

(** A load that goes on leaves the props and the refs alone, and calls no
    [onReady] when there is none. *)
Lemma resume_under_app (ver : Version) (task : LoadTask) (r : Settled)
    (s : State num) :
  mounted s = true -> onReady s = false ->
  let s' := snd (fst (loadPdf_resume ver task r s)) in
  mounted s' = true /\ onReady s' = false /\
  containerRef s' = containerRef s /\ fileUrl s' = fileUrl s /\
  selectedChunk s' = selectedChunk s /\
  Forall safePaneAction (snd (loadPdf_resume ver task r s)).
Proof.
  intros Hm Hr. destruct s. cbn in Hm, Hr. subst.
  unfold loadPdf_resume, failed, catch, loopHead, complete, setPageViews,
    setLoading, setError, selectionEffect, scheduleRecompute.
  destruct (phase task), r, ver; cbn;
    repeat match goal with
           | |- context [if ?b then _ else _] => destruct b; cbn
           | |- context [match ?o with Some _ => _ | None => _ end] =>
             destruct o; cbn
           end;
    repeat split; repeat constructor.
Qed.

Lemma step_under_app (ver : Version) (s : State num) (e : Event num) :
  fromBrowser e = true \/ (exists c, e = SelectChunk c) \/
    (exists u, e = SetFileUrl u) ->
  mounted s = true -> onReady s = false ->
  (exists c, containerRef s = Some c) ->
  let s' := fst (step ver s e) in
  mounted s' = true /\ onReady s' = false /\
  containerRef s' = containerRef s /\
  fileUrl s' = match e with SetFileUrl u => u | _ => fileUrl s end /\
  selectedChunk s' = match e with SelectChunk c => c | _ => selectedChunk s end /\
  Forall safePaneAction (snd (step ver s e)).
Proof.
  intros He Hm Hr [c Hc].
  destruct e as [ch|u|l|l|l|l| | |n r| ].
  1-7: destruct s; cbn in Hm, Hr, Hc; subst; cbn;
    unfold selectionEffect, loadPdf_start, setLoading, setError,
      onPerturbation, onMutation, scheduleRecompute; cbn;
    repeat match goal with
           | |- context [if ?b then _ else _] => destruct b; cbn
           | |- context [match ?o with Some _ => _ | None => _ end] =>
             destruct o; cbn
           | |- context [match ?o with [] => _ | _ :: _ => _ end] =>
             destruct o; cbn
           end;
    repeat split; auto.
  - cbn [step].
    destruct (runCallbacks_same (rafQueue s) (set_rafQueue [] s)) as [Hsame _].
    pose proof (@runCallbacks_safe (rafQueue s) (set_rafQueue [] s) c Hc)
      as Hsafe.
    unfold sameButHighlights in Hsame. decompose [and] Hsame.
    cbn in *. repeat split; congruence.
  - cbn [step]. unfold settle.
    destruct (nth_error (loads s) n) as [task|]; cbn [fst snd];
      [|repeat split; auto].
    pose proof (resume_under_app ver task r s Hm Hr) as Hres.
    destruct (loadPdf_resume ver task r s) as [[p s1] acts].
    cbn [fst snd] in *. exact Hres.
  - destruct He as [He | [[? He] | [? He]]]; discriminate.
Qed.

End PaneUnderApp.

Section AppSafety.
Context {num : Type} `{JsNumber num}.
Variable toLowerCase : string -> string.

Lemma safe_PaneDid (acts : list (Action num)) :
  Forall safePaneAction acts -> Forall safeAction (map (@PaneDid num) acts).
Proof.
  induction 1 as [|a acts Ha _ IH]; [constructor|].
  cbn [map]. constructor; [|exact IH]. now destruct a.
Qed.

Lemma container_there (s : State num) :
  wf s -> mounted s = true -> exists c, containerRef s = Some c.
Proof.
  intros [_ Hc _ _] Hm. destruct (containerRef s) as [c|]; [now exists c|].
  now elim (Hc Hm).
Qed.

(** One prop handed down by a render. *)
Lemma prop_follows (ver : Version) (p : State num) (e : Event num) :
  (exists c, e = SelectChunk c) \/ (exists u, e = SetFileUrl u) ->
  mounted p = true -> onReady p = false -> wf p ->
  let p' := fst (step ver p e) in
  mounted p' = true /\ onReady p' = false /\ wf p' /\
  fileUrl p' = match e with SetFileUrl u => u | _ => fileUrl p end /\
  selectedChunk p' = match e with SelectChunk c => c | _ => selectedChunk p end /\
  Forall safePaneAction (snd (step ver p e)).
Proof.
  intros He Hm Hr Hwf.
  destruct (@step_under_app num _ ver p e (or_intror He) Hm Hr
              (container_there Hwf Hm)) as (H1 & H2 & _ & H4 & H5 & H6).
  pose proof (step_wf ver e Hwf) as Hwf'.
  exact (conj H1 (conj H2 (conj Hwf' (conj H4 (conj H5 H6))))).
Qed.

Lemma update_follows (ver : Version) (a : App num) (url' : string)
    (cs : list (AppChunk.t num)) (sel' : option (AppChunk.t num))
    (aw : list Await) :
  paneFollowsApp a ->
  paneFollowsApp (fst (update ver a url' cs sel' aw)) /\
  Forall safeAction (snd (update ver a url' cs sel' aw)).
Proof.
  intros (Hm & Hr & Hwf & Hu & Hs). unfold update, passProps.
  assert (H1 : exists p1 acts1,
             (if (app_fileUrl a =? url')%string then (pane a, [])
              else step ver (pane a) (SetFileUrl url')) = (p1, acts1) /\
             mounted p1 = true /\ onReady p1 = false /\ wf p1 /\
             fileUrl p1 = url' /\ selectedChunk p1 = selectedChunk (pane a) /\
             Forall safePaneAction acts1).
  { destruct (String.eqb_spec (app_fileUrl a) url') as [Heq|Hne].
    - exists (pane a), []. split; [reflexivity|].
      split; [exact Hm|]. split; [exact Hr|]. split; [exact Hwf|].
      split; [congruence|]. split; [reflexivity|constructor].
    - destruct (@prop_follows ver (pane a) (SetFileUrl url')
                  (or_intror (ex_intro _ url' eq_refl)) Hm Hr Hwf)
        as (G1 & G2 & G3 & G4 & G5 & G6).
      destruct (step ver (pane a) (SetFileUrl url')) as [p1 acts1].
      exists p1, acts1. cbn [fst snd] in *. split; [reflexivity|].
      exact (conj G1 (conj G2 (conj G3 (conj G4 (conj G5 G6))))). }
  destruct H1 as (p1 & acts1 & -> & Hm1 & Hr1 & Hwf1 & Hu1 & Hs1 & Hsafe1).
  destruct (sameSelection (app_selectedChunk a) sel') eqn:Hsame.
  - cbn [fst snd]. split.
    + unfold paneFollowsApp. cbn.
      split; [exact Hm1|]. split; [exact Hr1|]. split; [exact Hwf1|].
      split; [exact Hu1|]. congruence.
    + apply safe_PaneDid. now rewrite app_nil_r.
  - destruct (@prop_follows ver p1
                (SelectChunk (option_map (@AppChunk.data num) sel'))
                (or_introl (ex_intro _ _ eq_refl)) Hm1 Hr1 Hwf1)
      as (G1 & G2 & G3 & G4 & G5 & G6).
    destruct (step ver p1 (SelectChunk (option_map (@AppChunk.data num) sel')))
      as [p2 acts2].
    cbn [fst snd] in *. split.
    + unfold paneFollowsApp. cbn.
      split; [exact G1|]. split; [exact G2|]. split; [exact G3|].
      split; [congruence|]. exact G5.
    + apply safe_PaneDid. apply Forall_app. now split.
Qed.

Lemma appStep_follows (ver : Version) (a : App num) (e : AppEvent num) :
  paneFollowsApp a ->
  paneFollowsApp (fst (appStep toLowerCase ver a e)) /\
  Forall safeAction (snd (appStep toLowerCase ver a e)).
Proof.
  intros Ha.
  assert (Hstay : paneFollowsApp a /\ Forall (@safeAction num) [])
    by (split; [exact Ha | constructor]).
  destruct e as [file blob|q| |idx|k r|e]; cbn [appStep].
  - unfold handleFileUpload. destruct file; [|exact Hstay].
    now apply update_follows.
  - cbn [fst snd]. split; [exact Ha | constructor].
  - unfold handleSearch. destruct (query a =? "")%string;
      now apply update_follows.
  - destruct (nth_error (chunks a) idx); [|exact Hstay].
    now apply update_follows.
  - unfold afterAwait. destruct (nth_error (awaits a) k) as [w|]; [|exact Hstay].
    destruct w, r as [cs|]; try now apply update_follows.
    all: match goal with
         | |- context [update ?v ?x ?u ?c ?s ?w] =>
           destruct (@update_follows v x u c s w Ha) as [G1 G2];
           destruct (update v x u c s w) as [a1 acts1]
         end; cbn [fst snd] in *; split; [exact G1|];
      apply Forall_app; split; [exact G2|]; constructor; [exact I|constructor].
  - destruct (fromBrowser e) eqn:He; [|exact Hstay].
    destruct Ha as (Hm & Hr & Hwf & Hu & Hs).
    destruct (@step_under_app num _ ver (pane a) e (or_introl He) Hm Hr
                (container_there Hwf Hm)) as (G1 & G2 & _ & G4 & G5 & G6).
    pose proof (step_wf ver e Hwf) as Hwf'.
    destruct (step ver (pane a) e) as [p acts]. cbn [fst snd] in *.
    split; [|now apply safe_PaneDid].
    unfold paneFollowsApp. cbn.
    split; [exact G1|]. split; [exact G2|]. split; [exact Hwf'|]. split.
    + rewrite G4, <- Hu. now destruct e.
    + rewrite G5, <- Hs. now destruct e.
Qed.

Lemma appRun_follows (ver : Version) (es : list (AppEvent num)) :
  forall a : App num,
  paneFollowsApp a ->
  paneFollowsApp (fst (appRun toLowerCase ver a es)) /\
  Forall safeAction (snd (appRun toLowerCase ver a es)).
Proof.
  induction es as [|e es IH]; intros a Ha; [split; [exact Ha|constructor]|].
  cbn [appRun].
  destruct (appStep_follows ver e Ha) as [Ha1 Hs1].
  destruct (appStep toLowerCase ver a e) as [a1 acts1]. cbn [fst snd] in *.
  destruct (IH a1 Ha1) as [Ha2 Hs2].
  destruct (appRun toLowerCase ver a1 es) as [a2 acts2]. cbn [fst snd] in *.
  split; [exact Ha2|]. apply Forall_app. now split.
Qed.

Lemma appStart_follows (ver : Version) (l : Layout num) :
  paneFollowsApp (appStart ver l).
Proof.
  unfold paneFollowsApp, appStart. cbn [pane app_fileUrl app_selectedChunk].
  split; [now destruct ver|]. split; [now destruct ver|].
  split; [apply mount_wf|]. split; now destruct ver.
Qed.

(** X11.  Inside [App] the pane is safe.  [App] renders [PdfPane] on every
    render and passes no [onReady]; so after any events (uploads, searches,
    clicks on rows, awaits that settle or reject, scrolls, resizes,
    mutations, timers, frames and the steps of the loads) the pane is still
    mounted and well formed, its [fileUrl] and [selectedChunk] are those of
    [App]'s state, no [onReady] was called, and no exception left a frame
    callback: the container is there whenever the mapper reads it. *)
Theorem pane_is_safe_under_app (ver : Version) (l : Layout num)
    (es : list (AppEvent num)) :
  let a := fst (appRun toLowerCase ver (appStart ver l) es) in
  mounted (pane a) = true /\ wf (pane a) /\
  fileUrl (pane a) = app_fileUrl a /\
  selectedChunk (pane a)
  = option_map (@AppChunk.data num) (app_selectedChunk a) /\
  Forall safeAction (snd (appRun toLowerCase ver (appStart ver l) es)).
Proof.
  destruct (appRun_follows ver es (appStart_follows ver l))
    as [(Hm & Hr & Hwf & Hu & Hs) Hsafe].
  exact (conj Hm (conj Hwf (conj Hu (conj Hs Hsafe)))).
Qed.

End AppSafety.

(* ------------------------------------------------------------------ *)
(** ** Uploads and clicks *)

Section AppFlows.
Context {num : Type} `{JsNumber num}.
Variable toLowerCase : string -> string.

(** Events of the browser for the pane leave [App]'s own state alone. *)
Lemma browsers_keep (ver : Version) (es : list (Event num)) :
  forall a : App num,
  let a' := fst (appRun toLowerCase ver a (map (@Browser num) es)) in
  app_fileUrl a' = app_fileUrl a /\ chunks a' = chunks a /\
  app_selectedChunk a' = app_selectedChunk a /\ awaits a' = awaits a /\
  query a' = query a.
Proof.
  induction es as [|e es IH]; intros a; [cbn; auto|].
  cbn [map appRun appStep].
  destruct (fromBrowser e).
  - destruct (step ver (pane a) e) as [p acts].
    specialize (IH (set_pane p a)). cbn zeta in IH.
    destruct (appRun toLowerCase ver (set_pane p a) (map (@Browser num) es))
      as [a2 acts2].
    exact IH.
  - specialize (IH a). cbn zeta in IH.
    destruct (appRun toLowerCase ver a (map (@Browser num) es)) as [a2 acts2].
    exact IH.
Qed.

Lemma nth_error_last {A : Type} (l : list A) (x : A) :
  nth_error (l ++ [x]) (List.length l) = Some x.
Proof. induction l as [|y l IH]; [reflexivity | exact IH]. Qed.

Lemma dropAwait_last (l : list Await) (x : Await) :
  dropAwait (List.length l) (l ++ [x]) = l.
Proof. induction l as [|y l IH]; [reflexivity | cbn; now rewrite IH]. Qed.

(** The frame after the selection went to [None] clears the overlay. *)
Lemma deselect_then_frame (ver : Version) (p : State num) :
  wf p -> mounted p = true ->
  let p1 := fst (step ver p (SelectChunk None)) in
  snd (step ver p (SelectChunk None)) = [] /\
  pageViews p1 = pageViews p /\ fileUrl p1 = fileUrl p /\
  snd (step ver p1 AnimationFrame) = [SetHighlights []] /\
  highlights (fst (step ver p1 AnimationFrame)) = [].
Proof.
  intros Hwf Hm.
  destruct (select_queues_one ver None Hwf Hm)
    as (Hacts & (pv & Hq & _) & _ & Hm1 & Hl1 & _ & _ & _ & Hpv).
  cbn zeta. split; [exact Hacts|]. split; [exact Hpv|].
  split.
  { cbn [step]. rewrite Hm. cbn [fst]. unfold selectionEffect, scheduleRecompute.
    cbn. now destruct (rafPending p). }
  rewrite (frame_single ver _ Hq).
  rewrite rafCallback_none by exact Hl1.
  cbn [fst snd]. split; [reflexivity|].
  unfold setHighlights.
  change (mounted (set_rafPending false
            (set_rafQueue [] (fst (step ver p (SelectChunk None))))))
    with (mounted (fst (step ver p (SelectChunk None)))).
  now rewrite Hm1.
Qed.

(** X10.  An upload keeps the old list and the old selection until the
    extraction settles.  After a file was chosen [App] and the pane have the
    blob URL, while the list, the selection (also the pane's, whatever the
    pane does meanwhile: load the new document, scroll, repaint) and the
    awaits before are as they were, with the extraction awaited last.  When
    the extraction delivers, the list is replaced and the selection is
    cleared without any action, and the next frame publishes exactly the
    empty set.  When it rejects, the list and the selection stay, and the
    rejection is unhandled. *)
Theorem upload_keeps_selection_until_extraction (ver : Version) (a : App num)
    (f blob : string) (es : list (Event num)) (cs : list (AppChunk.t num))
    (c : AppChunk.t num) :
  paneFollowsApp a -> app_selectedChunk a = Some c ->
  let a1 := fst (appRun toLowerCase ver a
                   (Upload (Some f) blob :: map (@Browser num) es)) in
  let k := List.length (awaits a) in
  let a2 := fst (appStep toLowerCase ver a1 (AwaitSettled k (Some cs))) in
  let a3 := fst (appStep toLowerCase ver a2 (Browser AnimationFrame)) in
  let a4 := fst (appStep toLowerCase ver a1 (AwaitSettled k None)) in
  (app_fileUrl a1 = blob /\ fileUrl (pane a1) = blob /\
   chunks a1 = chunks a /\ app_selectedChunk a1 = Some c /\
   selectedChunk (pane a1) = Some (AppChunk.data c) /\
   awaits a1 = awaits a ++ [Extraction]) /\
  (snd (appStep toLowerCase ver a1 (AwaitSettled k (Some cs))) = [] /\
   chunks a2 = cs /\ app_selectedChunk a2 = None /\ app_fileUrl a2 = blob /\
   awaits a2 = awaits a /\ pageViews (pane a2) = pageViews (pane a1) /\
   snd (appStep toLowerCase ver a2 (Browser AnimationFrame))
   = [PaneDid (SetHighlights [])] /\
   highlights (pane a3) = [] /\ chunks a3 = cs) /\
  (snd (appStep toLowerCase ver a1 (AwaitSettled k None)) = [UnhandledRejection] /\
   chunks a4 = chunks a /\ app_selectedChunk a4 = Some c /\
   pane a4 = pane a1).
Proof.
  intros Ha Hsel.
  (* the upload *)
  assert (Hup : exists a0,
             fst (appStep toLowerCase ver a (Upload (Some f) blob)) = a0 /\
             paneFollowsApp a0 /\ app_fileUrl a0 = blob /\
             chunks a0 = chunks a /\ app_selectedChunk a0 = Some c /\
             awaits a0 = awaits a ++ [Extraction]).
  { eexists. split; [reflexivity|]. cbn [appStep handleFileUpload].
    split; [now apply update_follows|]. unfold update.
    destruct (passProps ver (app_fileUrl a) blob (app_selectedChunk a)
                (app_selectedChunk a) (pane a)) as [p acts].
    cbn. rewrite sameSelection_refl. auto. }
  destruct Hup as (a0 & Ha0 & Hf0 & Hu0 & Hc0 & Hs0 & Hw0).
  intros a1.
  assert (Ha1 : a1 = fst (appRun toLowerCase ver a0 (map (@Browser num) es))).
  { subst a1 a0. cbn [appRun].
    destruct (appStep toLowerCase ver a (Upload (Some f) blob)) as [x acts].
    cbn [fst].
    now destruct (appRun toLowerCase ver x (map (@Browser num) es)). }
  destruct (browsers_keep ver es a0) as (Ku & Kc & Ks & Kw & _).
  destruct (appRun_follows toLowerCase ver (map (@Browser num) es) Hf0)
    as [Hf1 _].
  rewrite <- Ha1 in Ku, Kc, Ks, Kw, Hf1. clearbody a1. clear Ha1.
  destruct Hf1 as (Hm1 & Hr1 & Hwf1 & Hpu1 & Hps1).
  assert (Hu1 : app_fileUrl a1 = blob) by congruence.
  assert (Hs1 : app_selectedChunk a1 = Some c) by congruence.
  assert (Hw1 : awaits a1 = awaits a ++ [Extraction]) by congruence.
  intros k.
  assert (Hk : nth_error (awaits a1) k = Some Extraction).
  { rewrite Hw1. apply nth_error_last. }
  assert (Hd : dropAwait k (awaits a1) = awaits a).
  { rewrite Hw1. apply dropAwait_last. }
  cbn zeta. split; [|split].
  - split; [exact Hu1|]. split; [congruence|]. split; [congruence|].
    split; [exact Hs1|]. split; [|exact Hw1].
    rewrite Hps1, Hs1. reflexivity.
  - cbn [appStep]. unfold afterAwait. rewrite Hk, Hd.
    unfold update, passProps. rewrite String.eqb_refl, Hs1.
    cbn [sameSelection option_map app].
    destruct (deselect_then_frame ver Hwf1 Hm1) as (D1 & D2 & D3 & D4 & D5).
    destruct (step ver (pane a1) (SelectChunk None)) as [p2 acts2].
    cbn [fst snd] in *. subst acts2. cbn [map fst snd pane chunks
      app_selectedChunk app_fileUrl awaits fromBrowser].
    destruct (step ver p2 AnimationFrame) as [p3 acts3].
    cbn [fst snd] in *. subst acts3. cbn.
    repeat split; auto.
  - cbn [appStep]. unfold afterAwait. rewrite Hk, Hd.
    rewrite update_same_props. cbn. rewrite Hs1. repeat split; congruence.
Qed.

Lemma combine_seq_nth {A : Type} (l : list A) :
  forall (start idx : nat) (x : A),
  nth_error l idx = Some x ->
  nth_error (combine (seq start (List.length l)) l) idx
  = Some ((start + idx)%nat, x).
Proof.
  induction l as [|y l IH]; intros start idx x Hx; [now destruct idx|].
  destruct idx as [|idx]; cbn in *.
  - injection Hx as ->. now rewrite Nat.add_0_r.
  - rewrite (IH (S start) idx x Hx). now rewrite Nat.add_succ_r.
Qed.

Lemma centeringScroll_ext (pv : Closure) (s s' : State num)
    (rects : list (Highlight.t num)) :
  containerRef s' = containerRef s -> layout s' = layout s ->
  centeringScroll pv s' rects = centeringScroll pv s rects.
Proof. intros Hc Hl. unfold centeringScroll. now rewrite Hc, Hl. Qed.

(** X12.  A click on a row highlights the chunk the row shows.  Row [idx]
    of the sidebar shows number [idx + 1], the text and the page of chunk
    [idx] of the list.  A click on it, when that chunk is not the selected
    one and no frame is pending, selects it without any action; the next
    frame calls the mapper once for this chunk over the pane's registry,
    publishes its result and scrolls as the result asks. *)
Theorem click_row_highlights (ver : Version) (a : App num) (idx : nat)
    (c : AppChunk.t num) :
  paneFollowsApp a -> rafPending (pane a) = false ->
  nth_error (chunks a) idx = Some c ->
  sameSelection (app_selectedChunk a) (Some c) = false ->
  let a1 := fst (appStep toLowerCase ver a (ClickRow idx)) in
  let a2 := fst (appStep toLowerCase ver a1 (Browser AnimationFrame)) in
  nth_error (sidebarRows (chunks a)) idx
  = Some (S idx, AppChunk.text c, Chunk.page (AppChunk.data c)) /\
  snd (appStep toLowerCase ver a (ClickRow idx)) = [] /\
  app_selectedChunk a1 = Some c /\ chunks a1 = chunks a /\
  exists rects,
    computeRectsFromChunk (pageViews (pane a)) (containerRef (pane a))
      (layout (pane a)) (Some (AppChunk.data c)) = Normal rects /\
    snd (appStep toLowerCase ver a1 (Browser AnimationFrame))
    = map (@PaneDid num)
        (CallComputeRects (AppChunk.data c) :: SetHighlights rects
           :: centeringScroll (pageViews (pane a)) (pane a) rects) /\
    highlights (pane a2) = rects /\ app_selectedChunk a2 = Some c.
Proof.
  intros (Hm & Hr & Hwf & Hu & Hs) Hp Hidx Hsame. cbn zeta.
  split.
  { unfold sidebarRows.
    rewrite (map_nth_error _ _ _ (combine_seq_nth (chunks a) 0 idx Hidx)).
    reflexivity. }
  cbn [appStep]. rewrite Hidx.
  unfold update, passProps. rewrite String.eqb_refl, Hsame.
  cbn [option_map app].
  destruct (select_queues_one ver (Some (AppChunk.data c)) Hwf Hm)
    as (Hacts & (pv & Hq & Hpv) & _ & Hm1 & Hl1 & _ & Hc1 & Hlay1 & _).
  rewrite Hp in Hpv. subst pv.
  destruct (container_there Hwf Hm) as [cont Hcont].
  destruct (computeRects_no_throw (pageViews (pane a)) cont (layout (pane a))
              (Some (AppChunk.data c))) as [rects Hrects].
  pose proof (frame_single ver _ Hq) as Hframe.
  rewrite (@rafCallback_some _ _ _ _ (AppChunk.data c) rects) in Hframe;
    [|exact Hl1
     |unfold set_rafQueue; cbn [containerRef layout];
      rewrite Hc1, Hlay1, Hcont; exact Hrects].
  rewrite (@centeringScroll_ext (pageViews (pane a)) (pane a)) in Hframe;
    [|unfold set_rafPending, set_rafQueue; cbn [containerRef]; exact Hc1
     |unfold set_rafPending, set_rafQueue; cbn [layout]; exact Hlay1].
  destruct (step ver (pane a) (SelectChunk (Some (AppChunk.data c))))
    as [p1 acts1].
  cbn [fst snd] in *. subst acts1.
  cbn [map fst snd pane chunks app_selectedChunk fromBrowser].
  rewrite Hframe. cbn [fst snd pane set_pane app_selectedChunk].
  split; [reflexivity|]. split; [reflexivity|]. split; [reflexivity|].
  exists rects. rewrite Hcont. split; [exact Hrects|].
  split; [reflexivity|]. split; [|reflexivity].
  unfold setHighlights. cbn. now rewrite Hm1.
Qed.

End AppFlows.

(* ------------------------------------------------------------------ *)
(** ** Concrete runs of App *)

Lemma appListed_follows : paneFollowsApp appListed.
Proof.
  split; [vm_compute; reflexivity|]. split; [vm_compute; reflexivity|].
  split; [|split; vm_compute; reflexivity].
  constructor.
  - vm_compute. reflexivity.
  - intros _. vm_compute. discriminate.
  - vm_compute. reflexivity.
  - vm_compute. lia.
Defined.

Lemma appSelected_follows : paneFollowsApp appSelected.
Proof.
  split; [vm_compute; reflexivity|]. split; [vm_compute; reflexivity|].
  split; [|split; vm_compute; reflexivity].
  constructor.
  - vm_compute. reflexivity.
  - intros _. vm_compute. discriminate.
  - vm_compute. reflexivity.
  - vm_compute. lia.
Defined.

(** Two searches over the three sample chunks leave the one whose text has
    both words, whatever their case; the selected chunk is not in the list
    any more, and stays selected. *)
Lemma searches_narrow_scenario :
  let qs := ["SUMMARY"; "layer"]%string in
  let a' := fst (appRun asciiLower SidebarJsx appSelected (searches qs)) in
  (chunks a'
   = filter (fun c => forallb (fun q => matches asciiLower (asciiLower q) c) qs)
       (chunks appSelected) /\
   app_selectedChunk a' = app_selectedChunk appSelected /\
   app_fileUrl a' = app_fileUrl appSelected /\
   awaits a' = awaits appSelected /\
   pane a' = pane appSelected /\
   snd (appRun asciiLower SidebarJsx appSelected (searches qs)) = []) /\
  map (@AppChunk.oid Q) (chunks a') = [2%nat] /\
  option_map (@AppChunk.oid Q) (app_selectedChunk a') = Some 1%nat.
Proof.
  split.
  - apply (@searches_narrow Q Q_JsNumber asciiLower SidebarJsx
             ["SUMMARY"; "layer"]%string appSelected).
    repeat constructor; discriminate.
  - vm_compute. split; reflexivity.
Defined.

Lemma upload_keeps_selection_until_extraction_scenario :
  let c := AppChunk.mk 1 "Executive Summary"%string scenarioChunk in
  let es := loadsFine 1 2 ++ [AnimationFrame] in
  let a1 := fst (appRun asciiLower SidebarJsx appSelected
                   (Upload (Some "report.pdf"%string) "blob:1"%string
                      :: map (@Browser Q) es)) in
  let k := List.length (awaits appSelected) in
  let a2 := fst (appStep asciiLower SidebarJsx a1
                   (AwaitSettled k (Some extractedChunks))) in
  let a3 := fst (appStep asciiLower SidebarJsx a2 (Browser AnimationFrame)) in
  let a4 := fst (appStep asciiLower SidebarJsx a1 (AwaitSettled k None)) in
  (app_fileUrl a1 = "blob:1"%string /\ fileUrl (pane a1) = "blob:1"%string /\
   chunks a1 = chunks appSelected /\ app_selectedChunk a1 = Some c /\
   selectedChunk (pane a1) = Some (AppChunk.data c) /\
   awaits a1 = awaits appSelected ++ [Extraction]) /\
  (snd (appStep asciiLower SidebarJsx a1 (AwaitSettled k (Some extractedChunks)))
   = [] /\
   chunks a2 = extractedChunks /\ app_selectedChunk a2 = None /\
   app_fileUrl a2 = "blob:1"%string /\
   awaits a2 = awaits appSelected /\ pageViews (pane a2) = pageViews (pane a1) /\
   snd (appStep asciiLower SidebarJsx a2 (Browser AnimationFrame))
   = [PaneDid (SetHighlights [])] /\
   highlights (pane a3) = [] /\ chunks a3 = extractedChunks) /\
  (snd (appStep asciiLower SidebarJsx a1 (AwaitSettled k None))
   = [UnhandledRejection] /\
   chunks a4 = chunks appSelected /\ app_selectedChunk a4 = Some c /\
   pane a4 = pane a1).
Proof.
  apply (@upload_keeps_selection_until_extraction Q Q_JsNumber asciiLower
           SidebarJsx appSelected "report.pdf"%string "blob:1"%string
           (loadsFine 1 2 ++ [AnimationFrame]) extractedChunks
           (AppChunk.mk 1 "Executive Summary"%string scenarioChunk)).
  - exact appSelected_follows.
  - vm_compute. reflexivity.
Defined.

Lemma click_row_highlights_scenario :
  let c := AppChunk.mk 2 "Extraction layer: summary of fields"%string
             (Chunk.mk "c2"%string 1%Z (0.1, 0.1, 0.9, 0.3)%Q) in
  let a1 := fst (appStep asciiLower SidebarJsx appListed (ClickRow 1)) in
  let a2 := fst (appStep asciiLower SidebarJsx a1 (Browser AnimationFrame)) in
  nth_error (sidebarRows (chunks appListed)) 1
  = Some (2%nat, AppChunk.text c, Chunk.page (AppChunk.data c)) /\
  snd (appStep asciiLower SidebarJsx appListed (ClickRow 1)) = [] /\
  app_selectedChunk a1 = Some c /\ chunks a1 = chunks appListed /\
  exists rects,
    computeRectsFromChunk (pageViews (pane appListed))
      (containerRef (pane appListed)) (layout (pane appListed))
      (Some (AppChunk.data c)) = Normal rects /\
    snd (appStep asciiLower SidebarJsx a1 (Browser AnimationFrame))
    = map (@PaneDid Q)
        (CallComputeRects (AppChunk.data c) :: SetHighlights rects
           :: centeringScroll (pageViews (pane appListed)) (pane appListed) rects) /\
    highlights (pane a2) = rects /\ app_selectedChunk a2 = Some c.
Proof.
  apply (@click_row_highlights Q Q_JsNumber asciiLower SidebarJsx appListed 1
           (AppChunk.mk 2 "Extraction layer: summary of fields"%string
              (Chunk.mk "c2"%string 1%Z (0.1, 0.1, 0.9, 0.3)%Q))).
  - exact appListed_follows.
  - vm_compute. reflexivity.
  - vm_compute. reflexivity.
  - vm_compute. reflexivity.
Defined.

(** The metadata of the first render arrives after a search was made on the
    still empty list: the whole list is shown, and the box holds the query. *)
Lemma late_metadata_overrides_searches_scenario :
  let a := appStart SidebarJsx docLayout in
  let r := appRun asciiLower SidebarJsx a
             (searches ["appendix"%string] ++ [AwaitSettled 0 (Some sampleChunks)]) in
  chunks (fst r) = sampleChunks /\
  query (fst r) = last ["appendix"%string] (query a) /\
  app_selectedChunk (fst r) = app_selectedChunk a /\
  app_fileUrl (fst r) = app_fileUrl a /\ pane (fst r) = pane a /\
  awaits (fst r) = dropAwait 0 (awaits a) /\ snd r = [].
Proof.
  apply (@late_metadata_overrides_searches Q Q_JsNumber asciiLower SidebarJsx
           (appStart SidebarJsx docLayout) 0 InitialMetadata
           ["appendix"%string] sampleChunks).
  - vm_compute. reflexivity.
  - discriminate.
  - repeat constructor; discriminate.
Defined.

(* ------------------------------------------------------------------ *)
(** ** Scrolling while a chunk is shown *)

Section ScrollBack.
Context {num : Type} `{JsNumber num}.

(** X14.  A scroll while a chunk is shown is answered by a scroll back.
    When a chunk is selected whose page is in the registry and no frame is
    pending, a scroll event issues nothing by itself, and the next frame
    maps the chunk again on the layout after the scroll, publishes that one
    rectangle, and scrolls the container to the centre of the chunk's page
    once more: the target is computed from the page's [offsetTop] and the
    two [clientHeight]s, which scrolling does not change. *)
Theorem scroll_recentres (ver : Version) (s : State num) (l : Layout num)
    (c : Chunk.t num) (v : PageView) (cont : Element) :
  wf s -> mounted s = true -> rafPending s = false ->
  selectedChunk s = Some c ->
  findView (pageViews s) (Chunk.page c) = Some v ->
  containerRef s = Some cont ->
  let s1 := fst (step ver s (Scroll l)) in
  snd (step ver s (Scroll l)) = [] /\
  exists r,
    computeRectsFromChunk (pageViews s) (Some cont) l (Some c) = Normal [r] /\
    snd (step ver s1 AnimationFrame)
    = [CallComputeRects c; SetHighlights [r];
       ScrollTo (centerScroll l cont (el v))] /\
    highlights (fst (step ver s1 AnimationFrame)) = [r].
Proof.
  intros Hwf Hm Hp Hsel Hfind Hcont.
  pose proof (wf_raf Hwf) as Hlen. rewrite Hp in Hlen.
  assert (Hq : rafQueue s = []) by (now destruct (rafQueue s)).
  assert (Hl : latestSelected s = Some c)
    by (now rewrite (wf_selected Hwf)).
  assert (Hstep : step ver s (Scroll l)
                  = (set_rafQueue [pageViews s]
                       (set_rafPending true (set_layout l s)), [])).
  { cbn [step]. change (mounted (set_layout l s)) with (mounted s).
    rewrite Hm. unfold onPerturbation, scheduleRecompute.
    change (latestSelected (set_layout l s)) with (latestSelected s).
    change (rafPending (set_layout l s)) with (rafPending s).
    rewrite Hl, Hp. cbn. now rewrite Hq. }
  rewrite Hstep. cbn [fst snd]. split; [reflexivity|].
  destruct (Chunk.bbox_normalized c) as [[[x0 y0] x1] y1] eqn:Hbox.
  pose proof (@computeRects_found num _ (pageViews s) cont l c v x0 y0 x1 y1
                Hfind Hbox) as Hrects.
  cbn zeta in Hrects.
  eexists. split; [exact Hrects|].
  rewrite (@frame_single num _ ver _ (pageViews s)) by reflexivity.
  erewrite rafCallback_some;
    [|cbn; exact Hl|cbn; rewrite Hcont; exact Hrects].
  cbn [fst snd]. unfold centeringScroll. cbn [Highlight.page].
  rewrite Hfind. cbn. rewrite Hcont. split; [reflexivity|].
  unfold setHighlights. cbn. now rewrite Hm.
Qed.

End ScrollBack.

Lemma docShown_wf : wf docShown.
Proof.
  constructor.
  - vm_compute. reflexivity.
  - intros _. vm_compute. discriminate.
  - vm_compute. reflexivity.
  - vm_compute. lia.
Defined.

(** The content is scrolled by 300 pixels while the chunk on page 2 is
    shown: the next frame scrolls to the position the selection had asked
    for. *)
Lemma scroll_recentres_scenario :
  let v := {| pageNumber := 2; el := 4%nat |} in
  let s1 := fst (step SidebarJsx docShown (Scroll docLayoutScrolled)) in
  snd (step SidebarJsx docShown (Scroll docLayoutScrolled)) = [] /\
  exists r,
    computeRectsFromChunk (pageViews docShown) (Some 0%nat) docLayoutScrolled
      (Some scenarioChunk) = Normal [r] /\
    snd (step SidebarJsx s1 AnimationFrame)
    = [CallComputeRects scenarioChunk; SetHighlights [r];
       ScrollTo (centerScroll docLayoutScrolled 0%nat (el v))] /\
    highlights (fst (step SidebarJsx s1 AnimationFrame)) = [r].
Proof.
  apply (@scroll_recentres Q Q_JsNumber SidebarJsx docShown docLayoutScrolled
           scenarioChunk {| pageNumber := 2; el := 4%nat |} 0%nat).
  - exact docShown_wf.
  - vm_compute. reflexivity.
  - vm_compute. reflexivity.
  - vm_compute. reflexivity.
  - vm_compute. reflexivity.
  - vm_compute. reflexivity.
Defined.
